(** * newspaper_receipe: the cleaning pipeline for scraped newspaper articles

    A shallow embedding of [newspaper_receipe.py] and the properties of its
    stages.  The table is a pandas [DataFrame]; the embedding keeps what the
    program observes of it: the index label of every row and, per row, the
    cells by column name.  A cell is a text, a number or the missing value
    [NaN], which is what [read_csv] makes of a file.  An exception of the
    Python program is a [Raise] result.

    A frame is given by its rows, so its columns are the columns of its
    rows.  A column in which some cell is a text is a column of objects; a
    column of a frame with rows in which no cell is a text is a numeric
    column, as [read_csv] types it.  A frame without rows stands for the
    table of a file that has the header of the articles ([uri], [title],
    [body] and whatever else) and no record; its columns are columns of
    objects.  A Python [str] is the list of its code points.  The file
    reader, the tokenizer, the stop words and MD5 are parameters: [main]
    takes the table that was read. *)

From Stdlib Require Import NArith Ascii.
From Stdlib Require String.
From stdpp Require Import gmap strings list fin_maps.

#[local] Set Warnings "-clear-no-such-hyp".

(** ** Python values and exceptions *)

Abbreviation char := N (only parsing).
Abbreviation str := (list N) (only parsing).

Definition chr (a : ascii) : char := N_of_ascii a.

(** A string literal of the program, as a Python [str]. *)
Definition py (s : string) : str := chr <$> String.list_ascii_of_string s.

Inductive exn :=
  | KeyError
  | IndexError
  | AttributeError
  | TypeError
  | ValueError
  | UnicodeEncodeError.

Inductive result (A : Type) :=
  | Ok (a : A)
  | Raise (e : exn).
Arguments Ok {A} a.
Arguments Raise {A} e.

Definition bind {A B} (m : result A) (k : A → result B) : result B :=
  match m with
  | Ok a => k a
  | Raise e => Raise e
  end.

Notation "'do' x <- m ; k" := (bind m (fun x => k))
  (at level 10, x name, m at level 100, k at level 200).

(** A function applied to every element in order; the first exception wins. *)
Fixpoint traverse {A B} (f : A → result B) (l : list A) : result (list B) :=
  match l with
  | [] => Ok []
  | a :: l' => do b <- f a; do bs <- traverse f l'; Ok (b :: bs)
  end.

Inductive value :=
  | NaN
  | Str (s : str)
  | Num (n : nat).

#[global] Instance exn_eq_dec : EqDecision exn.
Proof. solve_decision. Defined.
#[global] Instance value_eq_dec : EqDecision value.
Proof. solve_decision. Defined.
#[global] Instance result_eq_dec {A} `{EqDecision A} : EqDecision (result A).
Proof. solve_decision. Defined.

(** ** Python's [str] methods used by the program *)

Module PyStr.

(** [s.split(sep)] for a one-character separator. *)
Fixpoint split (sep : char) (s : str) : list str :=
  match s with
  | [] => [[]]
  | c :: s' =>
      if decide (c = sep) then [] :: split sep s'
      else match split sep s' with
           | w :: ws => (c :: w) :: ws
           | [] => [[c]]
           end
  end.

(** [sep.join(words)] *)
Fixpoint join (sep : str) (words : list str) : str :=
  match words with
  | [] => []
  | [w] => w
  | w :: ws => w ++ sep ++ join sep ws
  end.

(** [l[0]] *)
Definition item0 {A} (l : list A) : result A :=
  match l with
  | a :: _ => Ok a
  | [] => Raise IndexError
  end.

(** [letter.replace(old, '')] on a one-character string [letter]. *)
Definition replace_by_empty (old letter : char) : str :=
  if decide (letter = old) then [] else [letter].

(** [s.replace(old, '')] for a one-character [old]. *)
Definition remove_char (old : char) (s : str) : str :=
  filter (λ c, c ≠ old) s.

(** [s.lstrip(chars)] *)
Fixpoint lstrip (strip : char → bool) (s : str) : str :=
  match s with
  | c :: s' => if strip c then lstrip strip s' else s
  | [] => []
  end.

(** [s.find(c)]: the position of the first [c], if any. *)
Fixpoint find (c : char) (s : str) : option nat :=
  match s with
  | [] => None
  | d :: s' => if decide (d = c) then Some 0 else S <$> find c s'
  end.

(** [c in s] *)
Definition contains (c : char) (s : str) : bool := bool_decide (c ∈ s).

(** [s.encode()]: UTF-8; a surrogate code point cannot be encoded. *)
Definition encode_char (c : char) : result (list N) :=
  if (c <? 128)%N then Ok [c]
  else if (c <? 2048)%N then
    Ok [N.lor 192 (N.shiftr c 6); N.lor 128 (N.land c 63)]
  else if ((55296 <=? c) && (c <=? 57343))%N then Raise UnicodeEncodeError
  else if (c <? 65536)%N then
    Ok [N.lor 224 (N.shiftr c 12); N.lor 128 (N.land (N.shiftr c 6) 63);
        N.lor 128 (N.land c 63)]
  else
    Ok [N.lor 240 (N.shiftr c 18); N.lor 128 (N.land (N.shiftr c 12) 63);
        N.lor 128 (N.land (N.shiftr c 6) 63); N.lor 128 (N.land c 63)].

Definition encode (s : str) : result (list N) :=
  do bs <- traverse encode_char s; Ok (concat bs).

Definition hex_digit (d : N) : char :=
  if (d <? 10)%N then (48 + d)%N else (87 + d)%N.

(** [digest.hex()]: two lower-case hexadecimal digits per byte. *)
Definition hex (bs : list N) : str :=
  bs ≫= λ b, [hex_digit (N.shiftr b 4); hex_digit (N.land b 15)].

End PyStr.

(** ** The regular expression of the title repair:
       [(?P<missing_titles>[^/]+)$] under [re.search] *)

Module Regex.

Definition slash : char := chr "/".
Definition newline : char := 10%N.

(** [$] matches at the end of the text and just before a newline that ends
    the text. *)
Definition at_dollar (rest : str) : bool :=
  bool_decide (rest = [] ∨ rest = [newline]).

(** The pattern tried at the start of [s]: [[^/]+] is greedy, so the longest
    run is tried first and characters are given back one at a time until [$]
    matches behind the run. *)
Fixpoint match_here (s : str) : option str :=
  match s with
  | [] => None
  | c :: s' =>
      if decide (c = slash) then None
      else match match_here s' with
           | Some run => Some (c :: run)
           | None => if at_dollar s' then Some [c] else None
           end
  end.

(** [re.search]: the leftmost position where the pattern matches; the value
    is the text of the group. *)
Fixpoint search (s : str) : option str :=
  match s with
  | [] => None
  | _ :: s' =>
      match match_here s with
      | Some run => Some run
      | None => search s'
      end
  end.

End Regex.

(** ** [urllib.parse.urlparse(url).netloc] (CPython's [urllib/parse.py])

    Only the network location is computed: the parts of [urlsplit] that
    split off the fragment, the query and the parameters work on the text
    behind the network location and cannot raise.  The checks of a bracketed
    host ([_check_bracketed_netloc], which asks [ipaddress]) and of a
    non-ASCII network location ([_checknetloc], which asks [unicodedata])
    are a parameter [netloc_ok]: they only accept or raise [ValueError]. *)

Module Urllib.

Import PyStr.

Definition is_c0_control_or_space (c : char) : bool := (c <=? 32)%N.

Definition unsafe_url_bytes_to_remove : list char := [9; 13; 10]%N.

Definition is_ascii_alpha (c : char) : bool :=
  ((65 <=? c) && (c <=? 90) || (97 <=? c) && (c <=? 122))%N.

Definition is_scheme_char (c : char) : bool :=
  is_ascii_alpha c || ((48 <=? c) && (c <=? 57))%N
  || bool_decide (c ∈ [chr "+"; chr "-"; chr "."]).

(** The text behind the scheme, when [url] starts with one. *)
Definition strip_scheme (url : str) : str :=
  match find (chr ":") url, url with
  | Some (S i), c0 :: _ =>
      if is_ascii_alpha c0 && forallb is_scheme_char (take (S i) url)
      then drop (S (S i)) url
      else url
  | _, _ => url
  end.

(** [url.find(c, start)] *)
Definition find_from (c : char) (start : nat) (url : str) : option nat :=
  (λ i, start + i) <$> find c (drop start url).

(** [_splitnetloc(url, start)[0]]: from [start] to the earliest of the
    delimiters [/ ? #], or to the end. *)
Definition splitnetloc (url : str) (start : nat) : str :=
  let delim :=
    foldl (λ delim c,
             match find_from c start url with
             | Some wdelim => delim `min` wdelim
             | None => delim
             end)
          (length url) [chr "/"; chr "?"; chr "#"] in
  drop start (take delim url).

Definition netloc (netloc_ok : str → bool) (url : str) : result str :=
  let url := lstrip is_c0_control_or_space url in
  let url := foldl (λ u b, remove_char b u) url unsafe_url_bytes_to_remove in
  let url := strip_scheme url in
  if decide (take 2 url = [chr "/"; chr "/"]) then
    let nl := splitnetloc url 2 in
    if contains (chr "[") nl && negb (contains (chr "]") nl)
       || contains (chr "]") nl && negb (contains (chr "[") nl)
    then Raise ValueError
    else if netloc_ok nl then Ok nl else Raise ValueError
  else Ok [].

(** [urlparse(uri).netloc] on a cell.  What is no [str] goes through
    [_coerce_args], which takes the empty text for an argument that is
    false and calls [decode] on any other: the number 0 is parsed as the
    empty text, a missing value (a float that is true) and the other
    numbers have no [decode].  The network location of the number 0 comes
    back encoded, as the empty bytes; the cells of the embedding have no
    bytes, and the empty text stands for them. *)
Definition urlparse_netloc (netloc_ok : str → bool) (uri : value) : result str :=
  match uri with
  | Str s => netloc netloc_ok s
  | Num 0 => netloc netloc_ok []
  | Num (S _) => Raise AttributeError
  | NaN => Raise AttributeError
  end.

End Urllib.

(** ** pandas: frames, series and the operations the program uses *)

Module Pandas.

(** A row of a frame: its index label and its cells by column name. *)
Record entry := Entry { label : value; cells : gmap string value }.

Abbreviation DataFrame := (list entry) (only parsing).

(** A series: index labels with one element each. *)
Abbreviation Series A := (list (value * A)) (only parsing).

Definition index_of {A} (s : Series A) : list value := fst <$> s.
Definition index (df : DataFrame) : list value := label <$> df.

(** [row[c]] *)
Definition get (c : string) (e : entry) : result value :=
  match cells e !! c with
  | Some v => Ok v
  | None => Raise KeyError
  end.

Definition set (c : string) (v : value) (e : entry) : entry :=
  Entry (label e) (<[c := v]> (cells e)).

(** [df[c]] *)
Definition column (c : string) (df : DataFrame) : result (Series value) :=
  traverse (λ e, do v <- get c e; Ok (label e, v)) df.

Definition isna (v : value) : bool :=
  match v with NaN => true | _ => false end.

(** A row with a missing value in some column. *)
Definition has_na (e : entry) : bool :=
  bool_decide (map_Exists (λ _ v, v = NaN) (cells e)).

(** [df.dropna()]: only the rows without a missing value in any column. *)
Definition dropna (df : DataFrame) : DataFrame :=
  filter (λ e, has_na e = false) df.

(** [df.apply(f, axis=1)]: [f] on every row, giving a series on the index of
    the frame.  On a frame without rows pandas calls [f] once, on a row of
    missing values, to see what to give back: a series without elements
    when [f] returns there, which is what this function gives, and the frame
    itself when [f] raises there.  The stages whose function raises on a
    missing value (the uid stage, the tokenizer) say themselves what becomes
    of a frame without rows. *)
Definition apply_rows {A} (f : entry → result A) (df : DataFrame)
  : result (Series A) :=
  traverse (λ e, do a <- f e; Ok (label e, a)) df.

(** [series.apply(f)] *)
Definition apply {A B} (f : A → result B) (s : Series A) : result (Series B) :=
  traverse (λ p, do b <- f p.2; Ok (p.1, b)) s.

(** [frame.applymap(f)] on a frame of one column, kept as a series. *)
Definition applymap {A B} (f : A → result B) (s : Series A)
  : result (Series B) := apply f s.

(** [series.reindex(labels)]: the element under each label, [NaN] where the
    series has none; refused when the series has a label twice. *)
Definition lookup_label (s : Series value) (l : value) : value :=
  match list_find (λ p, p.1 = l) s with
  | Some (_, p) => p.2
  | None => NaN
  end.

Definition reindex (s : Series value) (labels : list value)
  : result (list value) :=
  if decide (NoDup (index_of s)) then Ok (lookup_label s <$> labels)
  else Raise ValueError.

(** [df[c] = scalar] *)
Definition set_column_scalar (c : string) (v : value) (df : DataFrame)
  : DataFrame := set c v <$> df.

(** [df[c] = series]: taken as it stands when the series has the index of
    the frame (or the frame has no rows), re-indexed on the frame otherwise. *)
Definition set_column (c : string) (s : Series value) (df : DataFrame)
  : result DataFrame :=
  do vs <- (if decide (index_of s = index df ∨ df = []) then Ok (snd <$> s)
            else reindex s (index df));
  Ok (zip_with (set c) vs df).

(** [df.loc[mask, c] = series], the series being on the labels of the rows
    selected by [mask]: its elements go to the selected rows in order. *)
Fixpoint set_where (c : string) (mask : list bool) (vs : list value)
    (df : DataFrame) : DataFrame :=
  match mask, df with
  | true :: mask', e :: df' =>
      match vs with
      | v :: vs' => set c v e :: set_where c mask' vs' df'
      | [] => e :: set_where c mask' [] df'
      end
  | false :: mask', e :: df' => e :: set_where c mask' vs df'
  | _, _ => df
  end.

(** [df[mask]] *)
Fixpoint select (mask : list bool) (df : DataFrame) : DataFrame :=
  match mask, df with
  | b :: mask', e :: df' =>
      if b then e :: select mask' df' else select mask' df'
  | _, _ => []
  end.

(** [df.set_index(c)]: column [c] becomes the index and leaves the columns. *)
Definition set_index (c : string) (df : DataFrame) : result DataFrame :=
  traverse (λ e, do v <- get c e; Ok (Entry v (delete c (cells e)))) df.

(** A cell that is a text. *)
Definition is_str (v : value) : bool :=
  match v with Str _ => true | _ => false end.

Definition is_num (v : value) : bool :=
  match v with Num _ => true | _ => false end.

(** [series.str], the series being the cells [selected] of a column with
    the cells [column]: the accessor is for columns of objects that hold
    texts.  It refuses a numeric column, with or without selected cells,
    and selected cells that are numbers with no text among them. *)
Definition str_accessor (column selected : list value) : result unit :=
  if bool_decide (column ≠ []) && negb (existsb is_str column)
     || existsb is_num selected && negb (existsb is_str selected)
  then Raise AttributeError
  else Ok ().

(** [series.str.extract(pattern)] with the pattern of [Regex]: no match, or
    an element that is not a text, gives [NaN]. *)
Definition str_extract (v : value) : value :=
  match v with
  | Str s => match Regex.search s with Some g => Str g | None => NaN end
  | _ => NaN
  end.

End Pandas.

(** ** The program *)

Module Receipe.

Import PyStr Pandas.

Section Program.

(** What the program takes from its libraries: [nltk.word_tokenize],
    [str.isalpha], [str.lower], the Spanish stop words of [nltk.corpus], the
    MD5 function of [hashlib] (bytes to the 16 bytes of the digest) and the
    host checks of [urllib] (see [Urllib]). *)
Variable word_tokenize : str → list str.
Variable isalpha : str → bool.
Variable lower : str → str.
Variable stop_words : gset str.
Variable md5 : list N → list N.
Variable netloc_ok : str → bool.

Definition _extract_newspaper_uid (filename : str) : result str :=
  item0 (split (chr "_") filename).

Definition _add_newspaper_uid_column (df : DataFrame) (newspaper_uid : str)
  : DataFrame :=
  set_column_scalar "newspaper_uid" (Str newspaper_uid) df.

Definition _extract_host (df : DataFrame) : result DataFrame :=
  do uris <- column "uri" df;
  do hosts <- apply (λ uri, do host <- Urllib.urlparse_netloc netloc_ok uri;
                            Ok (Str host)) uris;
  set_column "host" hosts df.

(** [title.split('-')] on a cell of the extracted frame: a missing value is
    a float and has no [split]. *)
Definition split_title (title : value) : result (list str) :=
  match title with
  | Str s => Ok (split (chr "-") s)
  | _ => Raise AttributeError
  end.

Definition _fill_nan_data (df : DataFrame) : result DataFrame :=
  do titles <- column "title" df;
  let missing_titles_mask := (λ p, isna p.2) <$> titles in
  do all_uris <- column "uri" df;
  do uris <- column "uri" (select missing_titles_mask df);
  do _ <- str_accessor (snd <$> all_uris) (snd <$> uris);
  let extracted := (λ p, (p.1, str_extract p.2)) <$> uris in
  do word_lists <- applymap split_title extracted;
  do missing_titles <-
    applymap (λ title_word_list, Ok (Str (join (py " ") title_word_list)))
             word_lists;
  Ok (set_where "title" missing_titles_mask (snd <$> missing_titles) df).

(** [row['uri'].encode()] *)
Definition encode_cell (uri : value) : result (list N) :=
  match uri with
  | Str s => encode s
  | _ => Raise AttributeError
  end.

(** On a frame without rows the two [apply] calls hand the frame back (a
    missing value has no [encode], a series no [hexdigest]), and a frame of
    several columns is refused as the column [uid]. *)
Definition _generate_uids_for_rows (df : DataFrame) : result DataFrame :=
  if decide (df = []) then Raise ValueError else
  do hashes <- apply_rows (λ row, do uri <- get "uri" row;
                                   do bytes <- encode_cell uri;
                                   Ok (md5 bytes)) df;
  do uids <- apply (λ hash_object, Ok (Str (hex hash_object))) hashes;
  do df <- set_column "uid" uids df;
  set_index "uid" df.

(** [list(body)]: the letters of a text; a missing value is not iterable. *)
Definition letters_of (body : value) : result (list char) :=
  match body with
  | Str s => Ok s
  | _ => Raise TypeError
  end.

Definition _remove_new_lines_from_body (df : DataFrame) : result DataFrame :=
  do bodies <- apply_rows (λ row, get "body" row) df;
  do letters <- apply letters_of bodies;
  do letters <- apply (λ letters,
                         Ok (replace_by_empty Regex.newline <$> letters))
                      letters;
  do stripped_body <- apply (λ letters, Ok (Str (join [] letters))) letters;
  set_column "body" stripped_body df.

(** [nltk.word_tokenize(row[column_name])]: only a text can be segmented. *)
Definition tokenize_cell (text : value) : result (list str) :=
  match text with
  | Str s => Ok (word_tokenize s)
  | _ => Raise TypeError
  end.

(** When [dropna] leaves no row, the first [apply] hands its frame back (a
    missing value cannot be segmented), the second finds the empty list for
    a series without elements and cannot make a series over the columns of
    the frame from it. *)
Definition _tokenize_column (df : DataFrame) (column_name : string)
  : result DataFrame :=
  if decide (dropna df = []) then Raise ValueError else
  do tokens <- apply_rows (λ row, do text <- get column_name row;
                                   tokenize_cell text) (dropna df);
  do tokens <- apply (λ tokens, Ok (filter (λ token, isalpha token) tokens))
                     tokens;
  do tokens <- apply (λ tokens, Ok (lower <$> tokens)) tokens;
  do words <- apply (λ word_list,
                       Ok (filter (λ word, word ∉ stop_words) word_list))
                    tokens;
  do tokenize <- apply (λ valid_words, Ok (Num (length valid_words))) words;
  set_column ("n_tokens_" +:+ column_name) tokenize df.

(** [main(filename)], the table read from the file ([_read_data]) being [df]. *)
Definition main (filename : str) (df : DataFrame) : result DataFrame :=
  do newspaper_uid <- _extract_newspaper_uid filename;
  let df := _add_newspaper_uid_column df newspaper_uid in
  do df <- _extract_host df;
  do df <- _fill_nan_data df;
  do df <- _generate_uids_for_rows df;
  do df <- _remove_new_lines_from_body df;
  do df <- _tokenize_column df "title";
  do df <- _tokenize_column df "body";
  Ok df.

End Program.

End Receipe.

(** ** A small instance for examples: a tokenizer that splits at spaces,
       ASCII letters, and a digest that is not MD5 *)

Module Sample.

Import PyStr Pandas.

Definition word_tokenize (s : str) : list str :=
  filter (λ w, w ≠ []) (split (chr " ") s).

Definition isalpha (s : str) : bool :=
  bool_decide (s ≠ []) && forallb Urllib.is_ascii_alpha s.

Definition lower (s : str) : str :=
  (λ c, if ((65 <=? c) && (c <=? 90))%N then (c + 32)%N else c) <$> s.

Definition stop_words : gset str := {[ py "de"; py "la"; py "el" ]}.

Definition digest (bs : list N) : list N := [N.of_nat (length bs)].

Definition netloc_ok (_ : str) : bool := true.

Definition row (l : nat) (cs : list (string * value)) : entry :=
  Entry (Num l) (list_to_map cs).

Definition _tokenize_column :=
  Receipe._tokenize_column word_tokenize isalpha lower stop_words.

Definition main :=
  Receipe.main word_tokenize isalpha lower stop_words digest netloc_ok.

End Sample.

(** ** The vocabulary of the properties *)

Import PyStr Pandas Receipe.

(** The series that holds [F row] under the label of every row. *)
Definition series_of {A} (F : entry → result A) (df : DataFrame)
  : result (Series A) :=
  traverse (λ e, do a <- F e; Ok (label e, a)) df.

(** Every separator replaced by [d]. *)
Definition replace_char (c d : char) (s : str) : str :=
  (λ x, if decide (x = c) then d else x) <$> s.

(** [e'] has the cells of [e] in every column outside [cs]. *)
Definition writes (cs : list string) (e e' : entry) : Prop :=
  ∀ c, c ∉ cs → cells e' !! c = cells e !! c.

(** The columns the stages behind the stamping of [newspaper_uid] write. *)
Definition later_columns : list string :=
  ["host"; "title"; "uid"; "body"; "n_tokens_title"; "n_tokens_body"].

(** Everything in a uri after its last slash; the uri when it has none. *)
Fixpoint final_segment (u : str) : str :=
  match u with
  | [] => []
  | _ :: u' => if decide (Regex.slash ∈ u) then final_segment u' else u
  end.

(** The title made from the uri of a row: its final segment with a space
    for every hyphen. *)
Definition title_of_uri (u : str) : str :=
  replace_char (chr "-") (chr " ") (final_segment u).

(** The chain of the repair on one selected row. *)
Definition repair_row (e : entry) : result value :=
  do a <- (do a <- (do a <- get "uri" e; Ok (str_extract a)); split_title a);
  Ok (Str (join (py " ") a)).

(** The repair of one row: a row with a title is handed on, a row without
    one gets the title made from its uri. *)
Definition fill_row (e : entry) : result entry :=
  do t <- get "title" e;
  if isna t then do v <- repair_row e; Ok (set "title" v e) else Ok e.

(** The column [c] of a frame is there and is a column of objects: every row
    has a cell in it, and some cell is a text unless the frame has no
    rows. *)
Definition text_column (c : string) (df : DataFrame) : Prop :=
  Forall (λ e, is_Some (cells e !! c)) df
  ∧ (df = [] ∨ Exists (λ e, ∃ s, cells e !! c = Some (Str s)) df).

(** The column [c] of the table a stage returns, or its exception. *)
Definition column_cells (c : string) (r : result DataFrame)
  : result (list (option value)) :=
  match r with
  | Ok df => Ok ((λ e, cells e !! c) <$> df)
  | Raise ex => Raise ex
  end.

Section Vocabulary.

Context (word_tokenize : str → list str) (isalpha : str → bool)
        (lower : str → str) (stop_words : gset str)
        (md5 : list N → list N).

(** The hexadecimal MD5 digest of the UTF-8 encoding of a uri. *)
Definition uid_of_uri (uri : str) : result str :=
  do bytes <- encode uri; Ok (hex (md5 bytes)).

(** The number of tokens of a text that are alphabetic and, in lower case,
    no stop word. *)
Definition n_tokens (text : str) : nat :=
  length (filter (λ word, word ∉ stop_words)
                 (lower <$> filter (λ token, isalpha token)
                                   (word_tokenize text))).

(** The chain of the tokenizer on one row. *)
Definition count_row (column_name : string) (e : entry) : result value :=
  do a <- (do a <- (do a <- (do a <- (do text <- get column_name e;
                                      tokenize_cell word_tokenize text);
                             Ok (filter (λ token, isalpha token) a));
                    Ok (lower <$> a));
           Ok (filter (λ word, word ∉ stop_words) a));
  Ok (Num (length a)).

End Vocabulary.

(** ** Tables for the examples *)

(** Two articles as they are read from a file: the first without a title and
    with a line break in its body. *)
Definition articles : DataFrame :=
  [ Sample.row 0 [("uri", Str (py "http://example.com/news/big-story-today"));
                  ("title", NaN);
                  ("body", Str (py "Hello" ++ [Regex.newline] ++ py "World"))];
    Sample.row 1 [("uri", Str (py "http://example.com/news/la-casa"));
                  ("title", Str (py "La casa de papel"));
                  ("body", Str (py "El final de la serie"))] ].

(** Two articles with a date column; the first has a title and a body but
    no date. *)
Definition articles_dated : DataFrame :=
  [ Sample.row 0 [("uri", Str (py "http://example.com/news/hola-mundo"));
                  ("title", Str (py "Hola mundo"));
                  ("body", Str (py "El mundo de hoy"));
                  ("date", NaN)];
    Sample.row 1 [("uri", Str (py "http://example.com/news/la-casa"));
                  ("title", Str (py "La casa de papel"));
                  ("body", Str (py "El final de la serie"));
                  ("date", Str (py "2021-03-01"))] ].

(** Two articles with nothing missing. *)
Definition articles_titled : DataFrame :=
  [ Sample.row 0 [("uri", Str (py "http://example.com/news/hola-mundo"));
                  ("title", Str (py "Hola mundo"));
                  ("body", Str (py "El mundo de hoy"))];
    Sample.row 1 [("uri", Str (py "http://example.com/news/la-casa"));
                  ("title", Str (py "La casa de papel"));
                  ("body", Str (py "El final de la serie"))] ].



(** Two rows under one index label, the first without a date. *)
Definition articles_same_label : DataFrame :=
  [ Sample.row 7 [("title", Str (py "Hola mundo")); ("date", NaN)];
    Sample.row 7 [("title", Str (py "La casa de papel vuelve"));
                  ("date", Str (py "2021-03-01"))] ].

(** A table whose first uri opens a bracket in its host and never closes
    it. *)
Definition articles_bad_uri : DataFrame :=
  [ Sample.row 0 [("uri", Str (py "http://[example.com/news/hola-mundo"));
                  ("title", Str (py "Hola mundo"));
                  ("body", Str (py "El mundo de hoy"))];
    Sample.row 1 [("uri", Str (py "http://example.com/news/la-casa"));
                  ("title", Str (py "La casa de papel"));
                  ("body", Str (py "El final de la serie"))] ].

(** A row that was read with a missing value in a column outside [cs]. *)
Definition missing_outside (cs : list string) (e : entry) : Prop :=
  ∃ c, (c ∉ cs) ∧ cells e !! c = Some NaN.

(** The columns that the stages in front of the tokenizer write: a missing
    value that was read in one of them is gone when the tokenizer runs. *)
Definition prepared_columns : list string :=
  ["title"; "body"; "host"; "newspaper_uid"; "uid"].

(** An article that was read twice, the second time under another title,
    with another body and without its date. *)
Definition articles_copy_undated : DataFrame :=
  [ Sample.row 0 [("uri", Str (py "http://example.com/news/la-casa"));
                  ("title", Str (py "La casa de papel"));
                  ("body", Str (py "El final de la serie"));
                  ("date", Str (py "2021-03-01"))];
    Sample.row 1 [("uri", Str (py "http://example.com/news/la-casa"));
                  ("title", Str (py "Casa"));
                  ("body", Str (py "Otra vez el final de la serie nueva"));
                  ("date", NaN)] ].

(** Two articles without a title: the uri of the first ends in [a-b-c], the
    uri of the second in a slash. *)
Definition articles_one_without_segment : DataFrame :=
  [ Sample.row 0 [("uri", Str (py "http://example.com/news/a-b-c"));
                  ("title", NaN); ("body", Str (py "El final de la serie"))];
    Sample.row 1 [("uri", Str (py "http://example.com/news/"));
                  ("title", NaN); ("body", Str (py "El mundo de hoy"))] ].

(** The characters at which Python's [str.splitlines] ends a line: the
    line breaks of a text. *)
Definition line_breaks : list char :=
  [10; 11; 12; 13; 28; 29; 30; 133; 8232; 8233]%N.

(** An article whose body has two lines, the first ended by a carriage
    return and a newline. *)
Definition articles_crlf : DataFrame :=
  [ Sample.row 0 [("uri", Str (py "http://example.com/news/dos-lineas"));
                  ("title", Str (py "Dos lineas"));
                  ("body", Str (py "Primera linea" ++ [13; 10]%N
                                ++ py "Segunda linea"))] ].

(** A table whose first row has no title and a uri that ends in a slash. *)
Definition table_without_segment : DataFrame :=
  [ Sample.row 0 [("uri", Str (py "http://example.com/news/"));
                  ("title", NaN); ("body", Str (py "first"))];
    Sample.row 1 [("uri", Str (py "http://example.com/news/a-b-c"));
                  ("title", NaN); ("body", Str (py "second"))] ].

(** ** Vocabulary and tables of the further properties *)

(** A lower-case hexadecimal digit. *)
Definition is_hex_digit (c : char) : bool :=
  ((48 <=? c) && (c <=? 57) || (97 <=? c) && (c <=? 102))%N.

(** The uri cells of a table, row by row. *)
Definition uri_cells (df : DataFrame) : list (option value) :=
  (λ e, cells e !! "uri") <$> df.

(** The title of a row behind the title repair: the title it had, or the
    one made from its uri [u]. *)
Definition repaired_title (t : value) (u : str) : value :=
  if isna t then Str (title_of_uri u) else t.

(** The row that the stages in front of the tokenizer make of a row [e]
    whose uri is [u] and whose body is [b]: [nu] is the uid of the
    newspaper, [h] the host, [uid] the uid and [t] the title of [e]. *)
Definition prepared_row (nu u h uid b : str) (t : value) (e : entry) : entry :=
  Entry (Str uid)
        (<["body" := Str (remove_char Regex.newline b)]>
           (delete "uid"
              (<["title" := repaired_title t u]>
                 (<["host" := Str h]>
                    (<["newspaper_uid" := Str nu]> (cells e)))))).

(** A digest of 16 bytes that is not MD5. *)
Definition digest16 (bs : list N) : list N :=
  replicate 16 (N.of_nat (length bs) `mod` 256)%N.

(** Two articles, the second without a body. *)
Definition articles_missing_body : DataFrame :=
  [ Sample.row 0 [("uri", Str (py "http://example.com/news/hola-mundo"));
                  ("title", Str (py "Hola mundo"));
                  ("body", Str (py "El mundo de hoy"))];
    Sample.row 1 [("uri", Str (py "http://example.com/news/la-casa"));
                  ("title", Str (py "La casa de papel"));
                  ("body", NaN)] ].

(** Two articles, the second without a uri. *)
Definition articles_missing_uri : DataFrame :=
  [ Sample.row 0 [("uri", Str (py "http://example.com/news/hola-mundo"));
                  ("title", Str (py "Hola mundo"));
                  ("body", Str (py "El mundo de hoy"))];
    Sample.row 1 [("uri", NaN);
                  ("title", Str (py "La casa de papel"));
                  ("body", Str (py "El final de la serie"))] ].

(** The same article read twice. *)
Definition articles_repeated : DataFrame :=
  [ Sample.row 0 [("uri", Str (py "http://example.com/news/hola-mundo"));
                  ("title", Str (py "Hola mundo"));
                  ("body", Str (py "El mundo de hoy"))];
    Sample.row 1 [("uri", Str (py "http://example.com/news/hola-mundo"));
                  ("title", Str (py "Hola mundo"));
                  ("body", Str (py "El mundo de hoy"))] ].

(** The parts of a uri [scheme://host] with a [tail] behind it: the scheme
    starts with a letter and has letters, digits, [+], [-] and [.] only; the
    host has no delimiter, no bracket and none of the characters that
    [urlsplit] removes; the tail is empty or starts with a delimiter. *)
Definition wellformed_uri (scheme host tail : str) : bool :=
  match scheme with
  | c0 :: _ => Urllib.is_ascii_alpha c0
  | [] => false
  end
  && forallb Urllib.is_scheme_char scheme
  && forallb (λ c, bool_decide (c ∉ [9; 13; 10; chr "/"; chr "?"; chr "#";
                                     chr "["; chr "]"]%N)) host
  && match tail with
     | [] => true
     | d :: _ => bool_decide (d ∈ [chr "/"; chr "?"; chr "#"])
     end.

(** An article with a date, as the row with label [l], and a table that
    has it twice beside an article without a date. *)
Definition article_with_date (l : nat) : entry :=
  Sample.row l [("uri", Str (py "http://example.com/news/la-casa"));
                ("title", Str (py "La casa de papel"));
                ("body", Str (py "El final de la serie"));
                ("date", Str (py "2021-03-01"))].

Definition articles_read_twice : DataFrame :=
  [ article_with_date 0;
    article_with_date 1;
    Sample.row 2 [("uri", Str (py "http://example.com/news/hola-mundo"));
                  ("title", Str (py "Hola mundo"));
                  ("body", Str (py "El mundo de hoy"));
                  ("date", NaN)] ].

(** Three articles: two complete ones under one index label, and a third
    without a date. *)
Definition articles_shared_label : DataFrame :=
  [ Sample.row 7 [("title", Str (py "Hola mundo"));
                  ("date", Str (py "2021-03-01"))];
    Sample.row 7 [("title", Str (py "La casa de papel vuelve"));
                  ("date", Str (py "2021-03-02"))];
    Sample.row 8 [("title", Str (py "El final")); ("date", NaN)] ].

(** * Properties *)

(** ** Results and traversals *)

Section Traverse.

Context {A B : Type}.
Implicit Types (f : A → result B).

Lemma bind_Ok {C D} (m : result C) (k : C → result D) d :
  bind m k = Ok d ↔ ∃ c, m = Ok c ∧ k c = Ok d.
Proof.
  destruct m as [c|e]; simpl; split.
  - eauto.
  - by intros (? & [= <-] & ?).
  - done.
  - by intros (? & ? & _).
Qed.

Lemma traverse_Ok f (l : list A) (l' : list B) :
  traverse f l = Ok l' ↔ Forall2 (λ a b, f a = Ok b) l l'.
Proof.
  revert l'. induction l as [|a l IH]; intros l'; simpl.
  - split; [intros [= <-]; constructor | by inversion 1].
  - split.
    + intros (b & Hb & (bs & Hbs & [= <-])%bind_Ok)%bind_Ok.
      constructor; [done | by apply IH].
    + inversion 1 as [|? b ? bs Hb Hbs]; subst.
      rewrite Hb; simpl. apply IH in Hbs. by rewrite Hbs.
Qed.

Lemma traverse_pure (g : A → B) l : traverse (λ a, Ok (g a)) l = Ok (g <$> l).
Proof. induction l as [|a l IH]; simpl; [done | by rewrite IH]. Qed.

Lemma traverse_ext f g l :
  (∀ a, a ∈ l → f a = g a) → traverse f l = traverse g l.
Proof.
  induction l as [|a l IH]; intros Hfg; simpl; [done|].
  rewrite Hfg by left. rewrite IH; [done|]. intros; apply Hfg. by right.
Qed.

Lemma traverse_total f l :
  Forall (λ a, ∃ b, f a = Ok b) l → ∃ l', traverse f l = Ok l'.
Proof.
  induction 1 as [|a l [b Hb] _ [l' Hl']]; simpl; [by eexists|].
  rewrite Hb, Hl'. simpl. by eexists.
Qed.

End Traverse.

Lemma traverse_traverse {A B C} (f : A → result B) (g : B → result C) l :
  (do bs <- traverse f l; traverse g bs)
  = match traverse f l with
    | Ok _ => traverse (λ a, do b <- f a; g b) l
    | Raise e => Raise e
    end.
Proof.
  induction l as [|a l IH]; simpl; [done|].
  destruct (f a) as [b|e]; simpl; [|done].
  destruct (traverse f l) as [bs|e]; simpl in *; [|done].
  rewrite <- IH. done.
Qed.

(** ** Series built row by row *)

Section SeriesFacts.

Lemma column_series_of c df : column c df = series_of (get c) df.
Proof. done. Qed.

Lemma apply_rows_series_of {A} (F : entry → result A) df :
  apply_rows F df = series_of F df.
Proof. done. Qed.

Lemma series_of_Ok {A} (F : entry → result A) df s :
  series_of F df = Ok s
  ↔ Forall2 (λ e p, p.1 = label e ∧ F e = Ok p.2) df s.
Proof.
  unfold series_of. split.
  - intros H%traverse_Ok. eapply Forall2_impl; [exact H|].
    intros e [l a]; simpl. intros (a' & Ha & [= <- <-])%bind_Ok. done.
  - intros H. apply traverse_Ok. eapply Forall2_impl; [exact H|].
    intros e [l a]; simpl. intros [-> ->]. done.
Qed.

Lemma series_of_index {A} (F : entry → result A) df s :
  series_of F df = Ok s → index_of s = index df.
Proof.
  rewrite series_of_Ok. unfold index_of, index.
  induction 1 as [|e p df s [Hl _] _ IH]; simpl; [done|]. by f_equal.
Qed.

(** A step [series.apply(g)] behind a row-wise series is the row-wise series
    of the composed function, as far as a result without exception goes. *)
Lemma series_of_apply {A B C} (F : entry → result A) (g : A → result B)
    (K : Series B → result C) df r :
  (do s <- series_of F df; do s' <- apply g s; K s') = Ok r
  ↔ (do s' <- series_of (λ e, do a <- F e; g a) df; K s') = Ok r.
Proof.
  assert (∀ s',
    (do s <- series_of F df; apply g s) = Ok s'
    ↔ series_of (λ e, do a <- F e; g a) df = Ok s') as Hfuse.
  { intros s'. unfold series_of, apply.
    rewrite traverse_traverse.
    assert (traverse (λ e, do p <- (do a <- F e; Ok (label e, a));
                           do b <- g p.2; Ok (p.1, b)) df
            = traverse (λ e, do a <- (do a <- F e; g a); Ok (label e, a)) df)
      as Heq.
    { apply traverse_ext. intros e _. by destruct (F e). }
    rewrite Heq. clear Heq.
    destruct (traverse (λ e, do a <- F e; Ok (label e, a)) df) as [s|e] eqn:Hs;
      [done|].
    split; [done|]. intros Hs'. exfalso.
    apply traverse_Ok in Hs'.
    assert (∃ s, traverse (λ e, do a <- F e; Ok (label e, a)) df = Ok s)
      as [s Hs2]; [|congruence].
    apply traverse_total. clear Hs.
    induction Hs' as [|e0 p df0 s0 Hp _ IH]; constructor; [|done].
    apply bind_Ok in Hp as (b & (a & -> & _)%bind_Ok & _). simpl. by eexists. }
  rewrite !bind_Ok. split.
  - intros (s & Hs & (s' & Hs' & HK)%bind_Ok). exists s'. split; [|done].
    apply Hfuse. rewrite Hs. done.
  - intros (s' & Hs' & HK). apply Hfuse in Hs'.
    apply bind_Ok in Hs' as (s & Hs & Hs'). exists s. split; [done|].
    rewrite Hs'. done.
Qed.

Lemma set_column_aligned c (s : Series value) df :
  index_of s = index df →
  set_column c s df = Ok (zip_with (set c) s.*2 df).
Proof. intros Hi. unfold set_column. rewrite decide_True by auto. done. Qed.

(** Whatever the series, an assignment to a column keeps the rows and
    writes that column only. *)
Lemma set_column_Ok c (s : Series value) df df' :
  set_column c s df = Ok df' →
  Forall2 (λ e e', ∃ v, e' = set c v e) df df'.
Proof.
  unfold set_column. intros (vs & Hvs & [= <-])%bind_Ok.
  assert (df = [] ∨ length vs = length df) as [->|Hlen].
  { case_decide as Hd.
    - injection Hvs as <-. destruct Hd as [Hd|Hd]; [right|by left].
      apply (f_equal length) in Hd. unfold index_of, index in Hd.
      rewrite !length_fmap in *. done.
    - right. unfold reindex in Hvs. case_decide; [|done].
      injection Hvs as <-. unfold index. by rewrite !length_fmap. }
  - destruct vs; constructor.
  - clear Hvs. revert vs Hlen.
    induction df as [|e df IH]; intros [|v vs] [=]; simpl; constructor; eauto.
Qed.

(** A column assigned from a row-wise series. *)
Lemma set_column_series_of (F : entry → result value) c df df' :
  (do s <- series_of F df; set_column c s df) = Ok df'
  ↔ Forall2 (λ e e', ∃ v, F e = Ok v ∧ e' = set c v e) df df'.
Proof.
  rewrite bind_Ok. split.
  - intros (s & Hs & Hset).
    rewrite set_column_aligned in Hset by by eapply series_of_index.
    injection Hset as <-. apply series_of_Ok in Hs.
    induction Hs as [|e [l v] df s [_ Hv] _ IH]; simpl; constructor; eauto.
  - intros HF.
    assert (∃ s, Forall2 (λ e p, p.1 = label e ∧ F e = Ok p.2) df s
                 ∧ zip_with (set c) s.*2 df = df') as (s & Hs & Hzip).
    { induction HF as [|e e' df df' (v & Hv & ->) _ (s & Hs & Hzip)].
      - exists []. split; [constructor | done].
      - exists ((label e, v) :: s). split; [by constructor|].
        simpl. f_equal. exact Hzip. }
    apply series_of_Ok in Hs. exists s. split; [done|].
    rewrite set_column_aligned by by eapply series_of_index.
    by rewrite Hzip.
Qed.

End SeriesFacts.

(** ** Splitting and joining texts *)

Section PyStrFacts.

Implicit Types (c d : char) (s : str).

Lemma split_nonempty c s : split c s ≠ [].
Proof.
  destruct s as [|x s]; simpl; [done|].
  case_decide; [done|]. by destruct (split c s).
Qed.



Lemma join_cons_nonempty (sep w : str) (ws : list str) :
  ws ≠ [] → join sep (w :: ws) = w ++ sep ++ join sep ws.
Proof. by destruct ws. Qed.

Lemma join_split c d s : join [d] (split c s) = replace_char c d s.
Proof.
  induction s as [|x s IH]; simpl; [done|].
  case_decide as Hx.
  - rewrite join_cons_nonempty by apply split_nonempty.
    simpl. by rewrite IH.
  - pose proof (split_nonempty c s) as Hne.
    destruct (split c s) as [|w ws]; [done|].
    rewrite <- IH. by destruct ws.
Qed.

Lemma join_empty_sep (ws : list str) : join [] ws = concat ws.
Proof.
  induction ws as [|w ws IH]; simpl; [done|].
  destruct ws as [|w' ws]; [by rewrite app_nil_r|].
  by rewrite <- IH.
Qed.

Lemma concat_replace_by_empty c s :
  concat (replace_by_empty c <$> s) = remove_char c s.
Proof.
  unfold remove_char. induction s as [|x s IH]; [done|].
  rewrite fmap_cons, filter_cons. cbn [concat]. rewrite IH.
  unfold replace_by_empty. repeat case_decide; done.
Qed.

Lemma remove_char_gone c s : c ∉ remove_char c s.
Proof. unfold remove_char. rewrite list_elem_of_filter. tauto. Qed.

Lemma remove_char_length c s : length (remove_char c s) ≤ length s.
Proof. apply length_filter. Qed.

Lemma remove_char_sublist c s : remove_char c s `sublist_of` s.
Proof. apply sublist_filter. Qed.

(** The characters other than [c] are kept, each as often and in the order
    in which the text has them. *)
Lemma remove_char_others c s :
  filter (λ x, x ≠ c) (remove_char c s) = filter (λ x, x ≠ c) s.
Proof.
  unfold remove_char. induction s as [|x s IH]; [done|].
  rewrite !filter_cons. case_decide; [|done].
  rewrite filter_cons. rewrite decide_True by done. by rewrite IH.
Qed.

End PyStrFacts.

(** ** The stages *)

Ltac bind_inv H :=
  repeat match type of H with
         | bind _ _ = Ok _ =>
             let x := fresh "x" in
             let Hx := fresh "H" x in
             apply bind_Ok in H as (x & Hx & H)
         end.

Lemma get_Ok c e v : get c e = Ok v ↔ cells e !! c = Some v.
Proof. unfold get. destruct (cells e !! c); naive_solver. Qed.

(** *** BodyNormalizer *)

Lemma remove_new_lines_row (e : entry) v :
  (do a <- (do a <- (do a <- get "body" e; letters_of a);
            Ok (replace_by_empty Regex.newline <$> a));
   Ok (Str (join [] a))) = Ok v
  ↔ ∃ b, cells e !! "body" = Some (Str b)
         ∧ v = Str (remove_char Regex.newline b).
Proof.
  unfold get. destruct (cells e !! "body") as [[|b|n]|]; simpl;
    [naive_solver| |naive_solver..].
  rewrite join_empty_sep, concat_replace_by_empty. naive_solver.
Qed.

Lemma remove_new_lines_rows df df' :
  _remove_new_lines_from_body df = Ok df'
  ↔ Forall2 (λ e e', ∃ b, cells e !! "body" = Some (Str b)
                          ∧ e' = set "body" (Str (remove_char Regex.newline b)) e)
            df df'.
Proof.
  unfold _remove_new_lines_from_body.
  rewrite apply_rows_series_of.
  do 3 (etrans; [apply series_of_apply|]).
  etrans; [apply set_column_series_of|].
  split.
  - intros H. eapply Forall2_impl; [exact H|].
    intros e e' (v & (b & ? & ->)%remove_new_lines_row & ->). eauto.
  - intros H. eapply Forall2_impl; [exact H|].
    intros e e' (b & Hb & ->). eexists. split; [|done].
    apply remove_new_lines_row. eauto.
Qed.

(** *** What a stage leaves alone *)

Lemma writes_refl cs e : writes cs e e.
Proof. by intros c _. Qed.

Lemma writes_set c v e : writes [c] e (set c v e).
Proof.
  intros c' Hc'. simpl. apply lookup_insert_ne. set_solver.
Qed.

Lemma writes_weaken cs cs' e e' : cs ⊆ cs' → writes cs e e' → writes cs' e e'.
Proof. intros Hsub H c Hc. apply H. set_solver. Qed.

Lemma writes_trans cs1 cs2 e1 e2 e3 :
  writes cs1 e1 e2 → writes cs2 e2 e3 → writes (cs1 ++ cs2) e1 e3.
Proof.
  intros H1 H2 c Hc. rewrite H2, H1; set_solver.
Qed.

Lemma Forall2_writes_trans cs1 cs2 (df1 df2 df3 : DataFrame) :
  Forall2 (writes cs1) df1 df2 → Forall2 (writes cs2) df2 df3 →
  Forall2 (writes (cs1 ++ cs2)) df1 df3.
Proof.
  intros H1. revert df3.
  induction H1 as [|e1 e2 df1 df2 He _ IH]; intros df3; inversion 1; subst;
    constructor; eauto using writes_trans.
Qed.

Lemma set_column_writes c (s : Series value) df df' :
  set_column c s df = Ok df' → Forall2 (writes [c]) df df'.
Proof.
  intros H%set_column_Ok. eapply Forall2_impl; [exact H|].
  intros e e' [v ->]. apply writes_set.
Qed.

Lemma set_where_writes c mask vs df :
  Forall2 (writes [c]) df (set_where c mask vs df).
Proof.
  revert mask vs. induction df as [|e df IH]; intros mask vs.
  - destruct mask as [|[] ?]; constructor.
  - destruct mask as [|[] mask]; simpl.
    + apply Forall2_same_length_lookup_2; [done|]. intros i x y ??.
      simplify_eq. apply writes_refl.
    + destruct vs; constructor; auto using writes_set, writes_refl.
    + constructor; auto using writes_refl.
Qed.

Lemma set_index_writes c df df' :
  set_index c df = Ok df' → Forall2 (writes [c]) df df'.
Proof.
  unfold set_index. intros H%traverse_Ok. eapply Forall2_impl; [exact H|].
  intros e e' (v & _ & [= <-])%bind_Ok c' Hc'. simpl.
  apply lookup_delete_ne. set_solver.
Qed.

Section Stages.

Context (word_tokenize : str → list str) (isalpha : str → bool)
        (lower : str → str) (stop_words : gset str)
        (md5 : list N → list N) (netloc_ok : str → bool).

Abbreviation _extract_host := (Receipe._extract_host netloc_ok).
Abbreviation _generate_uids_for_rows := (Receipe._generate_uids_for_rows md5).
Abbreviation _tokenize_column :=
  (Receipe._tokenize_column word_tokenize isalpha lower stop_words).
Abbreviation main :=
  (Receipe.main word_tokenize isalpha lower stop_words md5 netloc_ok).

Lemma add_newspaper_uid_column_writes df uid :
  Forall2 (writes ["newspaper_uid"]) df (_add_newspaper_uid_column df uid).
Proof.
  unfold _add_newspaper_uid_column, set_column_scalar.
  induction df; constructor; auto using writes_set.
Qed.

Lemma extract_host_writes df df' :
  _extract_host df = Ok df' → Forall2 (writes ["host"]) df df'.
Proof.
  unfold Receipe._extract_host. intros H. bind_inv H.
  by eapply set_column_writes.
Qed.

Lemma fill_nan_data_writes df df' :
  _fill_nan_data df = Ok df' → Forall2 (writes ["title"]) df df'.
Proof.
  unfold _fill_nan_data. intros H. bind_inv H. injection H as <-.
  apply set_where_writes.
Qed.

Lemma generate_uids_writes df df' :
  _generate_uids_for_rows df = Ok df' → Forall2 (writes ["uid"]) df df'.
Proof.
  unfold Receipe._generate_uids_for_rows. intros H.
  case_decide; [done|]. bind_inv H.
  eapply (Forall2_impl (writes (["uid"] ++ ["uid"]))).
  - eapply Forall2_writes_trans;
      [by eapply set_column_writes | by eapply set_index_writes].
  - intros e e'. apply writes_weaken. set_solver.
Qed.

Lemma remove_new_lines_writes df df' :
  _remove_new_lines_from_body df = Ok df' → Forall2 (writes ["body"]) df df'.
Proof.
  unfold _remove_new_lines_from_body. intros H. bind_inv H.
  by eapply set_column_writes.
Qed.

Lemma tokenize_column_writes df column_name df' :
  _tokenize_column df column_name = Ok df' →
  Forall2 (writes ["n_tokens_" +:+ column_name]) df df'.
Proof.
  unfold Receipe._tokenize_column. intros H.
  case_decide; [done|]. bind_inv H.
  by eapply set_column_writes.
Qed.

Lemma main_stages filename df df' :
  main filename df = Ok df' →
  ∃ newspaper_uid,
    _extract_newspaper_uid filename = Ok newspaper_uid
    ∧ Forall2 (writes later_columns)
              (_add_newspaper_uid_column df newspaper_uid) df'.
Proof.
  unfold Receipe.main. intros H. bind_inv H. injection H as <-.
  exists x. split; [done|].
  apply extract_host_writes in Hx0. apply fill_nan_data_writes in Hx1.
  apply generate_uids_writes in Hx2. apply remove_new_lines_writes in Hx3.
  apply tokenize_column_writes in Hx4, Hx5.
  pose proof (Forall2_writes_trans _ _ _ _ _ Hx0 Hx1) as H1.
  pose proof (Forall2_writes_trans _ _ _ _ _ H1 Hx2) as H2.
  pose proof (Forall2_writes_trans _ _ _ _ _ H2 Hx3) as H3.
  pose proof (Forall2_writes_trans _ _ _ _ _ H3 Hx4) as H4.
  pose proof (Forall2_writes_trans _ _ _ _ _ H4 Hx5) as H5.
  exact H5.
Qed.

End Stages.

(** ** The claims about the file name, the rows and the frame *)

Section Pipeline.

Context (word_tokenize : str → list str) (isalpha : str → bool)
        (lower : str → str) (stop_words : gset str)
        (md5 : list N → list N) (netloc_ok : str → bool).

Abbreviation _tokenize_column :=
  (Receipe._tokenize_column word_tokenize isalpha lower stop_words).
Abbreviation main :=
  (Receipe.main word_tokenize isalpha lower stop_words md5 netloc_ok).

Lemma tokenize_column_sets df column_name df' :
  _tokenize_column df column_name = Ok df' →
  Forall2 (λ e e', ∃ v, e' = set ("n_tokens_" +:+ column_name) v e) df df'.
Proof.
  unfold Receipe._tokenize_column. intros H.
  case_decide; [done|]. bind_inv H.
  by eapply set_column_Ok.
Qed.


End Pipeline.

(** ** The claims about single stages *)

Lemma bind_assoc {A B C} (m : result A) (f : A → result B) (g : B → result C) :
  (do b <- (do a <- m; f a); g b) = (do a <- m; do b <- f a; g b).
Proof. by destruct m. Qed.

Lemma Forall2_and_Forall_l {A B} (R : A → B → Prop) (P : A → Prop) l k :
  Forall2 R l k → Forall P l → Forall2 (λ a b, P a ∧ R a b) l k.
Proof.
  induction 1; inversion 1; subst; constructor; auto.
Qed.

Lemma Forall2_split_mid {A B C} (R1 : A → B → Prop) (R2 : B → C → Prop) l k :
  Forall2 (λ a c, ∃ b, R1 a b ∧ R2 b c) l k
  ↔ ∃ m, Forall2 R1 l m ∧ Forall2 R2 m k.
Proof.
  split.
  - induction 1 as [|a c l k (b & H1 & H2) _ (m & Hm1 & Hm2)].
    + exists []. split; constructor.
    + exists (b :: m). split; by constructor.
  - intros (m & H1 & H2). revert k H2.
    induction H1 as [|a b l m Hab _ IH]; intros k; inversion 1; subst;
      constructor; eauto.
Qed.

(** C5, as the code has it.  What the body stage takes out is the newline
    character [\n] and no other line break.  On a table with a text in
    every [body] the stage completes, and the body it leaves in a row is
    the body the row had with every newline character taken out and nothing
    else touched: it has no newline, it keeps every other character, a
    carriage return or another line break as well, in its order, and it is
    not longer than the body it comes from.  An empty body stays empty. *)
Theorem body_normalizer_removes_newlines (df : DataFrame) :
  Forall (λ e, ∃ b, cells e !! "body" = Some (Str b)) df →
  ∃ df', _remove_new_lines_from_body df = Ok df'
    ∧ Forall2 (λ e e', ∃ b b',
                 cells e !! "body" = Some (Str b)
                 ∧ e' = set "body" (Str b') e
                 ∧ b' = filter (λ c, c ≠ Regex.newline) b
                 ∧ (Regex.newline ∉ b')
                 ∧ (∀ c, c ≠ Regex.newline → c ∈ b → c ∈ b')
                 ∧ (b' `sublist_of` b)
                 ∧ length b' ≤ length b
                 ∧ (b = [] → b' = [])) df df'.
Proof.
  intros Hbodies.
  assert (∃ df', Forall2 (λ e e', ∃ b, cells e !! "body" = Some (Str b)
             ∧ e' = set "body" (Str (remove_char Regex.newline b)) e) df df')
    as [df' Hdf'].
  { induction Hbodies as [|e df [b Hb] _ [df' IH]].
    - exists []. constructor.
    - eexists (_ :: df'). constructor; [|done]. eauto. }
  exists df'. split; [by apply remove_new_lines_rows|].
  eapply Forall2_impl; [exact Hdf'|].
  intros e e' (b & Hb & ->). exists b, (remove_char Regex.newline b).
  repeat split; try done.
  - apply remove_char_gone.
  - intros c Hc Hin. unfold remove_char. by apply list_elem_of_filter.
  - apply remove_char_sublist.
  - apply remove_char_length.
  - by intros ->.
Qed.

(** Only the newline goes: a carriage return in front of it stays. *)
Example carriage_return_stays :
  remove_char Regex.newline (py "a" ++ [13%N; Regex.newline] ++ py "b")
  = py "a" ++ [13%N] ++ py "b".
Proof. reflexivity. Qed.

Section RowIdentifier.

Context (md5 : list N → list N).

Abbreviation _generate_uids_for_rows := (Receipe._generate_uids_for_rows md5).
Abbreviation uid_of_uri := (uid_of_uri md5).

Lemma generate_uids_row (e : entry) v :
  (do a <- (do uri <- get "uri" e; do bytes <- encode_cell uri; Ok (md5 bytes));
   Ok (Str (hex a))) = Ok v
  ↔ ∃ u uid, cells e !! "uri" = Some (Str u) ∧ uid_of_uri u = Ok uid
             ∧ v = Str uid.
Proof.
  unfold get, uid_of_uri.
  destruct (cells e !! "uri") as [[|u|n]|]; simpl; [naive_solver| |naive_solver..].
  destruct (encode u) as [bs|ex] eqn:Hbs; simpl; split.
  - intros [= <-]. exists u, (hex (md5 bs)). by rewrite Hbs.
  - intros (u0 & uid & [= <-] & H & ->). rewrite Hbs in H. simpl in H.
    by injection H as <-.
  - done.
  - intros (u0 & uid & [= <-] & H & ->). by rewrite Hbs in H.
Qed.

Lemma generate_uids_rows df df' :
  _generate_uids_for_rows df = Ok df'
  ↔ df ≠ [] ∧
    Forall2 (λ e e', ∃ u uid, cells e !! "uri" = Some (Str u)
                              ∧ uid_of_uri u = Ok uid
                              ∧ e' = Entry (Str uid) (delete "uid" (cells e)))
            df df'.
Proof.
  unfold Receipe._generate_uids_for_rows.
  destruct (decide (df = [])) as [->|Hne];
    [simpl; split; [done | by intros [? _]]|].
  rewrite apply_rows_series_of.
  etrans; [apply series_of_apply|].
  rewrite <- (bind_assoc (series_of _ df) (λ s, set_column "uid" s df)
                         (set_index "uid")), bind_Ok.
  setoid_rewrite set_column_series_of.
  unfold set_index. setoid_rewrite traverse_Ok.
  rewrite <- Forall2_split_mid. split.
  - intros H. split; [done|]. eapply Forall2_impl; [exact H|].
    intros e e' (e2 & (v & (u & uid & Hu & Huid & ->)%generate_uids_row & ->) & He').
    unfold get in He'. simpl in He'. rewrite lookup_insert_eq in He'.
    simpl in He'. injection He' as <-. rewrite delete_insert_eq. eauto.
  - intros [_ H]. eapply Forall2_impl; [exact H|].
    intros e e' (u & uid & Hu & Huid & ->).
    exists (set "uid" (Str uid) e). split.
    + exists (Str uid). split; [|done]. apply generate_uids_row. eauto.
    + unfold get. simpl. rewrite lookup_insert_eq. simpl.
      by rewrite delete_insert_eq.
Qed.

(** C3. When the uid stage completes, every row had a text as uri and is
    now under the label that is the hexadecimal MD5 digest of the UTF-8
    encoding of that uri; the label is the index of the row, and [uid] is no
    column of the row.  The label depends on the uri alone: rows with the
    same uri, in the same or another run, get the same label.  The stage
    completes on every table with rows whose uris are texts that UTF-8 can
    encode. *)
Theorem row_identifier_md5_of_uri (df : DataFrame) :
  (∀ df', _generate_uids_for_rows df = Ok df' →
     Forall2 (λ e e', ∃ u bytes,
                cells e !! "uri" = Some (Str u)
                ∧ encode u = Ok bytes
                ∧ label e' = Str (hex (md5 bytes))
                ∧ cells e' = delete "uid" (cells e)
                ∧ cells e' !! "uid" = None) df df')
  ∧ (∀ df' t t' i j e1 e1' e2 e2',
       _generate_uids_for_rows df = Ok df' →
       _generate_uids_for_rows t = Ok t' →
       df !! i = Some e1 → df' !! i = Some e1' →
       t !! j = Some e2 → t' !! j = Some e2' →
       cells e1 !! "uri" = cells e2 !! "uri" → label e1' = label e2')
  ∧ (df ≠ [] →
     Forall (λ e, ∃ u bytes, cells e !! "uri" = Some (Str u)
                             ∧ encode u = Ok bytes) df →
     ∃ df', _generate_uids_for_rows df = Ok df').
Proof.
  assert (∀ t t', _generate_uids_for_rows t = Ok t' →
     Forall2 (λ e e', ∃ u bytes,
                cells e !! "uri" = Some (Str u)
                ∧ encode u = Ok bytes
                ∧ label e' = Str (hex (md5 bytes))
                ∧ cells e' = delete "uid" (cells e)
                ∧ cells e' !! "uid" = None) t t') as Hrows.
  { intros t t' [_ H]%generate_uids_rows. eapply Forall2_impl; [exact H|].
    intros e e' (u & uid & Hu & Huid & ->). unfold uid_of_uri in Huid.
    apply bind_Ok in Huid as (bs & Hbs & [= <-]).
    exists u, bs. simpl. by rewrite lookup_delete_eq. }
  split; [by apply Hrows|]. split.
  - intros df' t t' i j e1 e1' e2 e2' Hdf Ht Hi Hi' Hj Hj' Huri.
    apply Hrows in Hdf, Ht.
    destruct (Forall2_lookup_lr _ _ _ _ _ _ Hdf Hi Hi')
      as (u1 & b1 & Hu1 & Hb1 & -> & _).
    destruct (Forall2_lookup_lr _ _ _ _ _ _ Ht Hj Hj')
      as (u2 & b2 & Hu2 & Hb2 & -> & _).
    congruence.
  - intros Hne Huris. 
    assert (∃ df', Forall2 (λ e e', ∃ u uid, cells e !! "uri" = Some (Str u)
                              ∧ uid_of_uri u = Ok uid
                              ∧ e' = Entry (Str uid) (delete "uid" (cells e)))
            df df') as [df' Hdf'].
    { clear Hne. induction Huris as [|e df (u & bs & Hu & Hbs) _ [df' IH]].
      - exists []. constructor.
      - eexists (_ :: df'). constructor; [|done].
        exists u, (hex (md5 bs)). unfold uid_of_uri. rewrite Hbs. eauto. }
    exists df'. by apply generate_uids_rows.
Qed.

End RowIdentifier.

(** *** HostExtractor *)

Lemma lstrip_subseteq strip (s : str) : lstrip strip s ⊆ s.
Proof.
  induction s as [|c s IH]; [done|]. cbn [lstrip].
  destruct (strip c); [|done]. set_solver.
Qed.

Lemma strip_scheme_subseteq (url : str) : Urllib.strip_scheme url ⊆ url.
Proof.
  unfold Urllib.strip_scheme.
  destruct (find (chr ":") url) as [[|i]|]; [done| |done].
  destruct url as [|c0 url]; [done|].
  destruct (_ && _); [apply subseteq_drop | done].
Qed.

(** A uri without a slash has no network location: its host is empty. *)
Lemma netloc_without_slash netloc_ok (u : str) :
  chr "/" ∉ u → Urllib.netloc netloc_ok u = Ok [].
Proof.
  intros Hu. unfold Urllib.netloc.
  set (url := Urllib.strip_scheme _).
  assert (url ⊆ u) as Hsub.
  { unfold url. etrans; [apply strip_scheme_subseteq|].
    cbn [foldl Urllib.unsafe_url_bytes_to_remove]. unfold remove_char.
    intros x Hx. rewrite !list_elem_of_filter in Hx.
    apply (lstrip_subseteq Urllib.is_c0_control_or_space). tauto. }
  rewrite decide_False; [done|]. intros Htake. apply Hu, Hsub.
  destruct url as [|c url]; [done|]. injection Htake as -> _. left.
Qed.

Section HostExtractor.

Context (netloc_ok : str → bool).

Abbreviation _extract_host := (Receipe._extract_host netloc_ok).

Lemma extract_host_row (e : entry) v :
  (do a <- get "uri" e;
   do host <- Urllib.urlparse_netloc netloc_ok a; Ok (Str host)) = Ok v
  ↔ ∃ c h, cells e !! "uri" = Some c
           ∧ Urllib.urlparse_netloc netloc_ok c = Ok h ∧ v = Str h.
Proof.
  unfold get. destruct (cells e !! "uri") as [c|]; simpl; [|naive_solver].
  destruct (Urllib.urlparse_netloc netloc_ok c) as [h|ex] eqn:Hh; simpl; split.
  - intros [= <-]. eauto.
  - intros (c0 & h0 & [= <-] & H & ->). congruence.
  - done.
  - intros (c0 & h0 & [= <-] & H & ->). congruence.
Qed.

(** The stage returns exactly when [urlparse] accepts the uri cell of every
    row. *)
Lemma extract_host_cells df df' :
  _extract_host df = Ok df'
  ↔ Forall2 (λ e e', ∃ c h, cells e !! "uri" = Some c
                            ∧ Urllib.urlparse_netloc netloc_ok c = Ok h
                            ∧ e' = set "host" (Str h) e) df df'.
Proof.
  unfold Receipe._extract_host. rewrite column_series_of.
  etrans; [apply series_of_apply|].
  etrans; [apply set_column_series_of|].
  split; intros H; (eapply Forall2_impl; [exact H|]); intros e e'.
  - intros (v & (c & h & ? & ? & ->)%extract_host_row & ->). eauto.
  - intros (c & h & ? & ? & ->). eexists. split; [|done].
    apply extract_host_row. eauto.
Qed.

(** A cell that is no number is accepted exactly when it is a text with a
    network location. *)
Lemma urlparse_netloc_text c h :
  (∀ n, c ≠ Num n) →
  Urllib.urlparse_netloc netloc_ok c = Ok h
  ↔ ∃ u, c = Str u ∧ Urllib.netloc netloc_ok u = Ok h.
Proof.
  intros Hc. destruct c as [|u|n]; simpl.
  - naive_solver.
  - naive_solver.
  - by destruct (Hc n).
Qed.

(** On a table in which no uri is a number. *)
Lemma extract_host_rows df df' :
  Forall (λ e, ∀ n, cells e !! "uri" ≠ Some (Num n)) df →
  _extract_host df = Ok df'
  ↔ Forall2 (λ e e', ∃ u h, cells e !! "uri" = Some (Str u)
                            ∧ Urllib.netloc netloc_ok u = Ok h
                            ∧ e' = set "host" (Str h) e) df df'.
Proof.
  intros Htexts. rewrite extract_host_cells. split.
  - intros H. apply (Forall2_and_Forall_l _ _ _ _ H) in Htexts.
    eapply Forall2_impl; [exact Htexts|].
    intros e e' (Hno & c & h & Hc & Hh & ->).
    apply urlparse_netloc_text in Hh as (u & -> & Hh); [by eauto|].
    intros n ->. by eapply Hno.
  - intros H. eapply Forall2_impl; [exact H|].
    intros e e' (u & h & Hu & Hh & ->). exists (Str u), h. done.
Qed.

(** A text uri with a network location in every row is enough. *)
Lemma extract_host_texts df df' :
  Forall2 (λ e e', ∃ u h, cells e !! "uri" = Some (Str u)
                          ∧ Urllib.netloc netloc_ok u = Ok h
                          ∧ e' = set "host" (Str h) e) df df' →
  _extract_host df = Ok df'.
Proof.
  intros H. apply extract_host_cells. eapply Forall2_impl; [exact H|].
  intros e e' (u & h & Hu & Hh & ->). exists (Str u), h. done.
Qed.

(** C8, as the code has it, for uri cells that are texts or missing.  When
    the stage returns, the host of a row whose uri is a text is the network
    location that [urlparse] finds in that uri; on a table in which no uri
    is a number, the stage returns a table exactly when every uri is a text
    that [urlparse] accepts.  A uri without a slash is accepted and has the
    empty host.  Nothing catches an exception of [urlparse]: one row whose
    uri is a text that it rejects, or is missing, and the stage raises
    instead of returning a table, whatever the other rows are. *)
Theorem host_extractor_netloc (df : DataFrame) :
  (∀ df', _extract_host df = Ok df' →
          Forall2 (λ e e', ∀ u, cells e !! "uri" = Some (Str u) →
                     ∃ h, Urllib.netloc netloc_ok u = Ok h
                          ∧ e' = set "host" (Str h) e) df df')
  ∧ (Forall (λ e, ∀ n, cells e !! "uri" ≠ Some (Num n)) df →
     ∀ df', _extract_host df = Ok df'
            ↔ Forall2 (λ e e', ∃ u h, cells e !! "uri" = Some (Str u)
                                      ∧ Urllib.netloc netloc_ok u = Ok h
                                      ∧ e' = set "host" (Str h) e) df df')
  ∧ (∀ u : str, chr "/" ∉ u → Urllib.netloc netloc_ok u = Ok [])
  ∧ (∀ e, e ∈ df →
          (∀ n, cells e !! "uri" ≠ Some (Num n)) →
          (∀ u h, cells e !! "uri" = Some (Str u) →
                  Urllib.netloc netloc_ok u ≠ Ok h) →
          ∃ ex, _extract_host df = Raise ex).
Proof.
  split.
  { intros df' H%extract_host_cells. eapply Forall2_impl; [exact H|].
    intros e e' (c & h & Hc & Hh & ->) u Hu.
    rewrite Hu in Hc. injection Hc as <-. by exists h. }
  split; [intros Htexts df'; by apply extract_host_rows|].
  split; [apply netloc_without_slash|].
  intros e He Hno Hbad.
  destruct (_extract_host df) as [df'|ex] eqn:Hdf; [|by eexists].
  exfalso. apply extract_host_cells in Hdf.
  apply list_elem_of_lookup in He as [i Hi].
  destruct (Forall2_lookup_l _ _ _ _ _ Hdf Hi) as (e' & _ & c & h & Hc & Hh & _).
  apply urlparse_netloc_text in Hh as (u & -> & Hh); [by eapply Hbad|].
  intros n ->. by eapply Hno.
Qed.

End HostExtractor.

(** [urlparse] at work: a network location, none, and a rejected uri. *)
Example netloc_of_article :
  Urllib.netloc (λ _, true) (py "http://example.com/news/big-story-today")
  = Ok (py "example.com").
Proof. reflexivity. Qed.

Example netloc_without_authority :
  Urllib.netloc (λ _, true) (py "not a url") = Ok [].
Proof. reflexivity. Qed.

Example netloc_open_bracket :
  Urllib.netloc (λ _, true) (py "http://[example.com/news") = Raise ValueError.
Proof. reflexivity. Qed.

(** ** The title repair *)

Lemma final_segment_no_slash u : Regex.slash ∉ u → final_segment u = u.
Proof. destruct u; cbn [final_segment]; [done|]. intros. by rewrite decide_False. Qed.

Lemma final_segment_app pre seg :
  Regex.slash ∉ seg → final_segment (pre ++ Regex.slash :: seg) = seg.
Proof.
  intros Hseg. induction pre as [|c pre IH]; cbn [final_segment app].
  - rewrite decide_True by left. by apply final_segment_no_slash.
  - rewrite decide_True; [done|]. right. set_solver.
Qed.

Lemma final_segment_empty u :
  final_segment u = [] ↔ u = [] ∨ last u = Some Regex.slash.
Proof.
  induction u as [|c u IH]; cbn [final_segment]; [naive_solver|].
  case_decide as Hin.
  - rewrite IH. destruct u as [|c' u]; simpl.
    + apply list_elem_of_singleton in Hin as ->. naive_solver.
    + naive_solver.
  - split; [done|]. intros [?|Hl]; [done|]. exfalso. apply Hin.
    apply last_Some in Hl as [u' ->]. set_solver.
Qed.

Lemma match_here_spec s :
  Regex.match_here s
  = if decide (s ≠ [] ∧ Regex.slash ∉ s) then Some s else None.
Proof.
  induction s as [|c s IH]; cbn [Regex.match_here];
    [by rewrite decide_False by naive_solver|].
  destruct (decide (c = Regex.slash)) as [->|Hc].
  { rewrite decide_False; [done|]. intros [_ H]. apply H. left. }
  rewrite IH. destruct (decide (s ≠ [] ∧ Regex.slash ∉ s)) as [[Hs Hno]|Hn].
  - rewrite decide_True; [done|]. split; [done|]. set_solver.
  - unfold Regex.at_dollar. destruct s as [|c' s].
    + rewrite bool_decide_eq_true_2 by auto.
      rewrite decide_True; [done|]. split; [done|]. set_solver.
    + assert (Regex.slash ∈ c' :: s) as Hin.
      { destruct (decide (Regex.slash ∈ c' :: s)); [done|]. naive_solver. }
      rewrite bool_decide_eq_false_2.
      * rewrite decide_False; [done|]. intros [_ H]. apply H. by right.
      * intros [?|[= -> ->]]; [done|].
        apply list_elem_of_singleton in Hin. done.
Qed.

(** What [re.search] finds is the final segment, when there is one. *)
Lemma search_final_segment u :
  Regex.search u
  = if decide (final_segment u = []) then None else Some (final_segment u).
Proof.
  induction u as [|c u IH]; [done|].
  cbn [Regex.search final_segment]. rewrite match_here_spec.
  destruct (decide (Regex.slash ∈ c :: u)) as [Hin|Hno].
  - rewrite decide_False by naive_solver. done.
  - rewrite decide_True by done. by rewrite decide_False.
Qed.

Lemma repair_row_Ok e v :
  repair_row e = Ok v
  ↔ ∃ u, cells e !! "uri" = Some (Str u) ∧ final_segment u ≠ []
         ∧ v = Str (title_of_uri u).
Proof.
  unfold repair_row, get, title_of_uri.
  destruct (cells e !! "uri") as [[|u|n]|]; simpl;
    [naive_solver| |naive_solver..].
  rewrite search_final_segment.
  destruct (decide (final_segment u = [])) as [Hu|Hu]; simpl;
    [naive_solver|].
  change (py " ") with [chr " "]. rewrite join_split. naive_solver.
Qed.

Lemma apply_pure {A B} (g : A → B) (s : Series A) :
  apply (λ a, Ok (g a)) s = Ok ((λ p, (p.1, g p.2)) <$> s).
Proof. exact (traverse_pure (λ p, (p.1, g p.2)) s). Qed.

Lemma set_where_select (F : entry → result value) c df titles m :
  series_of (get c) df = Ok titles →
  series_of F (select ((λ p, isna p.2) <$> titles) df) = Ok m →
  Forall2 (λ e e', (do t <- get c e;
                    if isna t then do v <- F e; Ok (set c v e) else Ok e)
                   = Ok e')
          df (set_where c ((λ p, isna p.2) <$> titles) m.*2 df).
Proof.
  revert titles m. induction df as [|e df IH]; intros titles m.
  - intros [= <-]. constructor.
  - unfold series_of. cbn [traverse].
    intros (p & (t & Ht & [= <-])%bind_Ok & (ts & Hts & [= <-])%bind_Ok)%bind_Ok.
    cbn [fmap list_fmap select set_where snd].
    destruct (isna t) eqn:Hna.
    + cbn [traverse].
      intros (p & (v & Hv & [= <-])%bind_Ok
                & (m0 & Hm0 & [= <-])%bind_Ok)%bind_Ok.
      cbn [fmap list_fmap snd]. constructor; [|by apply IH].
      rewrite Ht. cbn [bind]. by rewrite Hna, Hv.
    + intros Hm. constructor; [|by apply IH].
      rewrite Ht. cbn [bind]. by rewrite Hna.
Qed.

Lemma select_series_total (F : entry → result value) c df df' :
  Forall2 (λ e e', (do t <- get c e;
                    if isna t then do v <- F e; Ok (set c v e) else Ok e)
                   = Ok e') df df' →
  ∃ titles m,
    series_of (get c) df = Ok titles
    ∧ series_of F (select ((λ p, isna p.2) <$> titles) df) = Ok m
    ∧ set_where c ((λ p, isna p.2) <$> titles) m.*2 df = df'.
Proof.
  induction 1 as [|e e' df df' He _ (titles & m & Ht & Hm & Hset)].
  - exists [], []. done.
  - apply bind_Ok in He as (t & Ht0 & He).
    exists ((label e, t) :: titles).
    destruct (isna t) eqn:Hna.
    + apply bind_Ok in He as (v & Hv & [= <-]).
      exists ((label e, v) :: m). unfold series_of in *.
      cbn [traverse fmap list_fmap select set_where snd].
      rewrite Ht0, Ht. cbn [bind snd]. rewrite Hna. cbn [traverse].
      rewrite Hv, Hm. cbn [bind fmap list_fmap snd]. by rewrite Hset.
    + injection He as <-. exists m. unfold series_of in *.
      cbn [traverse fmap list_fmap select set_where snd].
      rewrite Ht0, Ht. cbn [bind snd]. rewrite Hna. by rewrite Hset.
Qed.

Lemma series_of_total {A} (F : entry → result A) (df : DataFrame) :
  (∀ e, e ∈ df → ∃ a, F e = Ok a) → ∃ s, series_of F df = Ok s.
Proof.
  intros H. apply traverse_total. apply Forall_forall. intros e He.
  destruct (H e He) as [a Ha]. rewrite Ha. by eexists.
Qed.

Lemma existsb_elem_of {A} (f : A → bool) (l : list A) :
  existsb f l = true ↔ ∃ x, x ∈ l ∧ f x = true.
Proof.
  rewrite existsb_exists. by setoid_rewrite list_elem_of_In.
Qed.

Lemma column_Ok c df :
  (∃ s, column c df = Ok s) ↔ Forall (λ e, is_Some (cells e !! c)) df.
Proof.
  rewrite column_series_of. split.
  - intros [s Hs%series_of_Ok].
    induction Hs as [|e p df s [_ Hp%get_Ok] _ IH]; constructor; eauto.
  - intros H. apply series_of_total. rewrite Forall_forall in H.
    intros e [v Hv]%H. exists v. by apply get_Ok.
Qed.

Lemma column_cells_of c df (s : Series value) :
  column c df = Ok s → Forall2 (λ e v, cells e !! c = Some v) df s.*2.
Proof.
  rewrite column_series_of. intros Hs%series_of_Ok.
  induction Hs as [|e p df s [_ Hp%get_Ok] _ IH]; constructor; eauto.
Qed.

(** What [series.str] accepts. *)
Lemma str_accessor_Ok (col sel : list value) :
  str_accessor col sel = Ok ()
  ↔ (col = [] ∨ ∃ v, v ∈ col ∧ is_str v = true)
    ∧ (existsb is_num sel = false ∨ existsb is_str sel = true).
Proof.
  unfold str_accessor.
  assert (bool_decide (col ≠ []) && negb (existsb is_str col) = false
          ↔ (col = [] ∨ ∃ v, v ∈ col ∧ is_str v = true)) as Hc.
  { rewrite andb_false_iff, bool_decide_eq_false, negb_false_iff,
      existsb_elem_of.
    split; (intros [H|H]; [left | by right]).
    - by destruct col; [|destruct H].
    - by intros []. }
  assert (existsb is_num sel && negb (existsb is_str sel) = false
          ↔ (existsb is_num sel = false ∨ existsb is_str sel = true)) as Hs.
  { by rewrite andb_false_iff, negb_false_iff. }
  rewrite <- Hc, <- Hs.
  destruct (bool_decide _ && _), (existsb is_num sel && _); simpl;
    naive_solver.
Qed.

Lemma str_accessor_Raise (col sel : list value) ex :
  str_accessor col sel = Raise ex → ex = AttributeError.
Proof. unfold str_accessor. destruct (_ || _); congruence. Qed.

Lemma text_column_texts c (df : DataFrame) :
  Forall (λ e, ∃ u, cells e !! c = Some (Str u)) df → text_column c df.
Proof.
  intros H. split.
  - eapply Forall_impl; [exact H|]. intros e [u ->]. by eexists.
  - destruct H as [|e df He _]; [by left|]. right. by left.
Qed.

Lemma text_column_ext c (df df' : DataFrame) :
  Forall2 (λ e e', cells e' !! c = cells e !! c) df df' →
  text_column c df → text_column c df'.
Proof.
  intros H [Hcells Htext]. split.
  - clear Htext. induction H as [|e e' df df' He _ IH]; [constructor|].
    inversion Hcells; subst. constructor; [by rewrite He | by apply IH].
  - destruct Htext as [->|Htext].
    + left. by apply Forall2_nil_inv_l in H.
    + right. clear Hcells.
      induction H as [|e e' df df' He _ IH]; [by apply Exists_nil in Htext|].
      apply Exists_cons in Htext as [Hs|Htext].
      * left. by rewrite He.
      * right. by apply IH.
Qed.

Lemma fill_nan_data_rows df df' :
  _fill_nan_data df = Ok df'
  ↔ text_column "uri" df ∧ Forall2 (λ e e', fill_row e = Ok e') df df'.
Proof.
  assert (∀ (titles : Series value) r,
    (do uris <- column "uri" (select ((λ p, isna p.2) <$> titles) df);
     do word_lists <-
       applymap split_title ((λ p, (p.1, str_extract p.2)) <$> uris);
     do missing_titles <-
       applymap (λ title_word_list, Ok (Str (join (py " ") title_word_list)))
                word_lists;
     Ok (set_where "title" ((λ p, isna p.2) <$> titles) missing_titles.*2 df))
    = Ok r
    ↔ (do m <- series_of repair_row (select ((λ p, isna p.2) <$> titles) df);
       Ok (set_where "title" ((λ p, isna p.2) <$> titles) m.*2 df)) = Ok r)
    as Hchain.
  { intros titles r. unfold repair_row, applymap.
    do 3 (etrans; [|apply series_of_apply]).
    change (column "uri") with (series_of (get "uri")).
    destruct (series_of (get "uri") _) as [uris|]; [|done].
    cbn [bind]. by rewrite (apply_pure str_extract). }
  assert (∀ all_uris, column "uri" df = Ok all_uris →
            (all_uris.*2 = [] ∨ ∃ v, v ∈ all_uris.*2 ∧ is_str v = true)
            ↔ (df = [] ∨ Exists (λ e, ∃ s, cells e !! "uri" = Some (Str s)) df))
    as Hcol.
  { intros all_uris Hall%column_cells_of. split.
    - intros [Hnil|(v & Hv & Hs)].
      + left. rewrite Hnil in Hall. by apply Forall2_nil_inv_r in Hall.
      + right. apply list_elem_of_lookup in Hv as [i Hi].
        destruct (Forall2_lookup_r _ _ _ _ _ Hall Hi) as (e & He & Hc).
        apply Exists_exists. exists e.
        split; [by eapply list_elem_of_lookup_2|].
        destruct v; try done. by eexists.
    - intros [->|(e & [i Hi]%list_elem_of_lookup & u & Hu)%Exists_exists].
      + left. by apply Forall2_nil_inv_l in Hall.
      + right. destruct (Forall2_lookup_l _ _ _ _ _ Hall Hi) as (v & Hv & Hc).
        exists v. split; [by eapply list_elem_of_lookup_2|].
        rewrite Hu in Hc. by injection Hc as <-. }
  unfold _fill_nan_data. split.
  - intros (titles & Ht & H)%bind_Ok.
    apply bind_Ok in H as (all_uris & Hall & H).
    destruct (column "uri" (select _ df)) as [uris|] eqn:Huris; [|done].
    cbn [bind] in H.
    apply bind_Ok in H as ([] & [Hobj _]%str_accessor_Ok & H).
    split.
    { split; [apply column_Ok; by eexists | by apply (Hcol all_uris)]. }
    assert ((do m <- series_of repair_row
                       (select ((λ p, isna p.2) <$> titles) df);
             Ok (set_where "title" ((λ p, isna p.2) <$> titles) m.*2 df))
            = Ok df') as Hm.
    { apply Hchain. by rewrite Huris. }
    apply bind_Ok in Hm as (m & Hm & [= <-]).
    by eapply set_where_select.
  - intros [[Hcells Hobj] (titles & m & Ht & Hm & <-)%select_series_total].
    change (column "title") with (series_of (get "title")).
    rewrite Ht. cbn [bind].
    apply column_Ok in Hcells as [all_uris Hall]. rewrite Hall. cbn [bind].
    assert ((do uris <- column "uri" (select ((λ p, isna p.2) <$> titles) df);
             do word_lists <-
               applymap split_title ((λ p, (p.1, str_extract p.2)) <$> uris);
             do missing_titles <-
               applymap (λ title_word_list,
                           Ok (Str (join (py " ") title_word_list)))
                        word_lists;
             Ok (set_where "title" ((λ p, isna p.2) <$> titles)
                           missing_titles.*2 df))
            = Ok (set_where "title" ((λ p, isna p.2) <$> titles) m.*2 df))
      as Hold.
    { apply Hchain. by rewrite Hm. }
    destruct (column "uri" (select _ df)) as [uris|] eqn:Huris; [|done].
    cbn [bind] in Hold |- *.
    assert (str_accessor all_uris.*2 uris.*2 = Ok ()) as ->; [|done].
    apply str_accessor_Ok. split; [by apply (Hcol all_uris)|]. left.
    apply not_true_iff_false. intros (v & Hv & Hnum)%existsb_elem_of.
    apply column_cells_of in Huris.
    apply list_elem_of_lookup in Hv as [i Hi].
    destruct (Forall2_lookup_r _ _ _ _ _ Huris Hi) as (e & He & Hc).
    apply series_of_Ok in Hm.
    destruct (Forall2_lookup_l _ _ _ _ _ Hm He)
      as (p & _ & _ & (u & Hu & _)%repair_row_Ok).
    rewrite Hu in Hc. injection Hc as <-. done.
Qed.

(** X19. When the title repair completes, a row that had a title is the row
    it was, and a row without a title had a text as uri, with something
    behind its last slash, and has that final segment as title with a space
    in the place of every hyphen.  The repair completes when the uri of
    every row is a text and that of every row without a title has a final
    segment.  The final segment is what stands behind the last slash, and
    the whole uri when it has no slash. *)
Theorem title_repairer_fills_from_uri (df : DataFrame) :
  (∀ df', _fill_nan_data df = Ok df' →
     Forall2 (λ e e',
        (∀ t, cells e !! "title" = Some t → t ≠ NaN → e' = e)
        ∧ (cells e !! "title" = Some NaN →
           ∃ u, cells e !! "uri" = Some (Str u)
                ∧ final_segment u ≠ []
                ∧ e' = set "title"
                         (Str (replace_char (chr "-") (chr " ")
                                            (final_segment u))) e))
       df df')
  ∧ (Forall (λ e, ∃ t u, cells e !! "title" = Some t
                         ∧ cells e !! "uri" = Some (Str u)
                         ∧ (t = NaN → final_segment u ≠ [])) df →
     ∃ df', _fill_nan_data df = Ok df')
  ∧ (∀ pre seg, Regex.slash ∉ seg →
                final_segment (pre ++ Regex.slash :: seg) = seg)
  ∧ (∀ u, Regex.slash ∉ u → final_segment u = u).
Proof.
  repeat split.
  - intros df' [_ H]%fill_nan_data_rows. eapply Forall2_impl; [exact H|].
    intros e e' (t & Ht%get_Ok & He)%bind_Ok. split.
    + intros t' Ht' Hna. assert (t' = t) as -> by congruence.
      destruct t; [done|..]; by injection He as <-.
    + intros Ht'. assert (t = NaN) as -> by congruence. simpl in He.
      apply bind_Ok in He as (v & (u & Hu & Hseg & ->)%repair_row_Ok & [= <-]).
      exists u. done.
  - intros Hrows.
    assert (∃ df', Forall2 (λ e e', fill_row e = Ok e') df df') as [df' Hdf'].
    { induction Hrows as [|e df (t & u & Ht & Huri & Hseg) _ [df' IH]].
      - exists []. constructor.
      - assert (∃ e', fill_row e = Ok e') as [e' He'].
        { unfold fill_row, get. rewrite Ht. cbn [bind].
          destruct (decide (t = NaN)) as [->|Hna].
          - specialize (Hseg eq_refl).
            assert (repair_row e = Ok (Str (title_of_uri u))) as ->
              by (apply repair_row_Ok; eauto).
            simpl. by eexists.
          - destruct t; [done|..]; by eexists. }
        exists (e' :: df'). by constructor. }
    exists df'. apply fill_nan_data_rows. split; [|done].
    apply text_column_texts. eapply Forall_impl; [exact Hrows|].
    intros e (t & u & _ & Hu & _). eauto.
  - intros pre seg. apply final_segment_app.
  - apply final_segment_no_slash.
Qed.

Example title_of_slug :
  title_of_uri (py "http://example.com/news/a-b-c") = py "a b c".
Proof. reflexivity. Qed.

(** A row without a title whose uri has nothing behind its last slash stops
    the repair: no table comes back. *)
Lemma fill_nan_data_no_segment (df : DataFrame) e u :
  e ∈ df → cells e !! "title" = Some NaN →
  cells e !! "uri" = Some (Str u) → final_segment u = [] →
  ∃ ex, _fill_nan_data df = Raise ex.
Proof.
  intros He Ht Hu Hseg.
  destruct (_fill_nan_data df) as [df'|ex] eqn:Hdf; [|by eexists].
  exfalso. apply fill_nan_data_rows in Hdf as [_ Hdf].
  apply list_elem_of_lookup in He as [i Hi].
  destruct (Forall2_lookup_l _ _ _ _ _ Hdf Hi) as (e' & _ & He').
  unfold fill_row, get in He'. rewrite Ht in He'. simpl in He'.
  apply bind_Ok in He' as (v & (u' & Hu' & Hseg' & _)%repair_row_Ok & _).
  congruence.
Qed.

(** C4. On [table_without_segment] the title repair raises
    [AttributeError] (the missing value that the extraction leaves for the
    first row has no [split]) and returns no table: the first row does not
    keep a missing title, and the second row is not repaired. *)
Theorem title_repairer_raises_without_segment :
  _fill_nan_data table_without_segment = Raise AttributeError.
Proof. vm_compute. reflexivity. Qed.

(** C6. On [articles_one_without_segment] the first row has no title and a
    uri that ends in [a-b-c], so its title should become [a b c]; the
    second row has no title and a uri that ends in a slash.  The title
    repair raises [AttributeError] for the table, and so does [main]: the
    first row is not repaired.  The defect is that of C4: the missing value
    that the extraction leaves for the second row is handed to [split]. *)
Theorem title_repairer_abandons_repairable_row :
  (articles_one_without_segment !! 0 ≫= λ e, cells e !! "title") = Some NaN
  ∧ (articles_one_without_segment !! 0 ≫= λ e, cells e !! "uri")
    = Some (Str (py "http://example.com/news/a-b-c"))
  ∧ final_segment (py "http://example.com/news/a-b-c") = py "a-b-c"
  ∧ title_of_uri (py "http://example.com/news/a-b-c") = py "a b c"
  ∧ _fill_nan_data articles_one_without_segment = Raise AttributeError
  ∧ Sample.main (py "example_2021.csv") articles_one_without_segment
    = Raise AttributeError.
Proof. repeat split; vm_compute; reflexivity. Qed.

(** ** The tokenizer *)

Lemma has_na_true e : has_na e = true ↔ ∃ c, cells e !! c = Some NaN.
Proof.
  unfold has_na. rewrite bool_decide_eq_true, map_Exists_lookup. naive_solver.
Qed.

Lemma NoDup_label_inj (df : DataFrame) e1 e2 :
  NoDup (index df) → e1 ∈ df → e2 ∈ df → label e1 = label e2 → e1 = e2.
Proof.
  unfold index. induction df as [|e df IH]; [by inversion 2|].
  rewrite fmap_cons, NoDup_cons. intros [Hnotin Hnd] H1 H2 Hl.
  apply elem_of_cons in H1 as [->|H1], H2 as [->|H2]; auto.
  - exfalso. apply Hnotin. rewrite Hl. by apply list_elem_of_fmap_2.
  - exfalso. apply Hnotin. rewrite <- Hl. by apply list_elem_of_fmap_2.
Qed.

Lemma lookup_label_found (s : Series value) l v :
  NoDup (index_of s) → (l, v) ∈ s → lookup_label s l = v.
Proof.
  unfold lookup_label, index_of. induction s as [|[l0 v0] s IH]; [by inversion 2|].
  rewrite fmap_cons, NoDup_cons. intros [Hnotin Hnd] Hin.
  cbn [list_find]. destruct (decide (l0 = l)) as [->|Hne].
  - rewrite decide_True by done. simpl.
    apply elem_of_cons in Hin as [[= <-]|Hin]; [done|].
    exfalso. apply Hnotin. simpl. by apply (list_elem_of_fmap_2 fst _ (l, v)).
  - rewrite decide_False by done.
    apply elem_of_cons in Hin as [[= ? ?]|Hin]; [congruence|].
    specialize (IH Hnd Hin). destruct (list_find _ s) as [[i p]|]; done.
Qed.

Lemma lookup_label_missing (s : Series value) l :
  l ∉ index_of s → lookup_label s l = NaN.
Proof.
  unfold lookup_label, index_of. intros Hl.
  destruct (list_find _ s) as [[i p]|] eqn:Hfind; [|done].
  apply list_find_Some in Hfind as (Hi & Hp & _).
  exfalso. apply Hl. rewrite <- Hp. apply list_elem_of_fmap_2.
  by eapply list_elem_of_lookup_2.
Qed.

Lemma lookup_label_index (s : Series value) :
  NoDup (index_of s) → lookup_label s <$> index_of s = s.*2.
Proof.
  intros Hnd. unfold index_of. rewrite <- list_fmap_compose.
  apply list_fmap_ext. intros i [l v] Hi. simpl.
  apply lookup_label_found; [done|]. by eapply list_elem_of_lookup_2.
Qed.

(** With different labels in the series, an assignment to a column gives
    every row the element under its label, or the missing value. *)
Lemma set_column_unique c (s : Series value) df :
  NoDup (index_of s) →
  set_column c s df = Ok ((λ e, set c (lookup_label s (label e)) e) <$> df).
Proof.
  intros Hnd. unfold set_column, reindex.
  assert (zip_with (set c) (lookup_label s <$> index df) df
          = (λ e, set c (lookup_label s (label e)) e) <$> df) as Hzip.
  { unfold index. induction df as [|e df IH]; [done|].
    cbn [fmap list_fmap zip_with]. f_equal. exact IH. }
  case_decide as Hd; cbn [bind].
  - destruct Hd as [Hd| ->]; [|by destruct s.*2].
    rewrite <- Hzip, <- Hd. by rewrite lookup_label_index.
  - rewrite decide_True by done. cbn [bind]. by rewrite Hzip.
Qed.

Section Tokenizer.

Context (word_tokenize : str → list str) (isalpha : str → bool)
        (lower : str → str) (stop_words : gset str).

Abbreviation _tokenize_column :=
  (Receipe._tokenize_column word_tokenize isalpha lower stop_words).
Abbreviation n_tokens := (n_tokens word_tokenize isalpha lower stop_words).
Abbreviation count_row := (count_row word_tokenize isalpha lower stop_words).

Lemma count_row_Ok column_name e v :
  count_row column_name e = Ok v
  ↔ ∃ text, cells e !! column_name = Some (Str text) ∧ v = Num (n_tokens text).
Proof.
  unfold count_row, get, n_tokens.
  destruct (cells e !! column_name) as [[|text|n]|]; simpl; naive_solver.
Qed.

Lemma tokenize_column_series df column_name df' :
  _tokenize_column df column_name = Ok df'
  ↔ dropna df ≠ [] ∧
    ∃ s, series_of (count_row column_name) (dropna df) = Ok s
         ∧ set_column ("n_tokens_" +:+ column_name) s df = Ok df'.
Proof.
  unfold Receipe._tokenize_column.
  destruct (decide (dropna df = [])) as [Hd|Hne].
  { split; [done | by intros [? _]]. }
  rewrite apply_rows_series_of. unfold count_row.
  do 4 (etrans; [apply series_of_apply|]).
  rewrite bind_Ok. naive_solver.
Qed.

End Tokenizer.

Lemma Forall2_fmap_elem {A B} (g : A → B) (P : A → B → Prop) (l : list A) :
  (∀ a, a ∈ l → P a (g a)) → Forall2 P l (g <$> l).
Proof.
  induction l as [|a l IH]; intros H; [constructor|].
  rewrite fmap_cons. constructor; [apply H; left|].
  apply IH. intros; apply H. by right.
Qed.

Lemma dropna_elem (df : DataFrame) e :
  e ∈ dropna df ↔ e ∈ df ∧ has_na e = false.
Proof. unfold dropna. rewrite list_elem_of_filter. tauto. Qed.

Lemma dropna_index_NoDup (df : DataFrame) :
  NoDup (index df) → NoDup (index (dropna df)).
Proof.
  intros Hnd. eapply sublist_NoDup; [exact Hnd|].
  unfold index, dropna. apply fmap_sublist, sublist_filter.
Qed.

Section TokenizerClaims.

Context (word_tokenize : str → list str) (isalpha : str → bool)
        (lower : str → str) (stop_words : gset str).

Abbreviation _tokenize_column :=
  (Receipe._tokenize_column word_tokenize isalpha lower stop_words).
Abbreviation n_tokens := (n_tokens word_tokenize isalpha lower stop_words).
Abbreviation count_row := (count_row word_tokenize isalpha lower stop_words).

(** The count column of the rows of [df], the labels being different: the
    count of the row when no cell of the row is missing, no value else. *)
Lemma count_under_label (df : DataFrame) column_name s e :
  NoDup (index df) →
  series_of (count_row column_name) (dropna df) = Ok s →
  e ∈ df →
  if has_na e then lookup_label s (label e) = NaN
  else ∃ text, cells e !! column_name = Some (Str text)
               ∧ lookup_label s (label e) = Num (n_tokens text).
Proof.
  intros Hnd Hs He.
  pose proof (series_of_index _ _ _ Hs) as Hidx.
  apply series_of_Ok in Hs.
  destruct (has_na e) eqn:Hna.
  - apply lookup_label_missing. rewrite Hidx. unfold index.
    intros (e2 & Hl & [He2 Hna2]%dropna_elem)%list_elem_of_fmap.
    assert (e = e2) as <- by by eapply NoDup_label_inj. congruence.
  - assert (e ∈ dropna df) as [i Hi]%list_elem_of_lookup
      by by apply dropna_elem.
    destruct (Forall2_lookup_l _ _ _ _ _ Hs Hi) as ([l v] & Hp & Hl & Hv).
    simpl in *. subst l. apply count_row_Ok in Hv as (text & Htext & ->).
    exists text. split; [done|].
    apply lookup_label_found; [|by eapply list_elem_of_lookup_2].
    rewrite Hidx. by apply dropna_index_NoDup.
Qed.

(** C1, as the code has it.  On a table with different index labels: when
    the tokenizer completes, a row in which no cell of any column is missing
    has a text in the target column and gets the number of its tokens that
    are alphabetic and, in lower case, no stop word; a row with a missing
    cell in any column, the target or another, gets no value.  The
    tokenizer completes when some row has no missing cell and the target
    cell of every such row is a text. *)
Theorem tokenizer_counts_complete_rows (df : DataFrame) (column_name : string) :
  NoDup (index df) →
  (∀ df', _tokenize_column df column_name = Ok df' →
     Forall2 (λ e e',
        if has_na e
        then e' = set ("n_tokens_" +:+ column_name) NaN e
        else ∃ text, cells e !! column_name = Some (Str text)
                     ∧ e' = set ("n_tokens_" +:+ column_name)
                                (Num (n_tokens text)) e) df df')
  ∧ ((∃ e, e ∈ df ∧ has_na e = false) →
     (∀ e, e ∈ df → has_na e = false →
           ∃ text, cells e !! column_name = Some (Str text)) →
     ∃ df', _tokenize_column df column_name = Ok df')
  ∧ (∀ e, has_na e = true ↔ ∃ c, cells e !! c = Some NaN).
Proof.
  intros Hnd. repeat split.
  - intros df' (_ & s & Hs & Hset)%tokenize_column_series.
    rewrite set_column_unique in Hset.
    2:{ rewrite (series_of_index _ _ _ Hs). by apply dropna_index_NoDup. }
    injection Hset as <-. apply Forall2_fmap_elem. intros e He.
    pose proof (count_under_label df column_name s e Hnd Hs He) as Hc.
    destruct (has_na e).
    + by rewrite Hc.
    + destruct Hc as (text & Htext & ->). eauto.
  - intros (e0 & He0 & Hna0) Htexts.
    destruct (series_of_total (count_row column_name) (dropna df))
      as [s Hs].
    { intros e [He Hna]%dropna_elem. destruct (Htexts e He Hna) as [text Ht].
      eexists. apply count_row_Ok. eauto. }
    eexists. apply tokenize_column_series. split.
    + intros Hd. assert (e0 ∈ dropna df) as Hin by by apply dropna_elem.
      rewrite Hd in Hin. by inversion Hin.
    + exists s. split; [done|]. apply set_column_unique.
      rewrite (series_of_index _ _ _ Hs). by apply dropna_index_NoDup.
  - apply has_na_true.
  - apply has_na_true.
Qed.

End TokenizerClaims.




Section TokenizerIndependence.

Context (word_tokenize : str → list str) (isalpha : str → bool)
        (lower : str → str) (stop_words : gset str).

Abbreviation _tokenize_column :=
  (Receipe._tokenize_column word_tokenize isalpha lower stop_words).


End TokenizerIndependence.

(** ** The uri through the pipeline *)

Lemma fill_row_Ok e e' :
  fill_row e = Ok e' →
  label e' = label e
  ∧ writes ["title"] e e'
  ∧ (cells e !! "title" = Some NaN →
     ∃ u, cells e !! "uri" = Some (Str u)
          ∧ cells e' !! "title" = Some (Str (title_of_uri u))).
Proof.
  intros (t & Ht%get_Ok & He)%bind_Ok. destruct (isna t) eqn:Hna.
  - apply bind_Ok in He as (v & (u & Hu & _ & ->)%repair_row_Ok & [= <-]).
    split; [done|]. split; [apply writes_set|].
    intros _. exists u. split; [done|]. simpl. apply lookup_insert_eq.
  - injection He as <-. split; [done|]. split; [apply writes_refl|].
    intros Ht'. rewrite Ht in Ht'. injection Ht' as ->. done.
Qed.

Section Provenance.

Context (word_tokenize : str → list str) (isalpha : str → bool)
        (lower : str → str) (stop_words : gset str)
        (md5 : list N → list N) (netloc_ok : str → bool).

Abbreviation main :=
  (Receipe.main word_tokenize isalpha lower stop_words md5 netloc_ok).

(** C10. No stage writes the column [uri]: in the table that [main] returns
    every row has the uri it was read with, and so has every column other
    than [title], [body] and the columns the stages add.  What the stages
    derive from the uri they derive from the uri that was read: the host is
    its network location, the index label is the MD5 digest of its UTF-8
    encoding in hexadecimal, and a title that was missing is the one made
    from its final segment. *)
Theorem uri_never_modified (filename : str) (df df' : DataFrame) :
  main filename df = Ok df' →
  Forall2 (λ e e',
             cells e' !! "uri" = cells e !! "uri"
             ∧ (∀ c, c ∉ ["title"; "body"; "newspaper_uid"; "host"; "uid";
                           "n_tokens_title"; "n_tokens_body"] →
                     cells e' !! c = cells e !! c)
             ∧ ∃ u h uid,
                 cells e !! "uri" = Some (Str u)
                 ∧ Urllib.netloc netloc_ok u = Ok h
                 ∧ cells e' !! "host" = Some (Str h)
                 ∧ uid_of_uri md5 u = Ok uid
                 ∧ label e' = Str uid
                 ∧ (cells e !! "title" = Some NaN →
                    cells e' !! "title" = Some (Str (title_of_uri u))))
          df df'.
Proof.
  intros Hmain.
  destruct (main_stages _ _ _ _ _ _ _ _ _ Hmain) as (nu & _ & Hlater).
  pose proof (Forall2_writes_trans ["newspaper_uid"] later_columns _ _ _
                (add_newspaper_uid_column_writes df nu) Hlater) as Hframe.
  unfold Receipe.main in Hmain. bind_inv Hmain. injection Hmain as <-.
  apply extract_host_cells in Hx0. apply fill_nan_data_rows in Hx1 as [_ Hx1].
  apply generate_uids_rows in Hx2 as [_ Hx2].
  apply remove_new_lines_rows in Hx3.
  apply tokenize_column_sets in Hx4, Hx5.
  assert (Forall2 (λ e e0, e0 = set "newspaper_uid" (Str x) e) df
                  (_add_newspaper_uid_column df x)) as Hstamp.
  { unfold _add_newspaper_uid_column, set_column_scalar.
    apply Forall2_fmap_elem. done. }
  pose proof (proj2 (Forall2_split_mid _ _ _ _)
                (ex_intro _ _ (conj Hstamp Hx0))) as H1.
  pose proof (proj2 (Forall2_split_mid _ _ _ _)
                (ex_intro _ _ (conj H1 Hx1))) as H2.
  pose proof (proj2 (Forall2_split_mid _ _ _ _)
                (ex_intro _ _ (conj H2 Hx2))) as H3.
  pose proof (proj2 (Forall2_split_mid _ _ _ _)
                (ex_intro _ _ (conj H3 Hx3))) as H4.
  pose proof (proj2 (Forall2_split_mid _ _ _ _)
                (ex_intro _ _ (conj H4 Hx4))) as H5.
  pose proof (proj2 (Forall2_split_mid _ _ _ _)
                (ex_intro _ _ (conj H5 Hx5))) as H6.
  clear -Hframe H6. revert Hframe.
  induction H6 as [|e e' df df' Hrow _ IH]; intros Hframe;
    inversion Hframe as [|? ? ? ? Hw Hframe']; subst; constructor;
    [|by apply IH].
  clear IH Hframe Hframe'.
  destruct Hrow as (e5 & (e4 & (e3 & (e2 & (e1 & (e0 & -> & c & h & Hu & Hh & ->)
    & Hfill) & u & uid & Hu2 & Huid & ->) & b & Hb & ->) & v & ->) & v' & ->).
  apply fill_row_Ok in Hfill as (_ & Hw2 & Htitle).
  simpl in Hu. rewrite lookup_insert_ne in Hu by done.
  assert (c = Str u) as ->.
  { rewrite (Hw2 "uri") in Hu2 by set_solver. simpl in Hu2.
    rewrite !lookup_insert_ne in Hu2 by done. congruence. }
  simpl in Hh.
  split; [apply Hw; unfold later_columns; set_solver|].
  split; [intros c Hc; apply Hw; unfold later_columns; set_solver|].
  exists u, h, uid. repeat split; try done.
  - simpl. rewrite !lookup_insert_ne, lookup_delete_ne by done.
    rewrite (Hw2 "host") by set_solver. simpl. apply lookup_insert_eq.
  - intros Ht. simpl. rewrite !lookup_insert_ne, lookup_delete_ne by done.
    destruct Htitle as (u3 & Hu3 & ->).
    + simpl. by rewrite !lookup_insert_ne by done.
    + simpl in Hu3. rewrite !lookup_insert_ne in Hu3 by done. congruence.
Qed.

End Provenance.

(** ** The claims at work on tables *)

(** What the spec states for C1 fails on [articles_dated]: its first row has a
    title, and the tokenizer on [title] gives it no count, because the row
    has no date; so it is in the table that [main] returns. *)
Lemma tokenizer_skips_row_with_date_missing :
  (articles_dated !! 0 ≫= λ e, cells e !! "title")
    = Some (Str (py "Hola mundo"))
  ∧ n_tokens Sample.word_tokenize Sample.isalpha Sample.lower
             Sample.stop_words (py "Hola mundo") = 2
  ∧ column_cells "n_tokens_title"
                 (Sample._tokenize_column articles_dated "title")
    = Ok [Some NaN; Some (Num 2)]
  ∧ column_cells "n_tokens_title"
                 (Sample.main (py "example_2021.csv") articles_dated)
    = Ok [Some NaN; Some (Num 2)].
Proof. repeat split; vm_compute; reflexivity. Qed.


(** What the spec states for C5 fails on [articles_crlf]: the body stage
    takes the newline out of the body and leaves the carriage return in
    front of it, which is a line break as well. *)
Lemma body_normalizer_keeps_carriage_return :
  (articles_crlf !! 0 ≫= λ e, cells e !! "body")
    = Some (Str (py "Primera linea" ++ [13; 10]%N ++ py "Segunda linea"))
  ∧ column_cells "body" (_remove_new_lines_from_body articles_crlf)
    = Ok [Some (Str (py "Primera linea" ++ [13]%N ++ py "Segunda linea"))]
  ∧ 13%N ∈ line_breaks
  ∧ ¬ Forall (λ c, c ∉ line_breaks)
             (py "Primera linea" ++ [13]%N ++ py "Segunda linea").
Proof.
  split; [vm_compute; reflexivity|]. split; [vm_compute; reflexivity|].
  assert (13%N ∈ line_breaks) as Hcr.
  { apply (bool_decide_unpack _). vm_compute. exact I. }
  split; [exact Hcr|].
  rewrite Forall_forall. intros Hall. apply (Hall 13%N); [|exact Hcr].
  apply (bool_decide_unpack _). vm_compute. exact I.
Qed.

(** What the spec states for C9 fails on [articles_copy_undated]: the second
    row has no date and is left out of both counts (its title has one
    token that counts, its body five), yet it does not get a missing value:
    it gets the counts of the first row, which was read with the same
    uri. *)
Lemma main_gives_excluded_row_a_count :
  (articles_copy_undated !! 1 ≫= λ e, cells e !! "date") = Some NaN
  ∧ n_tokens Sample.word_tokenize Sample.isalpha Sample.lower
             Sample.stop_words (py "Casa") = 1
  ∧ n_tokens Sample.word_tokenize Sample.isalpha Sample.lower
             Sample.stop_words (py "Otra vez el final de la serie nueva") = 5
  ∧ column_cells "n_tokens_title"
                 (Sample.main (py "example_2021.csv") articles_copy_undated)
    = Ok [Some (Num 2); Some (Num 2)]
  ∧ column_cells "n_tokens_body"
                 (Sample.main (py "example_2021.csv") articles_copy_undated)
    = Ok [Some (Num 2); Some (Num 2)].
Proof. repeat split; vm_compute; reflexivity. Qed.

(** What the spec states for C8 fails on [articles_bad_uri]: the first uri
    is rejected by [urlparse], and the stage raises [ValueError] instead of
    returning a table with an empty host in the first row. *)
Lemma host_extractor_raises_on_rejected_uri :
  _extract_host Sample.netloc_ok articles_bad_uri = Raise ValueError.
Proof. vm_compute. reflexivity. Qed.

(** Why the labels have to differ: under one label for two rows the count of
    the complete row also goes to the row that [dropna] left out. *)
Example tokenizer_same_label :
  column_cells "n_tokens_title"
               (Sample._tokenize_column articles_same_label "title")
  = Ok [Some (Num 3); Some (Num 3)].
Proof. vm_compute. reflexivity. Qed.

Ltac compute_in_list :=
  repeat match goal with
         | H : _ ∈ _ :: _ |- _ => apply elem_of_cons in H as [->|H]
         | H : _ ∈ [] |- _ => by apply elem_of_nil in H
         end.

(** The tokenizer on [title] completes on [articles_dated], whose labels
    differ. *)
Lemma tokenizer_counts_complete_rows_witness :
  NoDup (index articles_dated)
  ∧ ∃ df', Sample._tokenize_column articles_dated "title" = Ok df'.
Proof.
  assert (NoDup (index articles_dated)) as Hnd.
  { apply (bool_decide_unpack _). vm_compute. exact I. }
  split; [exact Hnd|].
  destruct (tokenizer_counts_complete_rows
              Sample.word_tokenize Sample.isalpha Sample.lower
              Sample.stop_words articles_dated "title" Hnd)
    as (_ & Htotal & _).
  apply Htotal.
  - eexists. split; [right; left|]. vm_compute. reflexivity.
  - intros e He Hna. unfold articles_dated in He. compute_in_list.
    + vm_compute in Hna. discriminate.
    + eexists. vm_compute. reflexivity.
Defined.


(** The uid stage completes on [articles]. *)
Lemma row_identifier_md5_of_uri_witness :
  articles ≠ []
  ∧ Forall (λ e, ∃ u bytes, cells e !! "uri" = Some (Str u)
                            ∧ encode u = Ok bytes) articles
  ∧ ∃ df', _generate_uids_for_rows Sample.digest articles = Ok df'.
Proof.
  assert (Forall (λ e, ∃ u bytes, cells e !! "uri" = Some (Str u)
                            ∧ encode u = Ok bytes) articles) as Huris.
  { repeat constructor; do 2 eexists; split; vm_compute; reflexivity. }
  split; [done|]. split; [exact Huris|].
  destruct (row_identifier_md5_of_uri Sample.digest articles) as (_ & _ & H).
  by apply H.
Defined.

(** The body stage completes on [articles]. *)
Lemma body_normalizer_removes_newlines_witness :
  Forall (λ e, ∃ b, cells e !! "body" = Some (Str b)) articles
  ∧ ∃ df', _remove_new_lines_from_body articles = Ok df'.
Proof.
  assert (Forall (λ e, ∃ b, cells e !! "body" = Some (Str b)) articles)
    as Hbodies.
  { repeat constructor; eexists; vm_compute; reflexivity. }
  split; [exact Hbodies|].
  destruct (body_normalizer_removes_newlines articles) as (df' & Hdf' & _);
    [exact Hbodies |].
  by exists df'.
Defined.

(** The title repair completes on [articles]. *)
Lemma title_repairer_fills_from_uri_witness :
  Forall (λ e, ∃ t u, cells e !! "title" = Some t
                      ∧ cells e !! "uri" = Some (Str u)
                      ∧ (t = NaN → final_segment u ≠ [])) articles
  ∧ ∃ df', _fill_nan_data articles = Ok df'.
Proof.
  assert (Forall (λ e, ∃ t u, cells e !! "title" = Some t
                      ∧ cells e !! "uri" = Some (Str u)
                      ∧ (t = NaN → final_segment u ≠ [])) articles)
    as Hrows.
  { repeat constructor.
    - exists NaN. eexists. split; [vm_compute; reflexivity|].
      split; [vm_compute; reflexivity|]. intros _. vm_compute. discriminate.
    - do 2 eexists. split; [vm_compute; reflexivity|].
      split; [vm_compute; reflexivity|]. discriminate. }
  split; [exact Hrows|].
  destruct (title_repairer_fills_from_uri articles) as (_ & H & _).
  by apply H.
Defined.


(** The hosts of [articles], in which every uri is a text. *)
Lemma host_extractor_netloc_witness :
  Forall (λ e, ∀ n, cells e !! "uri" ≠ Some (Num n)) articles
  ∧ ∃ df', _extract_host Sample.netloc_ok articles = Ok df'
           ∧ Forall2 (λ e e', ∃ u h, cells e !! "uri" = Some (Str u)
                                     ∧ Urllib.netloc Sample.netloc_ok u = Ok h
                                     ∧ e' = set "host" (Str h) e) articles df'.
Proof.
  assert (Forall (λ e, ∀ n, cells e !! "uri" ≠ Some (Num n)) articles)
    as Htexts.
  { repeat first [apply Forall_nil_2 | apply Forall_cons_2];
      intros n Hn; vm_compute in Hn; discriminate. }
  split; [exact Htexts|].
  destruct (_extract_host Sample.netloc_ok articles) as [df'|ex] eqn:Hdf;
    [|vm_compute in Hdf; discriminate].
  exists df'. split; [done|].
  destruct (host_extractor_netloc Sample.netloc_ok articles) as (_ & H & _).
  by apply (H Htexts).
Defined.

(** The pipeline on [articles] returns the uris it was given. *)
Lemma uri_never_modified_witness :
  ∃ df', Sample.main (py "example_2021.csv") articles = Ok df'
         ∧ Forall2 (λ e e', cells e' !! "uri" = cells e !! "uri") articles df'.
Proof.
  destruct (Sample.main (py "example_2021.csv") articles) as [df'|ex] eqn:Hdf;
    [|vm_compute in Hdf; discriminate].
  exists df'. split; [done|].
  eapply Forall2_impl;
    [exact (uri_never_modified
              Sample.word_tokenize Sample.isalpha Sample.lower
              Sample.stop_words Sample.digest Sample.netloc_ok
              (py "example_2021.csv") articles df' Hdf)|].
  by intros e e' [H _].
Defined.

(** * Further properties of the stages *)

(** ** Exceptions of a traversal *)

Lemma traverse_Raise_inv {A B} (f : A → result B) (l : list A) ex :
  traverse f l = Raise ex → ∃ a, a ∈ l ∧ f a = Raise ex.
Proof.
  induction l as [|a l IH]; [done|]. cbn [traverse].
  destruct (f a) as [b|ex'] eqn:Ha; cbn [bind].
  - destruct (traverse f l) as [bs|ex'] eqn:Hl; cbn [bind]; [done|].
    intros [= ->]. destruct IH as (a' & Ha' & Hfa'); [done|].
    exists a'. split; [by right | done].
  - intros [= ->]. exists a. split; [by left | done].
Qed.

(** A traversal in which some element raises, and every element that raises
    raises [ex], raises [ex]. *)
Lemma traverse_Raise {A B} (f : A → result B) (l : list A) ex :
  Exists (λ a, ∃ ex', f a = Raise ex') l →
  Forall (λ a, ∀ ex', f a = Raise ex' → ex' = ex) l →
  traverse f l = Raise ex.
Proof.
  intros Hex Hall.
  destruct (traverse f l) as [bs|ex'] eqn:Hl.
  - exfalso. apply traverse_Ok in Hl.
    apply Exists_exists in Hex as (a & [i Hi]%list_elem_of_lookup & ex' & Ha).
    destruct (Forall2_lookup_l _ _ _ _ _ Hl Hi) as (b & _ & Hb). congruence.
  - apply traverse_Raise_inv in Hl as (a & Ha & Hfa). f_equal.
    rewrite Forall_forall in Hall. by eapply Hall.
Qed.

(** A step that cannot raise, behind a row-wise series, is part of the
    row-wise series: here the exceptions agree as well. *)
Lemma series_of_pure {A B} (F : entry → result A) (g : A → B) (df : DataFrame) :
  (do s <- series_of F df; apply (λ a, Ok (g a)) s)
  = series_of (λ e, do a <- F e; Ok (g a)) df.
Proof.
  unfold series_of, apply. induction df as [|e df IH]; [done|].
  cbn [traverse]. rewrite <- IH. destruct (F e) as [a|ex]; [|done].
  cbn [bind]. destruct (traverse _ df) as [s|ex]; done.
Qed.

Lemma bind_ext {A B} (m : result A) (k1 k2 : A → result B) :
  (∀ a, k1 a = k2 a) → bind m k1 = bind m k2.
Proof. intros H. destruct m; [apply H | done]. Qed.

(** ** More on the title repair *)

Lemma select_elem_of (mask : list bool) (df : DataFrame) e :
  e ∈ select mask df → e ∈ df.
Proof.
  revert mask. induction df as [|e0 df IH]; intros [|[] mask]; cbn [select];
    try by intros ?%elem_of_nil.
  - intros [->|?]%elem_of_cons; [by left | right; eauto].
  - intros ?. right. eauto.
Qed.

Lemma final_segment_no_slash_in u : Regex.slash ∉ final_segment u.
Proof.
  induction u as [|c u IH]; cbn [final_segment]; [by intros ?%elem_of_nil|].
  by case_decide.
Qed.

Lemma replace_char_gone (c d : char) (s : str) : c ≠ d → c ∉ replace_char c d s.
Proof.
  intros Hcd. unfold replace_char.
  intros (x & Hx & _)%list_elem_of_fmap. by case_decide; subst.
Qed.

Lemma replace_char_keeps_out (c d x : char) (s : str) :
  x ≠ d → x ∉ s → x ∉ replace_char c d s.
Proof.
  intros Hxd Hx. unfold replace_char.
  intros (y & Hy & Hin)%list_elem_of_fmap. case_decide; subst; done.
Qed.

Lemma replace_char_length (c d : char) (s : str) :
  length (replace_char c d s) = length s.
Proof. unfold replace_char. apply length_fmap. Qed.

(** X1. When every row has a title cell and a text as uri, the outcome of the
    title repair is decided by the rows without a title: if the uri of one
    of them is empty or ends in a slash the repair raises [AttributeError],
    and if none is, it returns a table. *)
Theorem title_repair_outcome (df : DataFrame) :
  Forall (λ e, ∃ t u, cells e !! "title" = Some t
                      ∧ cells e !! "uri" = Some (Str u)) df →
  (Exists (λ e, cells e !! "title" = Some NaN
                ∧ ∃ u, cells e !! "uri" = Some (Str u)
                       ∧ (u = [] ∨ last u = Some Regex.slash)) df →
   _fill_nan_data df = Raise AttributeError)
  ∧ (Forall (λ e, cells e !! "title" = Some NaN →
                  ∀ u, cells e !! "uri" = Some (Str u) →
                       u ≠ [] ∧ last u ≠ Some Regex.slash) df →
     ∃ df', _fill_nan_data df = Ok df').
Proof.
  intros Hcols.
  assert (∀ ex, _fill_nan_data df = Raise ex → ex = AttributeError) as Honly.
  { unfold _fill_nan_data, applymap. intros ex.
    destruct (column "title" df) as [titles|ex0] eqn:Ht; cbn [bind].
    2:{ apply traverse_Raise_inv in Ht as (e & He & Hget).
        rewrite Forall_forall in Hcols.
        destruct (Hcols e He) as (t & u & Htitle & _).
        unfold get in Hget. by rewrite Htitle in Hget. }
    destruct (column "uri" df) as [all_uris|ex0] eqn:Hall; cbn [bind].
    2:{ apply traverse_Raise_inv in Hall as (e & He & Hget).
        rewrite Forall_forall in Hcols.
        destruct (Hcols e He) as (t & u & _ & Huri).
        unfold get in Hget. by rewrite Huri in Hget. }
    destruct (column "uri" (select _ df)) as [uris|ex0] eqn:Hu; cbn [bind].
    2:{ apply traverse_Raise_inv in Hu as (e & He & Hget).
        apply select_elem_of in He as Hin.
        rewrite Forall_forall in Hcols.
        destruct (Hcols e Hin) as (t & u & _ & Huri).
        unfold get in Hget. by rewrite Huri in Hget. }
    destruct (str_accessor _ _) as [[]|ex0] eqn:Hacc; cbn [bind].
    2:{ intros [= <-]. by eapply str_accessor_Raise. }
    destruct (apply split_title _) as [lists|ex0] eqn:Hs; cbn [bind].
    2:{ apply traverse_Raise_inv in Hs as ([l v] & _ & Hv). simpl in Hv.
        intros [= <-]. destruct v; simpl in Hv; congruence. }
    by rewrite apply_pure. }
  split.
  - intros Hbad.
    destruct (_fill_nan_data df) as [df'|ex] eqn:Hdf;
      [exfalso | f_equal; by apply Honly].
    apply fill_nan_data_rows in Hdf as [_ Hdf].
    apply Exists_exists in Hbad
      as (e & [i Hi]%list_elem_of_lookup & Ht & u & Hu & Hbad).
    destruct (Forall2_lookup_l _ _ _ _ _ Hdf Hi) as (e' & _ & He').
    unfold fill_row, get in He'. rewrite Ht in He'. simpl in He'.
    apply bind_Ok in He' as (v & (u' & Hu' & Hseg & _)%repair_row_Ok & _).
    apply Hseg. apply final_segment_empty. congruence.
  - intros Hgood.
    assert (∃ df', Forall2 (λ e e', fill_row e = Ok e') df df') as [df' Hdf'].
    { clear Honly. induction Hcols as [|e df (t & u & Ht & Hu) _ IH].
      - exists []. constructor.
      - inversion Hgood as [|? ? Hg Hgood']; subst.
        destruct (IH Hgood') as [df' Hdf'].
        assert (∃ e', fill_row e = Ok e') as [e' He'].
        { unfold fill_row, get. rewrite Ht. cbn [bind].
          destruct (decide (t = NaN)) as [->|Hna].
          - assert (repair_row e = Ok (Str (title_of_uri u))) as ->.
            { apply repair_row_Ok. exists u. split; [done|]. split; [|done].
              rewrite final_segment_empty. destruct (Hg Ht u Hu). tauto. }
            simpl. by eexists.
          - destruct t; [done|..]; by eexists. }
        exists (e' :: df'). by constructor. }
    exists df'. apply fill_nan_data_rows. split; [|done].
    apply text_column_texts. eapply Forall_impl; [exact Hcols|].
    intros e (t & u & _ & Hu). eauto.
Qed.

Lemma fill_row_title e e' :
  fill_row e = Ok e' →
  ∃ t, cells e' !! "title" = Some t ∧ t ≠ NaN
       ∧ (cells e !! "title" = Some NaN →
          ∃ s, t = Str s ∧ s ≠ [] ∧ (chr "-" ∉ s) ∧ (chr "/" ∉ s)).
Proof.
  intros (t & Ht%get_Ok & He)%bind_Ok. destruct (isna t) eqn:Hna.
  - apply bind_Ok in He as (v & (u & Hu & Hseg & ->)%repair_row_Ok & [= <-]).
    exists (Str (title_of_uri u)). simpl. rewrite lookup_insert_eq.
    split; [done|]. split; [done|]. intros _. exists (title_of_uri u).
    split; [done|]. unfold title_of_uri. split; [|split].
    + intros Hnil. apply Hseg. apply length_zero_iff_nil.
      by rewrite <- (replace_char_length (chr "-") (chr " ")), Hnil.
    + by apply replace_char_gone.
    + apply replace_char_keeps_out; [done|]. apply final_segment_no_slash_in.
  - injection He as <-. exists t. split; [done|].
    split; [by destruct t|]. intros Ht'. rewrite Ht in Ht'.
    injection Ht' as ->. done.
Qed.

(** X2. In the table that the title repair returns no title is missing; a
    title that was missing is now a text that is not empty and has neither
    a hyphen nor a slash. *)
Theorem title_repair_leaves_no_title_missing (df df' : DataFrame) :
  _fill_nan_data df = Ok df' →
  Forall2 (λ e e', ∃ t, cells e' !! "title" = Some t ∧ t ≠ NaN
                        ∧ (cells e !! "title" = Some NaN →
                           ∃ s, t = Str s ∧ s ≠ []
                                ∧ (chr "-" ∉ s) ∧ (chr "/" ∉ s))) df df'.
Proof.
  intros [_ H]%fill_nan_data_rows. eapply Forall2_impl; [exact H|].
  intros e e'. apply fill_row_title.
Qed.

(** X3. The title repair is idempotent: run on the table it returned, it
    returns that table. *)
Theorem title_repair_idempotent (df df' : DataFrame) :
  _fill_nan_data df = Ok df' → _fill_nan_data df' = Ok df'.
Proof.
  intros [Huri H]%fill_nan_data_rows. apply fill_nan_data_rows. split.
  { eapply text_column_ext; [|exact Huri].
    eapply Forall2_impl; [exact H|].
    intros e e' (_ & Hw & _)%fill_row_Ok. apply Hw. set_solver. }
  apply Forall_Forall2_diag.
  assert (Forall (λ e', ∃ t, cells e' !! "title" = Some t ∧ t ≠ NaN) df')
    as Htitles.
  { clear Huri. induction H as [|e e' df df' He _ IH]; constructor; [|done].
    apply fill_row_title in He as (t & ? & ? & _). eauto. }
  eapply Forall_impl; [exact Htitles|].
  intros e' (t & Ht & Hna). unfold fill_row, get. rewrite Ht. cbn [bind].
  by destruct t.
Qed.

(** ** More on the body stage *)

Lemma remove_char_idemp (c : char) (s : str) :
  remove_char c (remove_char c s) = remove_char c s.
Proof. unfold remove_char. by apply list_filter_filter_l. Qed.

(** X4. The body stage is idempotent: run on the table it returned, it
    returns that table. *)
Theorem body_normalizer_idempotent (df df' : DataFrame) :
  _remove_new_lines_from_body df = Ok df' →
  _remove_new_lines_from_body df' = Ok df'.
Proof.
  intros H%remove_new_lines_rows. apply remove_new_lines_rows.
  apply Forall_Forall2_diag.
  induction H as [|e e' df df' (b & Hb & ->) _ IH]; constructor; [|done].
  exists (remove_char Regex.newline b). split.
  - simpl. apply lookup_insert_eq.
  - unfold set. simpl. by rewrite remove_char_idemp, insert_insert_eq.
Qed.

(** X5. A body that is no text stops the body stage: when every row has a
    body cell and the body of some row is missing (or a number), the stage
    raises [TypeError] and returns no table. *)
Theorem body_normalizer_raises_on_missing_body (df : DataFrame) :
  Forall (λ e, is_Some (cells e !! "body")) df →
  Exists (λ e, ∀ b, cells e !! "body" ≠ Some (Str b)) df →
  _remove_new_lines_from_body df = Raise TypeError.
Proof.
  intros Hcols Hbad. unfold _remove_new_lines_from_body.
  rewrite apply_rows_series_of.
  destruct (series_of_total (get "body") df) as [bodies Hbodies].
  { rewrite Forall_forall in Hcols. intros e [v Hv]%Hcols.
    exists v. by apply get_Ok. }
  change (series_of (λ row, get "body" row) df)
    with (series_of (get "body") df).
  rewrite Hbodies. cbn [bind].
  assert (apply letters_of bodies = Raise TypeError) as ->; [|done].
  apply series_of_Ok in Hbodies. apply traverse_Raise.
  - apply Exists_exists in Hbad as (e & [i Hi]%list_elem_of_lookup & He).
    destruct (Forall2_lookup_l _ _ _ _ _ Hbodies Hi)
      as ([l v] & Hp%list_elem_of_lookup_2 & _ & Hv%get_Ok).
    apply Exists_exists. exists (l, v). split; [done|]. simpl in *.
    destruct v as [|b|n]; simpl; [by eexists| |by eexists].
    by destruct (He b).
  - apply Forall_forall. intros [l v] _ ex. simpl.
    destruct v; simpl; congruence.
Qed.

(** ** More on the uid stage *)

Section RowIdentifierMore.

Context (md5 : list N → list N).

Abbreviation _generate_uids_for_rows := (Receipe._generate_uids_for_rows md5).
Abbreviation uid_of_uri := (uid_of_uri md5).

(** X6. A uri that is no text stops the uid stage: when every row has a uri
    cell, the uris that are texts can be encoded, and the uri of some row is
    missing (or a number), the stage raises [AttributeError] and returns no
    table. *)
Theorem row_identifier_raises_on_missing_uri (df : DataFrame) :
  Forall (λ e, ∃ v, cells e !! "uri" = Some v
                    ∧ ∀ u, v = Str u → ∃ bytes, encode u = Ok bytes) df →
  Exists (λ e, ∀ u, cells e !! "uri" ≠ Some (Str u)) df →
  _generate_uids_for_rows df = Raise AttributeError.
Proof.
  intros Hcols Hbad. unfold Receipe._generate_uids_for_rows.
  assert (df ≠ []) as Hne by (intros ->; by apply Exists_nil in Hbad).
  rewrite decide_False by done. rewrite apply_rows_series_of.
  unfold series_of. erewrite traverse_Raise; [done|..].
  - eapply Exists_impl; [exact Hbad|]. intros e He. simpl in He.
    unfold get. destruct (cells e !! "uri") as [[|u|n]|]; simpl;
      [by eexists| |by eexists..].
    by destruct (He u).
  - eapply Forall_impl; [exact Hcols|].
    intros e (v & Hv & Henc) ex. unfold get. rewrite Hv. simpl.
    destruct v as [|u|n]; simpl; [congruence| |congruence].
    destruct (Henc u eq_refl) as [bytes ->]. done.
Qed.

(** The index label that the uid stage derives from a uri cell. *)
Lemma generate_uids_index df df' :
  _generate_uids_for_rows df = Ok df' →
  index df'
  = (λ c, match c with
          | Some (Str u) =>
              match uid_of_uri u with Ok uid => Str uid | Raise _ => NaN end
          | _ => NaN
          end) <$> uri_cells df.
Proof.
  intros [_ H]%generate_uids_rows. unfold index, uri_cells.
  induction H as [|e e' df df' (u & uid & Hu & Huid & ->) _ IH]; [done|].
  rewrite !fmap_cons, <- IH, Hu, Huid. done.
Qed.

(** X7. The uid stage does not check that the new index is unique: if the
    labels it gives are all different, then so were the uris, so a uri that
    occurs in two rows gives a label that occurs twice.  The other way
    round, different uris whose digests do not collide get different
    labels. *)
Theorem row_identifier_index_unique (df df' : DataFrame) :
  _generate_uids_for_rows df = Ok df' →
  (NoDup (index df') → NoDup (uri_cells df))
  ∧ ((∀ u1 u2 uid, Some (Str u1) ∈ uri_cells df →
                   Some (Str u2) ∈ uri_cells df →
                   uid_of_uri u1 = Ok uid → uid_of_uri u2 = Ok uid →
                   u1 = u2) →
     NoDup (uri_cells df) → NoDup (index df')).
Proof.
  intros Hdf. rewrite (generate_uids_index _ _ Hdf). split.
  - apply NoDup_fmap_1.
  - intros Hinj. apply NoDup_fmap_2_strong.
    apply generate_uids_rows in Hdf as [_ Hdf].
    assert (∀ c, c ∈ uri_cells df →
                 ∃ u uid, c = Some (Str u) ∧ uid_of_uri u = Ok uid) as Hcells.
    { intros c (e & -> & [i Hi]%list_elem_of_lookup)%list_elem_of_fmap.
      destruct (Forall2_lookup_l _ _ _ _ _ Hdf Hi)
        as (e' & _ & u & uid & Hu & Huid & _).
      eauto. }
    intros c1 c2 Hc1 Hc2.
    destruct (Hcells c1 Hc1) as (u1 & uid1 & -> & Huid1).
    destruct (Hcells c2 Hc2) as (u2 & uid2 & -> & Huid2).
    rewrite Huid1, Huid2. intros [= <-]. do 2 f_equal. by eapply Hinj.
Qed.

Lemma hex_digit_is_hex (d : N) : (d < 16)%N → is_hex_digit (hex_digit d) = true.
Proof.
  intros Hd. unfold is_hex_digit, hex_digit.
  destruct (d <? 10)%N eqn:H10.
  - apply N.ltb_lt in H10.
    replace ((48 <=? 48 + d)%N) with true by (symmetry; apply N.leb_le; lia).
    replace ((48 + d <=? 57)%N) with true by (symmetry; apply N.leb_le; lia).
    done.
  - apply N.ltb_ge in H10.
    replace ((97 <=? 87 + d)%N) with true by (symmetry; apply N.leb_le; lia).
    replace ((87 + d <=? 102)%N) with true by (symmetry; apply N.leb_le; lia).
    by rewrite orb_true_r.
Qed.

Lemma hex_of_bytes (bs : list N) :
  Forall (λ b, (b < 256)%N) bs →
  length (hex bs) = 2 * length bs ∧ Forall (λ c, is_hex_digit c) (hex bs).
Proof.
  unfold hex. induction 1 as [|b bs Hb _ [IHlen IHall]]; [by split|].
  cbn [mbind list_bind]. split.
  - rewrite length_app. simpl. rewrite IHlen. lia.
  - apply Forall_app. split; [|done].
    repeat constructor; apply Is_true_true, hex_digit_is_hex.
    + rewrite N.shiftr_div_pow2. apply N.Div0.div_lt_upper_bound. simpl. lia.
    + change 15%N with (N.ones 4). rewrite N.land_ones.
      apply N.mod_lt. done.
Qed.

(** X8. With a digest of 16 bytes, as MD5 gives, every index label that the
    uid stage returns is a text of 32 lower-case hexadecimal digits. *)
Theorem row_identifier_uid_is_hex (df df' : DataFrame) :
  (∀ bytes, length (md5 bytes) = 16 ∧ Forall (λ b, (b < 256)%N) (md5 bytes)) →
  _generate_uids_for_rows df = Ok df' →
  Forall (λ e', ∃ uid, label e' = Str uid ∧ length uid = 32
                       ∧ Forall (λ c, is_hex_digit c) uid) df'.
Proof.
  intros Hmd5 [_ H]%generate_uids_rows.
  induction H as [|e e' df df' (u & uid & _ & Huid & ->) _ IH];
    constructor; [|done].
  exists uid. split; [done|].
  apply bind_Ok in Huid as (bs & _ & [= <-]).
  destruct (Hmd5 bs) as [Hlen Hbytes].
  destruct (hex_of_bytes _ Hbytes) as [Hl Hall]. split; [|done].
  rewrite Hl, Hlen. done.
Qed.

End RowIdentifierMore.

(** ** More on the tokenizer *)

Section TokenizerMore.

Context (word_tokenize : str → list str) (isalpha : str → bool)
        (lower : str → str) (stop_words : gset str).

Abbreviation _tokenize_column :=
  (Receipe._tokenize_column word_tokenize isalpha lower stop_words).
Abbreviation n_tokens := (n_tokens word_tokenize isalpha lower stop_words).
Abbreviation count_row := (count_row word_tokenize isalpha lower stop_words).

(** The tokenizer as one row-wise series over the complete rows and one
    assignment, exceptions included. *)
Lemma tokenize_column_eq (df : DataFrame) column_name :
  dropna df ≠ [] →
  _tokenize_column df column_name
  = (do s <- series_of (count_row column_name) (dropna df);
     set_column ("n_tokens_" +:+ column_name) s df).
Proof.
  intros Hne. unfold Receipe._tokenize_column, count_row.
  rewrite decide_False by done. rewrite apply_rows_series_of.
  rewrite <- !series_of_pure. rewrite !bind_assoc. done.
Qed.

Lemma dropna_all (df : DataFrame) :
  Forall (λ e, has_na e = false) df → dropna df = df.
Proof.
  unfold dropna. induction 1 as [|e df He _ IH]; [done|].
  rewrite filter_cons, decide_True by done. by rewrite IH.
Qed.


Lemma dropna_index_equal (df : DataFrame) :
  index (dropna df) = index df → dropna df = df.
Proof.
  intros Hidx. apply dropna_all. apply Forall_forall. intros e He.
  destruct (has_na e) eqn:Hna; [exfalso|done].
  apply (f_equal length) in Hidx. unfold index in Hidx.
  rewrite !length_fmap in Hidx.
  pose proof (length_filter_lt (λ e, has_na e = false) df e He) as Hlt.
  unfold dropna in Hidx. rewrite Hidx in Hlt.
  assert (length df < length df); [|lia]. apply Hlt. congruence.
Qed.

Lemma tokenize_column_complete (df : DataFrame) (column_name : string) :
  df ≠ [] →
  Forall (λ e, has_na e = false
               ∧ ∃ text, cells e !! column_name = Some (Str text)) df →
  ∃ df', _tokenize_column df column_name = Ok df'
    ∧ Forall2 (λ e e', ∃ text,
                 cells e !! column_name = Some (Str text)
                 ∧ e' = set ("n_tokens_" +:+ column_name)
                            (Num (n_tokens text)) e) df df'.
Proof.
  intros Hne Hrows.
  assert (dropna df = df) as Hall.
  { apply dropna_all. eapply Forall_impl; [exact Hrows|]. by intros e [? _]. }
  assert (∃ df', Forall2 (λ e e', ∃ text,
                 cells e !! column_name = Some (Str text)
                 ∧ e' = set ("n_tokens_" +:+ column_name)
                            (Num (n_tokens text)) e) df df') as [df' Hdf'].
  { clear Hne Hall. induction Hrows as [|e df (_ & text & Ht) _ [df' IH]].
    - exists []. constructor.
    - eexists (_ :: df'). constructor; [|done]. eauto. }
  exists df'. split; [|done].
  rewrite tokenize_column_eq by by rewrite Hall.
  rewrite Hall. apply set_column_series_of.
  eapply Forall2_impl; [exact Hdf'|].
  intros e e' (text & Ht & ->). eexists. split; [|done].
  apply count_row_Ok. eauto.
Qed.

(** X9. On a table with rows in which no cell is missing and the target
    cells are texts, the tokenizer completes and gives every row the count
    of its target text, whatever the index labels are. *)
Theorem tokenizer_counts_every_row_of_complete_table
    (df : DataFrame) (column_name : string) :
  df ≠ [] →
  Forall (λ e, has_na e = false
               ∧ ∃ text, cells e !! column_name = Some (Str text)) df →
  ∃ df', _tokenize_column df column_name = Ok df'
    ∧ Forall2 (λ e e', ∃ text,
                 cells e !! column_name = Some (Str text)
                 ∧ e' = set ("n_tokens_" +:+ column_name)
                            (Num (n_tokens text)) e) df df'.
Proof. apply tokenize_column_complete. Qed.

(** What the assignment of the counts does when the complete rows share a
    label and some row was left out. *)
Lemma tokenize_column_shared_label (df : DataFrame) (column_name : string) :
  (∀ e, e ∈ df → has_na e = false →
        ∃ text, cells e !! column_name = Some (Str text)) →
  Exists (λ e, has_na e = true) df →
  ¬ NoDup (index (dropna df)) →
  _tokenize_column df column_name = Raise ValueError.
Proof.
  intros Htexts Hdropped Hdup.
  assert (dropna df ≠ []) as Hne.
  { intros Hnil. apply Hdup. rewrite Hnil. constructor. }
  rewrite tokenize_column_eq by done.
  destruct (series_of_total (count_row column_name) (dropna df)) as [s Hs].
  { intros e [He Hna]%dropna_elem. destruct (Htexts e He Hna) as [text Ht].
    eexists. apply count_row_Ok. eauto. }
  rewrite Hs. cbn [bind]. pose proof (series_of_index _ _ _ Hs) as Hidx.
  unfold set_column, reindex. rewrite Hidx.
  rewrite decide_False.
  - rewrite decide_False by done. done.
  - intros [Heq%dropna_index_equal | ->]; [|done].
    apply Exists_exists in Hdropped as (e & He & Hna).
    rewrite <- Heq in He. apply dropna_elem in He as [_ ?]. congruence.
Qed.

(** X10. The counts are aligned on the index labels, and pandas refuses to
    align a series that has a label twice: when some row has a missing cell
    and two rows without one share their index label, the tokenizer raises
    [ValueError]. *)
Theorem tokenizer_raises_on_shared_label
    (df : DataFrame) (column_name : string) :
  (∀ e, e ∈ df → has_na e = false →
        ∃ text, cells e !! column_name = Some (Str text)) →
  Exists (λ e, has_na e = true) df →
  ¬ NoDup (index (dropna df)) →
  _tokenize_column df column_name = Raise ValueError.
Proof.
  apply tokenize_column_shared_label.
Qed.


(** What the tokenizer gives a row: a count when the label of the row is
    the label of a row without a missing cell, no value else. *)
Lemma tokenize_column_values (df : DataFrame) column_name df' :
  _tokenize_column df column_name = Ok df' →
  Forall2 (λ e e', ∃ v, e' = set ("n_tokens_" +:+ column_name) v e
                        ∧ (v = NaN ↔ label e ∉ index (dropna df))
                        ∧ (v ≠ NaN → ∃ n, v = Num n)) df df'.
Proof.
  intros Hdf.
  assert (dropna df ≠ []) as Hne.
  { intros Hnil. unfold Receipe._tokenize_column in Hdf.
    by rewrite decide_True in Hdf. }
  rewrite tokenize_column_eq in Hdf by done.
  apply bind_Ok in Hdf as (s & Hs & Hset).
  pose proof (series_of_index _ _ _ Hs) as Hidx.
  assert (Forall (λ p, ∃ n, p.2 = Num n) s) as Hnums.
  { apply series_of_Ok in Hs. clear -Hs.
    induction Hs as [|e p d s [_ Hp] _ IH]; constructor; [|done].
    apply count_row_Ok in Hp as (text & _ & ->). eauto. }
  destruct (decide (NoDup (index_of s))) as [Hnd|Hnd].
  - rewrite set_column_unique in Hset by done. injection Hset as <-.
    apply Forall2_fmap_elem. intros e _. eexists. split; [done|].
    rewrite <- Hidx.
    destruct (decide (label e ∈ index_of s)) as [Hin|Hout].
    + unfold index_of in Hin.
      apply list_elem_of_fmap in Hin as ([l v] & Hl & Hp). simpl in Hl.
      subst l. rewrite (lookup_label_found s (label e) v Hnd Hp).
      rewrite Forall_forall in Hnums. destruct (Hnums _ Hp) as [n Hn].
      simpl in Hn. subst v. split; [|by eauto].
      split; [done|]. intros Hno. destruct Hno.
      by apply (list_elem_of_fmap_2 fst s (label e, Num n)).
    + rewrite lookup_label_missing by done. split; [done|]. done.
  - unfold set_column, reindex in Hset.
    destruct (decide (index_of s = index df ∨ df = [])) as [Hd|Hd].
    2:{ by rewrite decide_False in Hset by done. }
    cbn [bind] in Hset. injection Hset as <-.
    destruct Hd as [Hd| ->]; [|done].
    assert (dropna df = df) as Hall.
    { apply dropna_index_equal. by rewrite <- Hidx. }
    rewrite Hall. apply series_of_Ok in Hs. rewrite Hall in Hs.
    assert (Forall2 (λ e e', ∃ v, e' = set ("n_tokens_" +:+ column_name) v e
                                  ∧ ∃ n, v = Num n)
                    df (zip_with (set ("n_tokens_" +:+ column_name)) s.*2 df))
      as Hrows.
    { clear -Hs Hnums. induction Hs as [|e [l v] d s _ _ IH]; [constructor|].
      inversion Hnums as [|? ? [n Hn] Hnums']; subst. simpl in Hn. subst v.
      cbn [fmap list_fmap zip_with snd]. constructor; [eauto | by apply IH]. }
    eapply Forall2_impl.
    + apply (Forall2_and_Forall_l _ (λ e, label e ∈ index df) _ _ Hrows).
      apply Forall_forall. intros e He. unfold index.
      by apply list_elem_of_fmap_2.
    + intros e e' (Hin & v & -> & n & ->). exists (Num n).
      split; [done|]. split; [|by eauto]. split; [done|]. by intros Hno.
Qed.

(** When some row is left out, the counts go to the rows by their labels:
    rows under one label get one value. *)
Lemma tokenize_column_by_label (df : DataFrame) column_name df' i j e1 e2 :
  _tokenize_column df column_name = Ok df' →
  Exists (λ e, has_na e = true) df →
  df' !! i = Some e1 → df' !! j = Some e2 → label e1 = label e2 →
  cells e1 !! ("n_tokens_" +:+ column_name)
  = cells e2 !! ("n_tokens_" +:+ column_name).
Proof.
  intros Hdf Hout Hi Hj Hl.
  assert (dropna df ≠ []) as Hne.
  { intros Hnil. unfold Receipe._tokenize_column in Hdf.
    by rewrite decide_True in Hdf. }
  rewrite tokenize_column_eq in Hdf by done.
  apply bind_Ok in Hdf as (s & Hs & Hset).
  pose proof (series_of_index _ _ _ Hs) as Hidx.
  assert (NoDup (index_of s)) as Hnd.
  { destruct (decide (NoDup (index_of s))) as [|Hdup]; [done|exfalso].
    unfold set_column, reindex in Hset.
    destruct (decide (index_of s = index df ∨ df = [])) as [Hd|Hd].
    - destruct Hd as [Hd| ->]; [|by apply Exists_nil in Hout].
      rewrite Hidx in Hd. apply dropna_index_equal in Hd.
      apply Exists_exists in Hout as (e & He & Hna).
      rewrite <- Hd in He. apply dropna_elem in He as [_ ?]. congruence.
    - by rewrite decide_False in Hset. }
  rewrite set_column_unique in Hset by done. injection Hset as <-.
  rewrite list_lookup_fmap in Hi, Hj.
  destruct (df !! i) as [k1|]; [|done]. destruct (df !! j) as [k2|]; [|done].
  injection Hi as <-. injection Hj as <-. simpl in *.
  by rewrite !lookup_insert_eq, Hl.
Qed.

End TokenizerMore.

(** ** More on the pipeline *)

Lemma has_na_false e : has_na e = false ↔ ∀ c, cells e !! c ≠ Some NaN.
Proof.
  rewrite <- not_true_iff_false, has_na_true. naive_solver.
Qed.

Section MainMore.

Context (word_tokenize : str → list str) (isalpha : str → bool)
        (lower : str → str) (stop_words : gset str)
        (md5 : list N → list N) (netloc_ok : str → bool).

Abbreviation _tokenize_column :=
  (Receipe._tokenize_column word_tokenize isalpha lower stop_words).
Abbreviation n_tokens := (n_tokens word_tokenize isalpha lower stop_words).
Abbreviation main :=
  (Receipe.main word_tokenize isalpha lower stop_words md5 netloc_ok).

(** The second run of the tokenizer counts under the labels under which the
    first run counted. *)
Lemma tokenize_twice_same_labels (t t' : DataFrame) column_name l :
  _tokenize_column t column_name = Ok t' →
  l ∈ index (dropna t') ↔ l ∈ index (dropna t).
Proof.
  intros V%tokenize_column_values. unfold index. split.
  - intros (k' & -> & [[j Hj]%list_elem_of_lookup Hna]%dropna_elem)
      %list_elem_of_fmap.
    destruct (Forall2_lookup_r _ _ _ _ _ V Hj) as (k & _ & v & -> & Hv & _).
    simpl. destruct (decide (label k ∈ index (dropna t))) as [Hin|Hout];
      [done|].
    apply Hv in Hout as ->. rewrite has_na_false in Hna.
    destruct (Hna ("n_tokens_" +:+ column_name)). simpl.
    apply lookup_insert_eq.
  - intros (k & -> & Hk)%list_elem_of_fmap.
    pose proof Hk as [[j Hj]%list_elem_of_lookup Hna]%dropna_elem.
    destruct (Forall2_lookup_l _ _ _ _ _ V Hj) as (k' & Hj' & v & -> & Hv & _).
    apply (list_elem_of_fmap_2' label _ (set ("n_tokens_" +:+ column_name) v k));
      [|done].
    apply dropna_elem. split; [by eapply list_elem_of_lookup_2|].
    apply has_na_false. intros c Hc. simpl in Hc.
    destruct (decide (c = "n_tokens_" +:+ column_name)) as [->|Hne].
    + rewrite lookup_insert_eq in Hc. injection Hc as ->.
      destruct Hv as [Hv _]. apply Hv; [done|].
      by apply (list_elem_of_fmap_2 label).
    + rewrite lookup_insert_ne in Hc by done.
      rewrite has_na_false in Hna. by destruct (Hna c).
Qed.

(** X12. In the table that [main] returns the two counts of a row are there
    or missing together: the count of the title is missing exactly when the
    count of the body is. *)
Theorem main_counts_missing_together (filename : str) (df df' : DataFrame) :
  main filename df = Ok df' →
  Forall (λ e', cells e' !! "n_tokens_title" = Some NaN
                ↔ cells e' !! "n_tokens_body" = Some NaN) df'.
Proof.
  intros Hmain. unfold Receipe.main in Hmain. bind_inv Hmain.
  injection Hmain as <-.
  pose proof (λ l, tokenize_twice_same_labels _ _ _ l Hx4) as Hlabels.
  apply tokenize_column_values in Hx4 as V1.
  apply tokenize_column_values in Hx5 as V2.
  apply Forall_lookup_2. intros i e' Hi.
  destruct (Forall2_lookup_r _ _ _ _ _ V2 Hi) as (e4 & Hi4 & v2 & -> & Hv2 & _).
  destruct (Forall2_lookup_r _ _ _ _ _ V1 Hi4) as (e3 & _ & v1 & -> & Hv1 & _).
  simpl in *. rewrite lookup_insert_eq, lookup_insert_ne by done.
  rewrite lookup_insert_eq. rewrite Hlabels in Hv2.
  split; intros [= ->]; f_equal; tauto.
Qed.

(** *** The rows in front of the tokenizer *)

Lemma fill_row_cells e e' :
  fill_row e = Ok e'
  ↔ ∃ t, cells e !! "title" = Some t
         ∧ (t = NaN → ∃ u, cells e !! "uri" = Some (Str u)
                           ∧ final_segment u ≠ []
                           ∧ e' = set "title" (Str (title_of_uri u)) e)
         ∧ (t ≠ NaN → e' = e).
Proof.
  unfold fill_row. split.
  - intros (t & Ht%get_Ok & He)%bind_Ok. exists t. split; [done|].
    destruct t as [|s|n]; simpl in He.
    + apply bind_Ok in He as (v & (u & Hu & Hseg & ->)%repair_row_Ok & [= <-]).
      split; [eauto | done].
    + injection He as <-. done.
    + injection He as <-. done.
  - intros (t & Ht & Hrep & Hkeep). unfold get. rewrite Ht. cbn [bind].
    destruct t as [|s|n]; simpl.
    + destruct (Hrep eq_refl) as (u & Hu & Hseg & ->).
      assert (repair_row e = Ok (Str (title_of_uri u))) as ->
        by (apply repair_row_Ok; eauto).
      done.
    + by rewrite Hkeep.
    + by rewrite Hkeep.
Qed.

(** The stages in front of the tokenizer return a table exactly when they
    can prepare every row. *)
Lemma prepare_rows (df : DataFrame) (nu : str) (t3 : DataFrame) :
  (∃ x0 x1 x2,
     _extract_host netloc_ok (_add_newspaper_uid_column df nu) = Ok x0
     ∧ _fill_nan_data x0 = Ok x1
     ∧ _generate_uids_for_rows md5 x1 = Ok x2
     ∧ _remove_new_lines_from_body x2 = Ok t3)
  ↔ df ≠ [] ∧
    Forall2 (λ e e3, ∃ u h uid b t,
                 cells e !! "uri" = Some (Str u)
                 ∧ Urllib.netloc netloc_ok u = Ok h
                 ∧ uid_of_uri md5 u = Ok uid
                 ∧ cells e !! "body" = Some (Str b)
                 ∧ cells e !! "title" = Some t
                 ∧ (t = NaN → final_segment u ≠ [])
                 ∧ e3 = prepared_row nu u h uid b t e) df t3.
Proof.
  assert (Forall2 (λ e e0, e0 = set "newspaper_uid" (Str nu) e) df
                  (_add_newspaper_uid_column df nu)) as Hstamp.
  { unfold _add_newspaper_uid_column, set_column_scalar.
    apply Forall2_fmap_elem. done. }
  assert (∀ d0, Forall2 (λ e e0, e0 = set "newspaper_uid" (Str nu) e) df d0
                → d0 = _add_newspaper_uid_column df nu) as Hstamp_eq.
  { unfold _add_newspaper_uid_column, set_column_scalar.
    clear Hstamp. intros d0 H.
    induction H as [|e e0 d d0 -> _ IH]; [done|].
    rewrite fmap_cons. by f_equal. }
  setoid_rewrite extract_host_cells. setoid_rewrite fill_nan_data_rows.
  setoid_rewrite generate_uids_rows.
  setoid_rewrite remove_new_lines_rows.
  split.
  - intros (x0 & x1 & x2 & H0 & [_ H1] & [Hne2 H2] & H3).
    split.
    { intros ->. apply Forall2_nil_inv_l in H0 as ->.
      apply Forall2_nil_inv_l in H1 as ->. done. }
    pose proof (proj2 (Forall2_split_mid _ _ _ _)
                  (ex_intro _ _ (conj Hstamp H0))) as G1.
    pose proof (proj2 (Forall2_split_mid _ _ _ _)
                  (ex_intro _ _ (conj G1 H1))) as G2.
    pose proof (proj2 (Forall2_split_mid _ _ _ _)
                  (ex_intro _ _ (conj G2 H2))) as G3.
    pose proof (proj2 (Forall2_split_mid _ _ _ _)
                  (ex_intro _ _ (conj G3 H3))) as G4.
    eapply Forall2_impl; [exact G4|]. clear.
    intros e e4 (e3 & (e2 & (e1 & (e0 & -> & c & h & Hu & Hh & ->) & Hfill)
      & u & uid & Hu2 & Huid & ->) & b & Hb & ->).
    apply fill_row_cells in Hfill as (t & Ht & Hrep & Hkeep).
    simpl in Hu, Ht. rewrite lookup_insert_ne in Hu by done.
    rewrite !lookup_insert_ne in Ht by done.
    assert (c = Str u ∧ (t = NaN → final_segment u ≠ [])
            ∧ cells e2
              = <["title" := repaired_title t u]>
                  (<["host" := Str h]>
                     (<["newspaper_uid" := Str nu]> (cells e))))
      as (-> & Hseg & Hcells).
    { destruct (decide (t = NaN)) as [->|Hna].
      - destruct (Hrep eq_refl) as (u' & Hu' & Hseg & ->).
        simpl in Hu', Hu2. rewrite !lookup_insert_ne in Hu' by done.
        rewrite !lookup_insert_ne in Hu2 by done.
        split; [congruence|]. split; [intros _; congruence|].
        simpl. unfold repaired_title. simpl. congruence.
      - rewrite (Hkeep Hna) in Hu2 |- *. simpl in Hu2 |- *.
        rewrite !lookup_insert_ne in Hu2 by done.
        split; [congruence|]. split; [done|].
        unfold repaired_title. replace (isna t) with false by by destruct t.
        symmetry. apply insert_id. by rewrite !lookup_insert_ne. }
    simpl in Hb, Hh. rewrite lookup_delete_ne in Hb by done.
    rewrite Hcells in Hb. rewrite !lookup_insert_ne in Hb by done.
    exists u, h, uid, b, t. repeat split; try done.
    unfold prepared_row, set. simpl. by rewrite Hcells.
  - intros [Hne H].
    assert (Forall2 (λ e e4, ∃ e3, (∃ e2, (∃ e1, (∃ e0,
        e0 = set "newspaper_uid" (Str nu) e
        ∧ ∃ u h, cells e0 !! "uri" = Some (Str u)
                 ∧ Urllib.netloc netloc_ok u = Ok h
                 ∧ e1 = set "host" (Str h) e0)
        ∧ fill_row e1 = Ok e2)
        ∧ ∃ u uid, cells e2 !! "uri" = Some (Str u)
                   ∧ uid_of_uri md5 u = Ok uid
                   ∧ e3 = Entry (Str uid) (delete "uid" (cells e2)))
        ∧ ∃ b, cells e3 !! "body" = Some (Str b)
               ∧ e4 = set "body" (Str (remove_char Regex.newline b)) e3)
        df t3) as G4.
    { eapply Forall2_impl; [exact H|]. clear.
      intros e e4 (u & h & uid & b & t & Hu & Hh & Huid & Hb & Ht & Hseg & ->).
      set (e0 := set "newspaper_uid" (Str nu) e).
      set (e1 := set "host" (Str h) e0).
      set (e2 := Entry (label e) (<["title" := repaired_title t u]> (cells e1))).
      exists (Entry (Str uid) (delete "uid" (cells e2))). split.
      - exists e2. split.
        + exists e1. split.
          * exists e0. split; [done|]. exists u, h. split; [|done].
            simpl. by rewrite lookup_insert_ne.
          * apply fill_row_cells. exists t. split.
            { simpl. by rewrite !lookup_insert_ne. }
            split.
            -- intros ->. exists u. split.
               { simpl. by rewrite !lookup_insert_ne. }
               split; [by apply Hseg|]. done.
            -- intros Hna. unfold e2, repaired_title.
               replace (isna t) with false by by destruct t.
               rewrite insert_id; [done|].
               simpl. by rewrite !lookup_insert_ne.
        + exists u, uid. split; [|done]. simpl.
          by rewrite !lookup_insert_ne.
      - exists b. split; [|done]. simpl.
        rewrite lookup_delete_ne, !lookup_insert_ne by done. done. }
    apply Forall2_split_mid in G4 as (x2 & G3 & H3).
    apply Forall2_split_mid in G3 as (x1 & G2 & H2).
    apply Forall2_split_mid in G2 as (x0 & G1 & H1).
    apply Forall2_split_mid in G1 as (d0 & G0 & H0).
    apply Hstamp_eq in G0 as ->.
    exists x0, x1, x2. split.
    { eapply Forall2_impl; [exact H0|].
      intros e0 e1 (u & h & ? & ? & ->). exists (Str u), h. done. }
    split.
    { split; [|done]. apply text_column_texts.
      eapply Forall2_Forall_r; [exact H0|]. apply Forall_true.
      intros e0 e1 (u & h & Hu & _ & ->). exists u. simpl.
      by rewrite lookup_insert_ne. }
    split; [|done]. split; [|done].
    intros ->. apply Forall2_nil_inv_r in H1 as ->.
    apply Forall2_nil_inv_r in H0.
    apply (f_equal length) in H0. unfold _add_newspaper_uid_column,
      set_column_scalar in H0. rewrite length_fmap in H0.
    by destruct df.
Qed.

(** [main] returns the table that the tokenizer, run on [title] and then on
    [body], makes of the prepared rows. *)
Lemma main_rows (filename : str) (df df' : DataFrame) :
  main filename df = Ok df'
  ↔ df ≠ [] ∧
    ∃ nu t3 t4,
      _extract_newspaper_uid filename = Ok nu
      ∧ Forall2 (λ e e3, ∃ u h uid b t,
                   cells e !! "uri" = Some (Str u)
                   ∧ Urllib.netloc netloc_ok u = Ok h
                   ∧ uid_of_uri md5 u = Ok uid
                   ∧ cells e !! "body" = Some (Str b)
                   ∧ cells e !! "title" = Some t
                   ∧ (t = NaN → final_segment u ≠ [])
                   ∧ e3 = prepared_row nu u h uid b t e) df t3
      ∧ _tokenize_column t3 "title" = Ok t4
      ∧ _tokenize_column t4 "body" = Ok df'.
Proof.
  unfold Receipe.main.
  pose proof (prepare_rows df) as Hprep.
  split.
  - intros H. bind_inv H. injection H as <-.
    destruct (proj1 (Hprep x x3)) as [Hne Hrows]; [by eauto 10|].
    split; [done|]. exists x, x3, x4. done.
  - intros (Hne & nu & t3 & t4 & Hnu & Hrows & Ht4 & Hdf').
    destruct (proj2 (Hprep nu t3)) as (x0 & x1 & x2 & H0 & H1 & H2 & H3);
      [done|].
    rewrite Hnu. cbn [bind]. rewrite H0. cbn [bind]. rewrite H1. cbn [bind].
    rewrite H2. cbn [bind]. rewrite H3. cbn [bind]. rewrite Ht4. cbn [bind].
    by rewrite Hdf'.
Qed.

Lemma prepared_row_lookup nu u h uid b t e c :
  cells (prepared_row nu u h uid b t e) !! c
  = if decide (c = "body") then Some (Str (remove_char Regex.newline b))
    else if decide (c = "uid") then None
    else if decide (c = "title") then Some (repaired_title t u)
    else if decide (c = "host") then Some (Str h)
    else if decide (c = "newspaper_uid") then Some (Str nu)
    else cells e !! c.
Proof.
  unfold prepared_row. simpl.
  repeat case_decide; subst;
    rewrite ?lookup_insert_eq, ?lookup_insert_ne, ?lookup_delete_eq,
            ?lookup_delete_ne, ?lookup_insert_eq, ?lookup_insert_ne,
            ?lookup_insert_eq, ?lookup_insert_ne, ?lookup_insert_eq,
            ?lookup_insert_ne by done; done.
Qed.

Arguments prepared_row : simpl never.

Lemma repaired_title_not_missing t u : repaired_title t u ≠ NaN.
Proof. unfold repaired_title. by destruct t. Qed.

(** X13. What [main] needs to return a table: the table that was read has
    rows; every uri and every body is a text; the uri of a row without a
    title is not empty and does not end in a slash; and some row has no
    missing cell outside the columns that the stages write. *)
Theorem main_returns_only_if (filename : str) (df df' : DataFrame) :
  main filename df = Ok df' →
  df ≠ []
  ∧ Forall (λ e, ∃ u b t,
              cells e !! "uri" = Some (Str u)
              ∧ cells e !! "body" = Some (Str b)
              ∧ cells e !! "title" = Some t
              ∧ (t = NaN → u ≠ [] ∧ last u ≠ Some Regex.slash)) df
  ∧ Exists (λ e, ∀ c, c ∉ ["title"; "body"; "host"; "newspaper_uid"; "uid"] →
                      cells e !! c ≠ Some NaN) df.
Proof.
  intros (Hne & nu & t3 & t4 & _ & Hrows & Ht4 & _)%main_rows.
  split; [done|]. split.
  - clear -Hrows.
    induction Hrows as [|e e3 df t3 (u & h & uid & b & t & Hu & _ & _ & Hb
                                       & Ht & Hseg & _) _ IH];
      constructor; [|done].
    exists u, b, t. split; [done|]. split; [done|]. split; [done|].
    intros ->. specialize (Hseg eq_refl). rewrite final_segment_empty in Hseg.
    split; intros ?; apply Hseg; auto.
  - assert (dropna t3 ≠ []) as Hkept.
    { intros Hnil. unfold Receipe._tokenize_column in Ht4.
      by rewrite Hnil in Ht4. }
    destruct (dropna t3) as [|e3 k] eqn:Hd; [done|].
    assert (e3 ∈ dropna t3) as [[i Hi]%list_elem_of_lookup Hna]%dropna_elem
      by (rewrite Hd; left).
    destruct (Forall2_lookup_r _ _ _ _ _ Hrows Hi)
      as (e & He%list_elem_of_lookup_2 & u & h & uid & b & t & _ & _ & _ & _
            & _ & _ & ->).
    apply Exists_exists. exists e. split; [done|]. intros c Hc.
    rewrite has_na_false in Hna. specialize (Hna c).
    rewrite prepared_row_lookup in Hna.
    repeat case_decide; subst; try done; set_solver.
Qed.

(** X14. What every row of the table that [main] returns has: a text as
    index label and no column [uid], a text as host, a title that is not
    missing, and a text without newline as body. *)
Theorem main_output_rows (filename : str) (df df' : DataFrame) :
  main filename df = Ok df' →
  Forall (λ e', (∃ uid, label e' = Str uid)
                ∧ cells e' !! "uid" = None
                ∧ (∃ h, cells e' !! "host" = Some (Str h))
                ∧ (∃ t, cells e' !! "title" = Some t ∧ t ≠ NaN)
                ∧ (∃ b, cells e' !! "body" = Some (Str b)
                        ∧ Regex.newline ∉ b)) df'.
Proof.
  intros (_ & nu & t3 & t4 & _ & Hrows & Ht4 & Hdf')%main_rows.
  apply tokenize_column_sets in Ht4, Hdf'.
  apply Forall_lookup_2. intros i e' Hi.
  destruct (Forall2_lookup_r _ _ _ _ _ Hdf' Hi) as (e4 & Hi4 & v2 & ->).
  destruct (Forall2_lookup_r _ _ _ _ _ Ht4 Hi4) as (e3 & Hi3 & v1 & ->).
  destruct (Forall2_lookup_r _ _ _ _ _ Hrows Hi3)
    as (e & _ & u & h & uid & b & t & _ & _ & _ & _ & _ & _ & ->).
  cbn [set cells label String.append]. simpl String.append.
  rewrite !lookup_insert_ne by done. rewrite !prepared_row_lookup. simpl.
  repeat split; eauto using repaired_title_not_missing, remove_char_gone.
Qed.

Lemma extract_newspaper_uid_total (filename : str) :
  ∃ nu, _extract_newspaper_uid filename = Ok nu.
Proof.
  unfold _extract_newspaper_uid. pose proof (split_nonempty (chr "_") filename).
  destruct (split (chr "_") filename); [done | by eexists].
Qed.

(** X15. On a table with rows in which every uri is a text that [urlparse]
    accepts and UTF-8 can encode, every body is a text, every title is a
    text or is missing beside a uri with a final segment, and no other cell
    is missing, [main] returns a table, and every row of it has both
    counts: that of its title, repaired where it was missing, and that of
    its body without newlines. *)
Theorem main_completes_on_clean_table (filename : str) (df : DataFrame) :
  df ≠ [] →
  Forall (λ e, ∃ u h bytes b t,
            cells e !! "uri" = Some (Str u)
            ∧ Urllib.netloc netloc_ok u = Ok h
            ∧ encode u = Ok bytes
            ∧ cells e !! "body" = Some (Str b)
            ∧ cells e !! "title" = Some t
            ∧ (t = NaN ∧ final_segment u ≠ [] ∨ ∃ s, t = Str s)
            ∧ (∀ c, c ≠ "title" → cells e !! c ≠ Some NaN)) df →
  ∃ df', main filename df = Ok df'
    ∧ Forall2 (λ e e', ∃ u b t s,
                 cells e !! "uri" = Some (Str u)
                 ∧ cells e !! "body" = Some (Str b)
                 ∧ cells e !! "title" = Some t
                 ∧ repaired_title t u = Str s
                 ∧ cells e' !! "n_tokens_title" = Some (Num (n_tokens s))
                 ∧ cells e' !! "n_tokens_body"
                   = Some (Num (n_tokens (remove_char Regex.newline b))))
              df df'.
Proof.
  intros Hne Hclean.
  destruct (extract_newspaper_uid_total filename) as [nu Hnu].
  assert (∃ t3, Forall2 (λ e e3, ∃ u h uid b t s,
                   cells e !! "uri" = Some (Str u)
                   ∧ Urllib.netloc netloc_ok u = Ok h
                   ∧ uid_of_uri md5 u = Ok uid
                   ∧ cells e !! "body" = Some (Str b)
                   ∧ cells e !! "title" = Some t
                   ∧ (t = NaN → final_segment u ≠ [])
                   ∧ repaired_title t u = Str s
                   ∧ (∀ c, c ≠ "title" → cells e !! c ≠ Some NaN)
                   ∧ e3 = prepared_row nu u h uid b t e) df t3)
    as [t3 Ht3].
  { clear Hne. induction Hclean as [|e df (u & h & bytes & b & t & Hu & Hh
        & Hbytes & Hb & Ht & Htitle & Hrest) _ [t3 IH]].
    - exists []. constructor.
    - eexists (_ :: t3). constructor; [|done].
      exists u, h, (hex (md5 bytes)), b, t.
      exists (match t with Str s => s | _ => title_of_uri u end).
      repeat split; try done.
      + unfold uid_of_uri. by rewrite Hbytes.
      + intros ->. destruct Htitle as [[_ ?]|[s ?]]; done.
      + destruct Htitle as [[-> _]|[s ->]]; done. }
  assert (Forall (λ e3, has_na e3 = false
                        ∧ ∃ text, cells e3 !! "title" = Some (Str text)) t3)
    as Hcomplete3.
  { apply Forall_lookup_2. intros i e3 Hi.
    destruct (Forall2_lookup_r _ _ _ _ _ Ht3 Hi)
      as (e & _ & u & h & uid & b & t & s & _ & _ & _ & _ & _ & _ & Hs
            & Hrest & ->).
    split.
    - apply has_na_false. intros c. rewrite prepared_row_lookup.
      repeat case_decide; subst; try done.
      + rewrite Hs. done.
      + by apply Hrest.
    - exists s. rewrite prepared_row_lookup. simpl. by rewrite Hs. }
  assert (t3 ≠ []) as Hne3.
  { intros ->. apply Forall2_nil_inv_r in Ht3. done. }
  destruct (tokenize_column_complete word_tokenize isalpha lower stop_words
              t3 "title" Hne3 Hcomplete3) as (t4 & Ht4 & Hrows4).
  assert (Forall (λ e4, has_na e4 = false
                        ∧ ∃ text, cells e4 !! "body" = Some (Str text)) t4)
    as Hcomplete4.
  { apply Forall_lookup_2. intros i e4 Hi.
    destruct (Forall2_lookup_r _ _ _ _ _ Hrows4 Hi)
      as (e3 & Hi3 & text & _ & ->).
    destruct (Forall_lookup_1 _ _ _ _ Hcomplete3 Hi3) as [Hna _].
    destruct (Forall2_lookup_r _ _ _ _ _ Ht3 Hi3)
      as (e & _ & u & h & uid & b & t & s & _ & _ & _ & _ & _ & _ & _
            & _ & ->).
    split.
    - apply has_na_false. intros c Hc. simpl in Hc.
      destruct (decide (c = "n_tokens_title")) as [->|Hcne].
      + by rewrite lookup_insert_eq in Hc.
      + rewrite lookup_insert_ne in Hc by done.
        rewrite has_na_false in Hna. by destruct (Hna c).
    - eexists. unfold set. cbn [cells]. rewrite lookup_insert_ne by done.
      by rewrite prepared_row_lookup. }
  assert (t4 ≠ []) as Hne4.
  { intros ->. apply Forall2_nil_inv_r in Hrows4. done. }
  destruct (tokenize_column_complete word_tokenize isalpha lower stop_words
              t4 "body" Hne4 Hcomplete4) as (df' & Hdf' & Hrows5).
  exists df'. split.
  - apply main_rows. split; [done|]. exists nu, t3, t4.
    repeat split; try done.
    eapply Forall2_impl; [exact Ht3|].
    intros e e3 (u & h & uid & b & t & s & ? & ? & ? & ? & ? & ? & _ & _ & ?).
    exists u, h, uid, b, t. done.
  - assert (Forall2 (λ e3 e', ∃ text1 text2,
        cells e3 !! "title" = Some (Str text1)
        ∧ cells (set ("n_tokens_" +:+ "title") (Num (n_tokens text1)) e3)
            !! "body" = Some (Str text2)
        ∧ e' = set ("n_tokens_" +:+ "body") (Num (n_tokens text2))
                   (set ("n_tokens_" +:+ "title") (Num (n_tokens text1)) e3))
        t3 df') as Hrows35.
    { eapply Forall2_trans; [|exact Hrows4|exact Hrows5].
      intros x y z (text1 & H1 & ->) (text2 & H2 & ->). eauto. }
    eapply Forall2_trans; [|exact Ht3|exact Hrows35].
    intros e e3 e' (u & h & uid & b & t & s & Hu & _ & _ & Hb & Ht & _ & Hs
                      & _ & ->)
           (text1 & text2 & Htext1 & Htext2 & ->).
    exists u, b, t, s. repeat split; try done.
    + simpl. rewrite lookup_insert_ne, lookup_insert_eq by done.
      rewrite prepared_row_lookup in Htext1. simpl in Htext1.
      rewrite Hs in Htext1. by injection Htext1 as <-.
    + simpl. rewrite lookup_insert_eq.
      unfold set in Htext2. cbn [cells] in Htext2.
      rewrite lookup_insert_ne in Htext2 by done.
      rewrite prepared_row_lookup in Htext2. simpl in Htext2.
      by injection Htext2 as <-.
Qed.

Lemma main_prepared (filename : str) (df : DataFrame) nu t3 :
  _extract_newspaper_uid filename = Ok nu →
  df ≠ [] →
  Forall2 (λ e e3, ∃ u h uid b t,
             cells e !! "uri" = Some (Str u)
             ∧ Urllib.netloc netloc_ok u = Ok h
             ∧ uid_of_uri md5 u = Ok uid
             ∧ cells e !! "body" = Some (Str b)
             ∧ cells e !! "title" = Some t
             ∧ (t = NaN → final_segment u ≠ [])
             ∧ e3 = prepared_row nu u h uid b t e) df t3 →
  main filename df
  = (do t4 <- _tokenize_column t3 "title";
     do df' <- _tokenize_column t4 "body";
     Ok df').
Proof.
  intros Hnu Hne Hrows.
  destruct (proj2 (prepare_rows df nu t3)) as (x0 & x1 & x2 & H0 & H1 & H2 & H3);
    [done|].
  unfold Receipe.main. rewrite Hnu. cbn [bind]. rewrite H0. cbn [bind].
  rewrite H1. cbn [bind]. rewrite H2. cbn [bind]. rewrite H3. done.
Qed.

(** X18. An article that was read twice stops the pipeline as soon as some
    row has a missing cell: on a table whose rows the stages in front of
    the tokenizer accept, with two rows of one uri that have no missing
    cell outside the columns that the stages write and a row that has
    one, [main] raises [ValueError], because the two rows share their uid
    and the counts cannot be aligned on the index. *)
Theorem main_raises_on_repeated_uri
    (filename : str) (df before between after : DataFrame) (e1 e2 : entry) :
  df = before ++ e1 :: between ++ e2 :: after →
  Forall (λ e, ∃ u h bytes b t,
            cells e !! "uri" = Some (Str u)
            ∧ Urllib.netloc netloc_ok u = Ok h
            ∧ encode u = Ok bytes
            ∧ cells e !! "body" = Some (Str b)
            ∧ cells e !! "title" = Some t
            ∧ (t = NaN ∧ final_segment u ≠ [] ∨ ∃ s, t = Str s)) df →
  cells e1 !! "uri" = cells e2 !! "uri" →
  (∀ c, c ∉ ["title"; "body"; "host"; "newspaper_uid"; "uid"] →
        cells e1 !! c ≠ Some NaN ∧ cells e2 !! c ≠ Some NaN) →
  Exists (λ e, ∃ c, (c ∉ ["title"; "body"; "host"; "newspaper_uid"; "uid"])
                    ∧ cells e !! c = Some NaN) df →
  main filename df = Raise ValueError.
Proof.
  intros Hdf Hclean Huri Hcomplete Hmissing.
  destruct (extract_newspaper_uid_total filename) as [nu Hnu].
  assert (∃ t3, Forall2 (λ e e3, ∃ u h uid b t s,
                   cells e !! "uri" = Some (Str u)
                   ∧ Urllib.netloc netloc_ok u = Ok h
                   ∧ uid_of_uri md5 u = Ok uid
                   ∧ cells e !! "body" = Some (Str b)
                   ∧ cells e !! "title" = Some t
                   ∧ (t = NaN → final_segment u ≠ [])
                   ∧ repaired_title t u = Str s
                   ∧ e3 = prepared_row nu u h uid b t e) df t3)
    as [t3 Ht3].
  { clear Hdf Hmissing.
    induction Hclean as [|e df (u & h & bytes & b & t & Hu & Hh
        & Hbytes & Hb & Ht & Htitle) _ [t3 IH]].
    - exists []. constructor.
    - eexists (_ :: t3). constructor; [|done].
      exists u, h, (hex (md5 bytes)), b, t.
      exists (match t with Str s => s | _ => title_of_uri u end).
      repeat split; try done.
      + unfold uid_of_uri. by rewrite Hbytes.
      + intros ->. destruct Htitle as [[_ ?]|[s ?]]; done.
      + destruct Htitle as [[-> _]|[s ->]]; done. }
  assert (df ≠ []) as Hne.
  { rewrite Hdf. by destruct before. }
  rewrite (main_prepared filename df nu t3 Hnu Hne).
  2:{ eapply Forall2_impl; [exact Ht3|].
      intros e e3 (u & h & uid & b & t & s & ? & ? & ? & ? & ? & ? & _ & ?).
      exists u, h, uid, b, t. done. }
  rewrite (tokenize_column_shared_label word_tokenize isalpha lower stop_words
             t3 "title"); [done|..].
  - intros e3 [i Hi]%list_elem_of_lookup _.
    destruct (Forall2_lookup_r _ _ _ _ _ Ht3 Hi)
      as (e & _ & u & h & uid & b & t & s & _ & _ & _ & _ & _ & _ & Hs & ->).
    exists s. rewrite prepared_row_lookup. simpl. by rewrite Hs.
  - apply Exists_exists in Hmissing as (e & [i Hi]%list_elem_of_lookup
                                          & c & Hc & Hna).
    destruct (Forall2_lookup_l _ _ _ _ _ Ht3 Hi)
      as (e3 & Hi3 & u & h & uid & b & t & s & _ & _ & _ & _ & _ & _ & _ & ->).
    apply Exists_exists. eexists. split; [by eapply list_elem_of_lookup_2|].
    apply has_na_true. exists c. rewrite prepared_row_lookup.
    repeat case_decide; subst; try done; set_solver.
  - rewrite Hdf in Ht3.
    apply Forall2_app_inv_l in Ht3 as (b3 & r3 & _ & Ht3 & ->).
    apply Forall2_cons_inv_l in Ht3 as (e13 & r3' & He1 & Ht3 & ->).
    apply Forall2_app_inv_l in Ht3 as (m3 & r3 & _ & Ht3 & ->).
    apply Forall2_cons_inv_l in Ht3 as (e23 & a3 & He2 & _ & ->).
    assert (∀ e e3 u h uid b t s,
              (∀ c, c ∉ ["title"; "body"; "host"; "newspaper_uid"; "uid"] →
                    cells e !! c ≠ Some NaN) →
              repaired_title t u = Str s →
              e3 = prepared_row nu u h uid b t e →
              has_na e3 = false) as Hkept.
    { intros e e3 u h uid b t s Hc Hs ->. apply has_na_false. intros c.
      rewrite prepared_row_lookup.
      repeat case_decide; subst; try done.
      - by rewrite Hs.
      - apply Hc. set_solver. }
    destruct He1 as (u1 & h1 & uid1 & b1 & t1 & s1 & Hu1 & _ & Huid1 & _ & _
                       & _ & Hs1 & He1).
    destruct He2 as (u2 & h2 & uid2 & b2 & t2 & s2 & Hu2 & _ & Huid2 & _ & _
                       & _ & Hs2 & He2).
    assert (has_na e13 = false) as Hna1.
    { eapply Hkept; [|exact Hs1|exact He1]. intros c Hc.
      by apply Hcomplete. }
    assert (has_na e23 = false) as Hna2.
    { eapply Hkept; [|exact Hs2|exact He2]. intros c Hc.
      by apply Hcomplete. }
    assert (label e13 = label e23) as Hlabel.
    { rewrite He1, He2. simpl. rewrite Hu1, Hu2 in Huri.
      injection Huri as ->. congruence. }
    unfold index, dropna.
    rewrite filter_app, filter_cons_True, filter_app, filter_cons_True
      by done.
    rewrite fmap_app, fmap_cons, fmap_app, fmap_cons.
    intros [_ [_ Hnd]]%NoDup_app. apply NoDup_cons in Hnd as [Hin _].
    apply Hin. rewrite Hlabel. apply elem_of_app. right. by left.
Qed.

Lemma prepared_row_has_na nu u h uid b t e :
  has_na (prepared_row nu u h uid b t e) = true
  ↔ missing_outside prepared_columns e.
Proof.
  rewrite has_na_true. unfold missing_outside, prepared_columns. split.
  - intros [c Hc]. rewrite prepared_row_lookup in Hc.
    exists c. repeat case_decide; subst; try done.
    + injection Hc as Hc. by apply repaired_title_not_missing in Hc.
    + split; [set_solver | done].
  - intros (c & Hc & Hna). exists c. rewrite prepared_row_lookup.
    repeat case_decide; subst; try done; set_solver.
Qed.

(** C9, as the code has it.  When the pipeline completes, the table it
    returns has the rows of the table that was read, one for one and in
    their order: as many rows, and every row still there with a cell in both
    count columns.  The tokenizer itself never drops a row of the table it
    is given.  A row is left out of the counts when it was read with a
    missing value in a column that the stages in front of the tokenizer do
    not write; the counts are put back by the uid labels, so a count is
    missing in a row exactly when every row under its label was left out,
    and a row read with a missing value in a column that no stage writes
    has, in both count columns, what every row under its label has. *)
Theorem main_keeps_every_row (filename : str) (df df' : DataFrame) :
  main filename df = Ok df' →
  length df' = length df
  ∧ Forall2 (writes ("newspaper_uid" :: later_columns)) df df'
  ∧ Forall (λ e', is_Some (cells e' !! "n_tokens_title")
                  ∧ is_Some (cells e' !! "n_tokens_body")) df'
  ∧ (∀ t column_name t', _tokenize_column t column_name = Ok t' →
                         length t' = length t)
  ∧ (∀ i e e' c,
       df !! i = Some e → df' !! i = Some e' →
       c ∈ ["n_tokens_title"; "n_tokens_body"] →
       (cells e' !! c = Some NaN
        ↔ ∀ j e2 e2', df !! j = Some e2 → df' !! j = Some e2' →
                      label e2' = label e' →
                      missing_outside prepared_columns e2)
       ∧ (missing_outside ("newspaper_uid" :: later_columns) e →
          ∀ j e2', df' !! j = Some e2' → label e2' = label e' →
                   cells e2' !! c = cells e' !! c)).
Proof.
  intros Hmain.
  assert (Forall2 (writes ("newspaper_uid" :: later_columns)) df df') as Hrows.
  { destruct (main_stages _ _ _ _ _ _ _ _ _ Hmain) as (uid & _ & Hlater).
    apply (Forall2_writes_trans ["newspaper_uid"] later_columns _ _ _
             (add_newspaper_uid_column_writes df uid) Hlater). }
  split; [symmetry; by eapply Forall2_length|]. split; [done|].
  apply main_rows in Hmain as (_ & nu & t3 & t4 & _ & Hprep & Ht4 & Hdf').
  pose proof (tokenize_column_sets _ _ _ _ _ _ _ Ht4) as S1.
  pose proof (tokenize_column_sets _ _ _ _ _ _ _ Hdf') as S2.
  split.
  { apply Forall_lookup_2. intros i e' Hi.
    destruct (Forall2_lookup_r _ _ _ _ _ S2 Hi) as (e4 & Hi4 & v2 & ->).
    destruct (Forall2_lookup_r _ _ _ _ _ S1 Hi4) as (e3 & _ & v1 & ->).
    simpl. rewrite lookup_insert_eq, lookup_insert_ne by done.
    rewrite lookup_insert_eq. eauto. }
  split.
  { intros t column_name t' Ht%tokenize_column_sets.
    symmetry. by eapply Forall2_length. }
  pose proof (λ l, tokenize_twice_same_labels _ _ _ l Ht4) as Hlabels.
  pose proof (tokenize_column_values _ _ _ _ _ _ _ Ht4) as V1.
  pose proof (tokenize_column_values _ _ _ _ _ _ _ Hdf') as V2.
  (* the rows of the four tables at one position *)
  assert (∀ j e2 e2', df !! j = Some e2 → df' !! j = Some e2' →
            ∃ e3 e4 v1 v2,
              t3 !! j = Some e3 ∧ t4 !! j = Some e4
              ∧ e4 = set "n_tokens_title" v1 e3
              ∧ e2' = set "n_tokens_body" v2 e4
              ∧ (v1 = NaN ↔ label e3 ∉ index (dropna t3))
              ∧ (v2 = NaN ↔ label e3 ∉ index (dropna t3))
              ∧ (has_na e3 = true ↔ missing_outside prepared_columns e2))
    as Hat.
  { intros j e2 e2' Hj Hj'.
    destruct (Forall2_lookup_l _ _ _ _ _ Hprep Hj)
      as (e3 & Hj3 & u & h & uid & b & t & _ & _ & _ & _ & _ & _ & ->).
    destruct (Forall2_lookup_l _ _ _ _ _ V1 Hj3)
      as (e4 & Hj4 & v1 & -> & Hv1 & _).
    destruct (Forall2_lookup_l _ _ _ _ _ V2 Hj4)
      as (e5 & Hj5 & v2 & -> & Hv2 & _).
    rewrite Hj' in Hj5. injection Hj5 as ->.
    eexists _, _, v1, v2. repeat split; try done.
    - apply Hv1.
    - apply Hv1.
    - intros Hv. apply Hv2 in Hv. simpl in Hv. by rewrite Hlabels in Hv.
    - intros Hv. apply Hv2. simpl. by rewrite Hlabels.
    - apply prepared_row_has_na.
    - apply prepared_row_has_na. }
  assert (∀ l, l ∈ index (dropna t3)
               ↔ ∃ j e2 e2', df !! j = Some e2 ∧ df' !! j = Some e2'
                             ∧ label e2' = l
                             ∧ ¬ missing_outside prepared_columns e2)
    as Hcounted.
  { intros l. unfold index. split.
    - intros (e3 & -> & [[j Hj3]%list_elem_of_lookup Hna]%dropna_elem)
        %list_elem_of_fmap.
      destruct (Forall2_lookup_r _ _ _ _ _ Hprep Hj3) as (e2 & Hj & _).
      destruct (Forall2_lookup_l _ _ _ _ _ Hrows Hj) as (e2' & Hj' & _).
      destruct (Hat j e2 e2' Hj Hj')
        as (e3' & e4 & v1 & v2 & Hj3' & _ & He4 & He2' & _ & _ & Hex).
      rewrite Hj3 in Hj3'. injection Hj3' as <-.
      exists j, e2, e2'. repeat split; try done.
      + by rewrite He2', He4.
      + intros Hm%Hex. congruence.
    - intros (j & e2 & e2' & Hj & Hj' & <- & Hm).
      destruct (Hat j e2 e2' Hj Hj')
        as (e3 & e4 & v1 & v2 & Hj3 & _ & -> & -> & _ & _ & Hex).
      apply (list_elem_of_fmap_2' label _ e3); [|done].
      apply dropna_elem. split; [by eapply list_elem_of_lookup_2|].
      destruct (has_na e3); [|done]. destruct Hm. by apply Hex. }
  intros i e e' c Hi Hi' Hc.
  destruct (Hat i e e' Hi Hi')
    as (e3 & e4 & v1 & v2 & Hi3 & Hi4 & -> & -> & Hv1 & Hv2 & Hex).
  assert (cells (set "n_tokens_body" v2 (set "n_tokens_title" v1 e3)) !! c
          = Some NaN
          ↔ label e3 ∉ index (dropna t3)) as Hnan.
  { apply elem_of_cons in Hc as [->|Hc];
      [|apply list_elem_of_singleton in Hc as ->]; simpl.
    - rewrite lookup_insert_ne, lookup_insert_eq by done.
      rewrite <- Hv1. split; [by intros [= ->] | by intros ->].
    - rewrite lookup_insert_eq.
      rewrite <- Hv2. split; [by intros [= ->] | by intros ->]. }
  split.
  - rewrite Hnan, Hcounted. simpl. split.
    + intros Hno j e2 e2' Hj Hj' Hl.
      destruct (Hat j e2 e2' Hj Hj')
        as (k3 & k4 & w1 & w2 & _ & _ & _ & _ & _ & _ & Hex2).
      destruct (has_na k3) eqn:Hna; [by apply Hex2|].
      exfalso. apply Hno. exists j, e2, e2'. repeat split; try done.
      intros Hm%Hex2. congruence.
    + intros Hall (j & e2 & e2' & Hj & Hj' & Hl & Hm).
      apply Hm. by eapply Hall.
  - intros (c0 & Hc0 & Hna0) j e2' Hj' Hl.
    assert (cells e3 !! c0 = Some NaN) as Hna3.
    { destruct (Forall2_lookup_lr _ _ _ _ _ _ Hprep Hi Hi3)
        as (u & h & uid & b & t & _ & _ & _ & _ & _ & _ & ->).
      rewrite prepared_row_lookup.
      unfold later_columns in Hc0.
      repeat case_decide; subst; try done; set_solver. }
    assert (c0 ≠ "n_tokens_title") as Hct.
    { intros ->. apply Hc0. unfold later_columns. set_solver. }
    destruct (Forall2_lookup_r _ _ _ _ _ S2 Hj') as (k4 & Hj4 & w2 & ->).
    assert (Exists (λ k, has_na k = true) t3) as Hout3.
    { apply Exists_exists. exists e3.
      split; [by eapply list_elem_of_lookup_2|]. apply has_na_true. eauto. }
    assert (Exists (λ k, has_na k = true) t4) as Hout4.
    { apply Exists_exists. exists (set "n_tokens_title" v1 e3).
      split; [by eapply list_elem_of_lookup_2|].
      apply has_na_true. exists c0. simpl. by rewrite lookup_insert_ne. }
    apply elem_of_cons in Hc as [->|Hc];
      [|apply list_elem_of_singleton in Hc as ->].
    + trans (cells k4 !! "n_tokens_title");
        [simpl; by apply lookup_insert_ne|].
      trans (cells (set "n_tokens_title" v1 e3) !! "n_tokens_title");
        [|symmetry; simpl; by apply lookup_insert_ne].
      exact (tokenize_column_by_label word_tokenize isalpha lower stop_words
               t3 "title" t4 j i _ _ Ht4 Hout3 Hj4 Hi4 Hl).
    + exact (tokenize_column_by_label word_tokenize isalpha lower stop_words
               t4 "body" df' j i _ _ Hdf' Hout4 Hj' Hi' Hl).
Qed.

End MainMore.

(** ** More on the host *)

Lemma find_None (c : char) (s : str) : find c s = None → c ∉ s.
Proof.
  induction s as [|d s IH]; cbn [find]; [by intros _ ?%elem_of_nil|].
  case_decide; [done|]. destruct (find c s); [done|].
  intros _. apply not_elem_of_cons. split; [congruence | by apply IH].
Qed.

Lemma find_Some_take (c : char) (s : str) i :
  find c s = Some i → c ∉ take i s.
Proof.
  revert i. induction s as [|d s IH]; intros i; cbn [find]; [done|].
  case_decide.
  - intros [= <-]. by intros ?%elem_of_nil.
  - destruct (find c s) as [j|]; [|done]. intros [= <-]. cbn [take].
    apply not_elem_of_cons. split; [congruence | by apply IH].
Qed.

Lemma find_app_notin (c : char) (pre s : str) :
  c ∉ pre → find c (pre ++ s) = (λ i, length pre + i) <$> find c s.
Proof.
  induction pre as [|d pre IH]; intros Hc; cbn [app find length].
  - by destruct (find c s).
  - apply not_elem_of_cons in Hc as [Hd Hpre].
    rewrite decide_False by congruence. rewrite IH by done.
    by destruct (find c s).
Qed.

Lemma splitnetloc_no_delimiter (url : str) start (c : char) :
  c ∈ [chr "/"; chr "?"; chr "#"] → c ∉ Urllib.splitnetloc url start.
Proof.
  intros Hc. unfold Urllib.splitnetloc. cbn [foldl].
  set (delim := _ `min` _ : nat) || idtac.
  match goal with |- _ ∉ drop start (take ?d url) => set (delim := d) end.
  destruct (decide (delim ≤ start)) as [Hle|Hgt].
  { rewrite drop_ge; [by intros ?%elem_of_nil|]. rewrite length_take. lia. }
  replace delim with (start + (delim - start)) by lia.
  rewrite <- take_drop_commute.
  destruct (find c (drop start url)) as [i|] eqn:Hfind.
  - assert (delim - start ≤ i) as Hi.
    { unfold delim, Urllib.find_from.
      apply elem_of_cons in Hc as [->|Hc];
        [|apply elem_of_cons in Hc as [->|Hc];
          [|apply list_elem_of_singleton in Hc as ->]];
        rewrite Hfind; cbn [fmap option_fmap option_map];
        repeat match goal with
               | |- context [find ?d (drop start url)] =>
                   destruct (find d (drop start url));
                   cbn [fmap option_fmap option_map]
               end; lia. }
    intros Hin. apply (find_Some_take _ _ _ Hfind).
    replace (delim - start) with ((delim - start) `min` i) in Hin by lia.
    rewrite <- take_take in Hin. by apply subseteq_take in Hin.
  - intros Hin%subseteq_take. by apply (find_None _ _ Hfind).
Qed.

Section HostMore.

Context (netloc_ok : str → bool).

Abbreviation _extract_host := (Receipe._extract_host netloc_ok).

Lemma netloc_no_delimiter (u h : str) (c : char) :
  Urllib.netloc netloc_ok u = Ok h →
  c ∈ [chr "/"; chr "?"; chr "#"] → c ∉ h.
Proof.
  unfold Urllib.netloc. case_decide.
  - destruct (_ || _); [done|]. destruct (netloc_ok _); [|done].
    intros [= <-]. apply splitnetloc_no_delimiter.
  - intros [= <-] _. by intros ?%elem_of_nil.
Qed.

(** X16. The host that the host stage writes for a uri that is a text is a
    text without slash, question mark or hash: the network location ends in
    front of the first of them. *)
Theorem host_has_no_delimiter (df df' : DataFrame) :
  _extract_host df = Ok df' →
  Forall2 (λ e e', ∀ u, cells e !! "uri" = Some (Str u) →
             ∃ h, cells e' !! "host" = Some (Str h)
                  ∧ (chr "/" ∉ h) ∧ (chr "?" ∉ h) ∧ (chr "#" ∉ h)) df df'.
Proof.
  intros H%extract_host_cells. eapply Forall2_impl; [exact H|].
  intros e e' (c & h & Hc & Hh & ->) u Hu.
  rewrite Hu in Hc. injection Hc as <-. simpl in Hh.
  exists h. split; [simpl; apply lookup_insert_eq|].
  repeat split; eapply netloc_no_delimiter; try exact Hh; set_solver.
Qed.

End HostMore.

(** ** The host of a uri of the usual form *)

Lemma filter_all {A} (P : A → Prop) `{!∀ x, Decision (P x)} (l : list A) :
  Forall P l → filter P l = l.
Proof.
  induction 1 as [|x l Hx _ IH]; [done|].
  by rewrite filter_cons_True, IH.
Qed.

Abbreviation remove_unsafe s :=
  (foldl (λ u b, remove_char b u) s Urllib.unsafe_url_bytes_to_remove)
  (only parsing).

Lemma remove_unsafe_app (s1 s2 : str) :
  remove_unsafe (s1 ++ s2) = remove_unsafe s1 ++ remove_unsafe s2.
Proof.
  unfold Urllib.unsafe_url_bytes_to_remove. cbn [foldl]. unfold remove_char.
  by rewrite !filter_app.
Qed.

Lemma remove_unsafe_all (s : str) :
  Forall (λ c, c ∉ Urllib.unsafe_url_bytes_to_remove) s →
  remove_unsafe s = s.
Proof.
  unfold Urllib.unsafe_url_bytes_to_remove. intros Hs. cbn [foldl].
  unfold remove_char.
  rewrite (filter_all (λ c, c ≠ 9%N) s), (filter_all (λ c, c ≠ 13%N) s),
    (filter_all (λ c, c ≠ 10%N) s); [done|..];
    (eapply Forall_impl; [exact Hs|]); intros c Hc ->; apply Hc;
    set_solver.
Qed.

Lemma alpha_not_space (c : char) :
  Urllib.is_ascii_alpha c = true → Urllib.is_c0_control_or_space c = false.
Proof.
  unfold Urllib.is_ascii_alpha, Urllib.is_c0_control_or_space.
  rewrite orb_true_iff, !andb_true_iff, !N.leb_le, N.leb_gt. lia.
Qed.

Lemma scheme_char_plain (c : char) :
  Urllib.is_scheme_char c = true →
  (c ∉ Urllib.unsafe_url_bytes_to_remove) ∧ c ≠ chr ":".
Proof.
  unfold Urllib.is_scheme_char, Urllib.is_ascii_alpha,
    Urllib.unsafe_url_bytes_to_remove.
  rewrite !orb_true_iff, !andb_true_iff, !N.leb_le, bool_decide_eq_true.
  change (chr ":") with 58%N. change (chr "+") with 43%N.
  change (chr "-") with 45%N. change (chr ".") with 46%N.
  rewrite !elem_of_cons, !elem_of_nil. lia.
Qed.

Lemma forallb_elem_of {A} (f : A → bool) (l : list A) :
  forallb f l = true → ∀ x, x ∈ l → f x = true.
Proof.
  rewrite forallb_forall. intros H x Hx. apply H. by apply list_elem_of_In.
Qed.

Lemma strip_scheme_app (c0 : char) (scheme rest : str) :
  Urllib.is_ascii_alpha c0 = true →
  forallb Urllib.is_scheme_char (c0 :: scheme) = true →
  Urllib.strip_scheme ((c0 :: scheme) ++ chr ":" :: rest) = rest.
Proof.
  intros Hc0 Hscheme. unfold Urllib.strip_scheme.
  rewrite find_app_notin.
  2:{ intros Hin. apply (forallb_elem_of _ _ Hscheme) in Hin.
      by apply scheme_char_plain in Hin as [_ ?]. }
  cbn [find]. rewrite decide_True by done.
  cbn [fmap option_fmap option_map length app]. rewrite Nat.add_0_r.
  rewrite Hc0. cbn [andb].
  change (take (S (length scheme)) (c0 :: scheme ++ chr ":" :: rest))
    with (take (length (c0 :: scheme)) ((c0 :: scheme) ++ chr ":" :: rest)).
  rewrite take_app_length, Hscheme.
  change (c0 :: scheme ++ chr ":" :: rest)
    with ((c0 :: scheme) ++ [chr ":"] ++ rest).
  rewrite (assoc_L (++)). apply drop_app_length'.
  rewrite length_app. simpl. lia.
Qed.

Lemma splitnetloc_host (pre host tail : str) :
  Forall (λ c, c ∉ [chr "/"; chr "?"; chr "#"]) host →
  match tail with
  | [] => True
  | d :: _ => d ∈ [chr "/"; chr "?"; chr "#"]
  end →
  Urllib.splitnetloc (pre ++ host ++ tail) (length pre) = host.
Proof.
  intros Hhost Htail.
  assert (∀ c, c ∈ [chr "/"; chr "?"; chr "#"] →
               Urllib.find_from c (length pre) (pre ++ host ++ tail)
               = (λ i, length pre + (length host + i)) <$> find c tail)
    as Hfind.
  { intros c Hc. unfold Urllib.find_from. rewrite drop_app_length.
    rewrite find_app_notin.
    - by destruct (find c tail).
    - intros Hin. rewrite Forall_forall in Hhost. by apply (Hhost c). }
  unfold Urllib.splitnetloc. cbn [foldl].
  rewrite !Hfind by set_solver.
  match goal with |- drop _ (take ?d _) = _ => set (delim := d) end.
  assert (delim = length pre + length host
          ∨ tail = [] ∧ delim = length (pre ++ host ++ tail)) as Hdelim.
  { destruct tail as [|d t].
    - right. done.
    - left. unfold delim. rewrite !length_app. cbn [length find].
      apply elem_of_cons in Htail as [->|Htail];
        [|apply elem_of_cons in Htail as [->|Htail];
          [|apply list_elem_of_singleton in Htail as ->]];
        rewrite ?decide_True by done;
        repeat match goal with
               | |- context [decide (?a = ?b)] => destruct (decide (a = b))
               | |- context [find ?c t] => destruct (find c t)
               end; cbn [fmap option_fmap option_map]; lia. }
  destruct Hdelim as [-> | [-> ->]].
  - rewrite (assoc_L (++)), take_app_length' by (by rewrite length_app).
    apply drop_app_length.
  - rewrite take_ge by done. rewrite app_nil_r. apply drop_app_length.
Qed.

Section HostOfUri.

Context (netloc_ok : str → bool).

Abbreviation _extract_host := (Receipe._extract_host netloc_ok).

Lemma netloc_wellformed (scheme host tail : str) :
  wellformed_uri scheme host tail = true →
  Urllib.netloc netloc_ok (scheme ++ py "://" ++ host ++ tail)
  = if netloc_ok host then Ok host else Raise ValueError.
Proof.
  unfold wellformed_uri. rewrite !andb_true_iff.
  intros [[[Hc0 Hscheme] Hhost] Htail].
  destruct scheme as [|c0 scheme]; [done|].
  assert (∀ c, c ∈ host →
               c ∉ [9; 13; 10; chr "/"; chr "?"; chr "#";
                    chr "["; chr "]"]%N) as Hplain.
  { intros c Hc. apply (forallb_elem_of _ _ Hhost) in Hc.
    by apply bool_decide_eq_true in Hc. }
  assert (match remove_unsafe tail with
          | [] => True
          | d :: _ => d ∈ [chr "/"; chr "?"; chr "#"]
          end) as Htail'.
  { destruct tail as [|d t]; [done|]. apply bool_decide_eq_true in Htail.
    change (d :: t) with ([d] ++ t). rewrite remove_unsafe_app.
    rewrite (remove_unsafe_all [d]); [done|].
    constructor; [|done]. unfold Urllib.unsafe_url_bytes_to_remove.
    intros Hd. revert Htail Hd.
    change (chr "/") with 47%N. change (chr "?") with 63%N.
    change (chr "#") with 35%N.
    rewrite !elem_of_cons, !elem_of_nil. lia. }
  unfold Urllib.netloc. cbv zeta. cbn [app lstrip].
  rewrite (alpha_not_space _ Hc0).
  change (c0 :: scheme ++ py "://" ++ host ++ tail)
    with ((c0 :: scheme) ++ [chr ":"; chr "/"; chr "/"] ++ host ++ tail).
  rewrite !remove_unsafe_app.
  rewrite (remove_unsafe_all (c0 :: scheme)).
  2:{ apply Forall_forall. intros c Hc.
      apply (forallb_elem_of _ _ Hscheme) in Hc.
      by apply scheme_char_plain in Hc as [? _]. }
  rewrite (remove_unsafe_all [chr ":"; chr "/"; chr "/"]).
  2:{ apply (bool_decide_unpack _). vm_compute. exact I. }
  rewrite (remove_unsafe_all host).
  2:{ apply Forall_forall. intros c Hc. specialize (Hplain c Hc).
      unfold Urllib.unsafe_url_bytes_to_remove. set_solver. }
  change ([chr ":"; chr "/"; chr "/"] ++ host ++ remove_unsafe tail)
    with (chr ":" :: [chr "/"; chr "/"] ++ host ++ remove_unsafe tail).
  rewrite strip_scheme_app by done.
  rewrite decide_True by done.
  assert (Urllib.splitnetloc
            ([chr "/"; chr "/"] ++ host ++ remove_unsafe tail) 2 = host)
    as ->.
  { apply (splitnetloc_host [chr "/"; chr "/"] host (remove_unsafe tail));
      [|exact Htail'].
    apply Forall_forall. intros c Hc. specialize (Hplain c Hc). set_solver. }
  unfold contains.
  rewrite !bool_decide_eq_false_2; [done|..];
    intros Hc; specialize (Hplain _ Hc); set_solver.
Qed.

(** X17. For a uri of the form [scheme://host] followed by nothing or by a
    path, a query or a fragment, where the scheme starts with a letter and
    the host has none of the characters [/ ? # [ ]], tab, CR and LF, the
    host stage writes [host] into the row, provided [urlparse]'s checks
    accept that host; the stage returns a table when this holds for every
    row. *)
Theorem host_of_wellformed_uri (df : DataFrame) :
  Forall (λ e, ∃ scheme host tail,
            cells e !! "uri" = Some (Str (scheme ++ py "://" ++ host ++ tail))
            ∧ wellformed_uri scheme host tail = true
            ∧ netloc_ok host = true) df →
  ∃ df', _extract_host df = Ok df'
    ∧ Forall2 (λ e e', ∀ scheme host tail,
                 cells e !! "uri"
                 = Some (Str (scheme ++ py "://" ++ host ++ tail)) →
                 wellformed_uri scheme host tail = true →
                 e' = set "host" (Str host) e) df df'.
Proof.
  intros Hdf.
  exists ((λ e, match cells e !! "uri" with
                | Some (Str u) =>
                    match Urllib.netloc netloc_ok u with
                    | Ok h => set "host" (Str h) e
                    | Raise _ => e
                    end
                | _ => e
                end) <$> df).
  split.
  - apply extract_host_texts. apply Forall2_fmap_r, Forall_Forall2_diag.
    eapply Forall_impl; [exact Hdf|].
    intros e (scheme & host & tail & Hu & Hwf & Hok).
    exists (scheme ++ py "://" ++ host ++ tail), host.
    rewrite Hu, (netloc_wellformed _ _ _ Hwf), Hok. done.
  - apply Forall2_fmap_r, Forall_Forall2_diag.
    eapply Forall_impl; [exact Hdf|].
    intros e (scheme0 & host0 & tail0 & Hu0 & Hwf0 & Hok0)
           scheme host tail Hu Hwf.
    rewrite Hu, (netloc_wellformed _ _ _ Hwf).
    assert (scheme0 ++ py "://" ++ host0 ++ tail0
            = scheme ++ py "://" ++ host ++ tail) as Heq by congruence.
    pose proof (netloc_wellformed _ _ _ Hwf0) as H0.
    rewrite Heq, (netloc_wellformed _ _ _ Hwf), Hok0 in H0.
    destruct (netloc_ok host); [|done]. by injection H0 as ->.
Qed.

End HostOfUri.

(** ** The further properties at work on tables *)

(** The title repair raises on [table_without_segment], whose first row has
    no title and a uri that ends in a slash, and returns on [articles]. *)
Lemma title_repair_outcome_witness :
  _fill_nan_data table_without_segment = Raise AttributeError
  ∧ ∃ df', _fill_nan_data articles = Ok df'.
Proof.
  split.
  - apply (title_repair_outcome table_without_segment).
    + repeat constructor; do 2 eexists; split; vm_compute; reflexivity.
    + left. split; [vm_compute; reflexivity|]. eexists.
      split; [vm_compute; reflexivity|]. right. vm_compute. reflexivity.
  - apply (title_repair_outcome articles).
    + repeat constructor; do 2 eexists; split; vm_compute; reflexivity.
    + repeat first [apply Forall_nil_2 | apply Forall_cons_2];
        intros Ht u Hu; vm_compute in Ht;
        try discriminate; vm_compute in Hu; injection Hu as <-;
        split; vm_compute; discriminate.
Defined.

(** No title is missing behind the title repair of [articles]. *)
Lemma title_repair_leaves_no_title_missing_witness :
  ∃ df', _fill_nan_data articles = Ok df'
         ∧ Forall (λ e', ∃ t, cells e' !! "title" = Some t ∧ t ≠ NaN) df'.
Proof.
  destruct (_fill_nan_data articles) as [df'|ex] eqn:Hdf;
    [|vm_compute in Hdf; discriminate].
  exists df'. split; [done|].
  eapply Forall2_Forall_r;
    [exact (title_repair_leaves_no_title_missing articles df' Hdf)|].
  apply Forall_true. intros e e' (t & Ht & Hna & _). eauto.
Defined.

(** The title repair of [articles], run twice. *)
Lemma title_repair_idempotent_witness :
  ∃ df', _fill_nan_data articles = Ok df' ∧ _fill_nan_data df' = Ok df'.
Proof.
  destruct (_fill_nan_data articles) as [df'|ex] eqn:Hdf;
    [|vm_compute in Hdf; discriminate].
  exists df'. split; [done|].
  exact (title_repair_idempotent articles df' Hdf).
Defined.

(** The body stage on [articles], run twice. *)
Lemma body_normalizer_idempotent_witness :
  ∃ df', _remove_new_lines_from_body articles = Ok df'
         ∧ _remove_new_lines_from_body df' = Ok df'.
Proof.
  destruct (_remove_new_lines_from_body articles) as [df'|ex] eqn:Hdf;
    [|vm_compute in Hdf; discriminate].
  exists df'. split; [done|].
  exact (body_normalizer_idempotent articles df' Hdf).
Defined.

(** The body stage raises on [articles_missing_body]. *)
Lemma body_normalizer_raises_on_missing_body_witness :
  _remove_new_lines_from_body articles_missing_body = Raise TypeError.
Proof.
  apply (body_normalizer_raises_on_missing_body articles_missing_body).
  - repeat constructor; eexists; vm_compute; reflexivity.
  - right. left. intros b Hb. vm_compute in Hb. discriminate.
Defined.

(** The uid stage raises on [articles_missing_uri]. *)
Lemma row_identifier_raises_on_missing_uri_witness :
  _generate_uids_for_rows Sample.digest articles_missing_uri
  = Raise AttributeError.
Proof.
  apply (row_identifier_raises_on_missing_uri
           Sample.digest articles_missing_uri).
  - repeat constructor; eexists; (split; [vm_compute; reflexivity|]);
      intros u [= <-]; eexists; vm_compute; reflexivity.
  - right. left. intros u Hu. vm_compute in Hu. discriminate.
Defined.

(** The uris of [articles] differ and so do their digests: the labels that
    the uid stage gives differ. *)
Lemma row_identifier_index_unique_witness :
  ∃ df', _generate_uids_for_rows Sample.digest articles = Ok df'
         ∧ NoDup (index df').
Proof.
  destruct (_generate_uids_for_rows Sample.digest articles)
    as [df'|ex] eqn:Hdf; [|vm_compute in Hdf; discriminate].
  exists df'. split; [done|].
  destruct (row_identifier_index_unique Sample.digest articles df' Hdf)
    as [_ H].
  apply H.
  - assert (uri_cells articles
            = [Some (Str (py "http://example.com/news/big-story-today"));
               Some (Str (py "http://example.com/news/la-casa"))]) as ->
      by (vm_compute; reflexivity).
    intros u1 u2 uid H1 H2 Hu1 Hu2.
    repeat match goal with
           | H : _ ∈ _ :: _ |- _ => apply elem_of_cons in H as [[= ->]|H]
           | H : _ ∈ [] |- _ => by apply elem_of_nil in H
           end;
      try reflexivity; vm_compute in Hu1, Hu2; congruence.
  - apply (bool_decide_unpack _). vm_compute. exact I.
Defined.

(** With [digest16] the labels of [articles] are texts of 32 hexadecimal
    digits. *)
Lemma row_identifier_uid_is_hex_witness :
  (∀ bytes, length (digest16 bytes) = 16
            ∧ Forall (λ b, (b < 256)%N) (digest16 bytes))
  ∧ ∃ df', _generate_uids_for_rows digest16 articles = Ok df'
           ∧ Forall (λ e', ∃ uid, label e' = Str uid ∧ length uid = 32
                                  ∧ Forall (λ c, is_hex_digit c) uid) df'.
Proof.
  assert (∀ bytes, length (digest16 bytes) = 16
                   ∧ Forall (λ b, (b < 256)%N) (digest16 bytes)) as Hd.
  { intros bytes. unfold digest16. split; [apply length_replicate|].
    apply Forall_replicate. by apply N.mod_lt. }
  split; [exact Hd|].
  destruct (_generate_uids_for_rows digest16 articles)
    as [df'|ex] eqn:Hdf; [|vm_compute in Hdf; discriminate].
  exists df'. split; [done|].
  exact (row_identifier_uid_is_hex digest16 articles df' Hd Hdf).
Defined.

(** The tokenizer on the titles of [articles_titled], where nothing is
    missing. *)
Lemma tokenizer_counts_every_row_of_complete_table_witness :
  ∃ df', Sample._tokenize_column articles_titled "title" = Ok df'
         ∧ length df' = length articles_titled.
Proof.
  destruct (tokenizer_counts_every_row_of_complete_table
              Sample.word_tokenize Sample.isalpha Sample.lower
              Sample.stop_words articles_titled "title")
    as (df' & Hdf' & Hrows).
  - done.
  - repeat constructor; try (vm_compute; reflexivity);
      eexists; vm_compute; reflexivity.
  - exists df'. split; [exact Hdf'|].
    symmetry. exact (Forall2_length _ _ _ Hrows).
Defined.

(** The tokenizer raises on [articles_shared_label]. *)
Lemma tokenizer_raises_on_shared_label_witness :
  Sample._tokenize_column articles_shared_label "title" = Raise ValueError.
Proof.
  apply (tokenizer_raises_on_shared_label
           Sample.word_tokenize Sample.isalpha Sample.lower
           Sample.stop_words articles_shared_label "title").
  - intros e He _. unfold articles_shared_label in He. compute_in_list;
      eexists; vm_compute; reflexivity.
  - right. right. left. vm_compute. reflexivity.
  - intros Hnd. apply (bool_decide_pack _) in Hnd. vm_compute in Hnd.
    exact Hnd.
Defined.


(** The two counts in the rows that the pipeline makes of
    [articles_dated]. *)
Lemma main_counts_missing_together_witness :
  ∃ df', Sample.main (py "example_2021.csv") articles_dated = Ok df'
         ∧ Forall (λ e', cells e' !! "n_tokens_title" = Some NaN
                         ↔ cells e' !! "n_tokens_body" = Some NaN) df'.
Proof.
  destruct (Sample.main (py "example_2021.csv") articles_dated)
    as [df'|ex] eqn:Hdf; [|vm_compute in Hdf; discriminate].
  exists df'. split; [done|].
  exact (main_counts_missing_together
           Sample.word_tokenize Sample.isalpha Sample.lower
           Sample.stop_words Sample.digest Sample.netloc_ok
           (py "example_2021.csv") articles_dated df' Hdf).
Defined.

(** The pipeline returns on [articles], so every body of it is a text. *)
Lemma main_returns_only_if_witness :
  ∃ df', Sample.main (py "example_2021.csv") articles = Ok df'
         ∧ Forall (λ e, ∃ b, cells e !! "body" = Some (Str b)) articles.
Proof.
  destruct (Sample.main (py "example_2021.csv") articles)
    as [df'|ex] eqn:Hdf; [|vm_compute in Hdf; discriminate].
  exists df'. split; [done|].
  destruct (main_returns_only_if
              Sample.word_tokenize Sample.isalpha Sample.lower
              Sample.stop_words Sample.digest Sample.netloc_ok
              (py "example_2021.csv") articles df' Hdf) as (_ & H & _).
  eapply Forall_impl; [exact H|].
  intros e (u & b & t & _ & Hb & _). eauto.
Defined.

(** The rows that the pipeline makes of [articles] have no column
    [uid]. *)
Lemma main_output_rows_witness :
  ∃ df', Sample.main (py "example_2021.csv") articles = Ok df'
         ∧ Forall (λ e', cells e' !! "uid" = None) df'.
Proof.
  destruct (Sample.main (py "example_2021.csv") articles)
    as [df'|ex] eqn:Hdf; [|vm_compute in Hdf; discriminate].
  exists df'. split; [done|].
  eapply Forall_impl;
    [exact (main_output_rows
              Sample.word_tokenize Sample.isalpha Sample.lower
              Sample.stop_words Sample.digest Sample.netloc_ok
              (py "example_2021.csv") articles df' Hdf)|].
  by intros e' (_ & H & _).
Defined.

(** [articles] is a clean table: the pipeline returns on it. *)
Lemma main_completes_on_clean_table_witness :
  ∃ df', Sample.main (py "example_2021.csv") articles = Ok df'.
Proof.
  destruct (main_completes_on_clean_table
              Sample.word_tokenize Sample.isalpha Sample.lower
              Sample.stop_words Sample.digest Sample.netloc_ok
              (py "example_2021.csv") articles) as (df' & Hdf' & _).
  - done.
  - assert (∀ e, has_na (set "title" (Str []) e) = false →
                 ∀ c, c ≠ "title" → cells e !! c ≠ Some NaN) as Hclean.
    { intros e He c Hc. rewrite has_na_false in He. specialize (He c).
      simpl in He. by rewrite lookup_insert_ne in He. }
    repeat constructor.
    + do 4 eexists. exists NaN.
      repeat (split; [vm_compute; reflexivity|]).
      split; [left; split; [done|]; vm_compute; discriminate|].
      apply Hclean. vm_compute. reflexivity.
    + do 5 eexists.
      repeat (split; [vm_compute; reflexivity|]).
      split; [right; by eexists|].
      apply Hclean. vm_compute. reflexivity.
  - by exists df'.
Defined.

(** The hosts of [articles] have no slash. *)
Lemma host_has_no_delimiter_witness :
  ∃ df', _extract_host Sample.netloc_ok articles = Ok df'
         ∧ Forall (λ e', ∃ h, cells e' !! "host" = Some (Str h)
                              ∧ (chr "/" ∉ h)) df'.
Proof.
  destruct (_extract_host Sample.netloc_ok articles) as [df'|ex] eqn:Hdf;
    [|vm_compute in Hdf; discriminate].
  exists df'. split; [done|].
  eapply Forall2_Forall_r;
    [exact (host_has_no_delimiter Sample.netloc_ok articles df' Hdf)|].
  repeat first [apply Forall_nil_2 | apply Forall_cons_2]; intros e' He'.
  - destruct (He' (py "http://example.com/news/big-story-today"))
      as (h & Hh & Hs & _); [vm_compute; reflexivity | by eauto].
  - destruct (He' (py "http://example.com/news/la-casa"))
      as (h & Hh & Hs & _); [vm_compute; reflexivity | by eauto].
Defined.

(** The uris of [articles] have the usual form; their host is
    [example.com]. *)
Lemma host_of_wellformed_uri_witness :
  ∃ df', _extract_host Sample.netloc_ok articles = Ok df'
         ∧ Forall (λ e', cells e' !! "host" = Some (Str (py "example.com")))
                  df'.
Proof.
  destruct (host_of_wellformed_uri Sample.netloc_ok articles)
    as (df' & Hdf' & Hrows).
  - repeat first [apply Forall_nil_2 | apply Forall_cons_2].
    + exists (py "http"), (py "example.com"), (py "/news/big-story-today").
      repeat split; vm_compute; reflexivity.
    + exists (py "http"), (py "example.com"), (py "/news/la-casa").
      repeat split; vm_compute; reflexivity.
  - exists df'. split; [exact Hdf'|].
    eapply Forall2_Forall_r; [exact Hrows|].
    repeat first [apply Forall_nil_2 | apply Forall_cons_2]; intros e' He'.
    + rewrite (He' (py "http") (py "example.com")
                   (py "/news/big-story-today"));
        vm_compute; reflexivity.
    + rewrite (He' (py "http") (py "example.com") (py "/news/la-casa"));
        vm_compute; reflexivity.
Defined.

(** The pipeline raises on [articles_read_twice]. *)
Lemma main_raises_on_repeated_uri_witness :
  Sample.main (py "example_2021.csv") articles_read_twice = Raise ValueError.
Proof.
  apply (main_raises_on_repeated_uri
           Sample.word_tokenize Sample.isalpha Sample.lower
           Sample.stop_words Sample.digest Sample.netloc_ok
           (py "example_2021.csv") articles_read_twice
           [] [] (drop 2 articles_read_twice)
           (article_with_date 0) (article_with_date 1)).
  - reflexivity.
  - repeat first [apply Forall_nil_2 | apply Forall_cons_2];
      do 5 eexists; repeat (split; [vm_compute; reflexivity|]);
      right; eexists; reflexivity.
  - vm_compute. reflexivity.
  - intros c _. split; apply has_na_false; vm_compute; reflexivity.
  - right. right. left. exists "date".
    split; [|vm_compute; reflexivity].
    apply (bool_decide_unpack _). vm_compute. exact I.
Defined.

(** The pipeline on [articles] returns as many rows as it was given. *)
Lemma main_keeps_every_row_witness :
  ∃ df', Sample.main (py "example_2021.csv") articles = Ok df'
         ∧ length df' = length articles.
Proof.
  destruct (Sample.main (py "example_2021.csv") articles) as [df'|ex] eqn:Hdf;
    [|vm_compute in Hdf; discriminate].
  exists df'. split; [done|].
  destruct (main_keeps_every_row
              Sample.word_tokenize Sample.isalpha Sample.lower
              Sample.stop_words Sample.digest Sample.netloc_ok
              (py "example_2021.csv") articles df' Hdf) as (H & _).
  exact H.
Defined.
